(** * Flyleaf designer: stack layout, artwork bounds, PDF builder, text wrap.

    A shallow embedding of the pure functions of
    [src/app/designer/page.tsx] (the revision that carries the PDF
    builder, lines 753-1916 of the concatenated source) together with the
    properties its specification states about them.

    Numbers.  A JavaScript [number] holding a length is modelled as an exact
    rational ([Q]); equality of lengths is [Qeq] (written [==]).  Rounding
    of IEEE doubles, and lengths that are [NaN] or infinite, are outside the
    model.  Where the source itself guards against a non-finite quotient
    ([Number.isFinite]) the quotient is an extended rational ([JsNumber]).
    Byte positions, object numbers, pixel counts and book ids are
    integers. *)

From Stdlib Require Import QArith Qminmax Qround Qabs Lqa ZArith Lia List Bool Arith.
From Stdlib Require Import Strings.String Strings.Ascii Strings.Byte.
From Stdlib Require Import Sorting.Permutation.
From Stdlib Require Import Numbers.DecimalString.
From Stdlib Require Numbers.DecimalNat Numbers.DecimalFacts.
Import ListNotations.

Local Open Scope Q_scope.

(** ** Array helpers *)

(** [Array.prototype.reduce] with an initial value; the callback receives the
    accumulator, the element and the element's index.  [forEach] with a
    mutated local is the same traversal, the locals being the accumulator. *)
Fixpoint reduce_from {A B : Type} (f : B -> A -> nat -> B)
         (l : list A) (index : nat) (acc : B) : B :=
  match l with
  | [] => acc
  | x :: t => reduce_from f t (S index) (f acc x index)
  end.

Definition reduce {A B : Type} (f : B -> A -> nat -> B) (l : list A) (init : B) : B :=
  reduce_from f l 0%nat init.

(** [Math.max(x, ...xs)] and [Math.min(x, ...xs)] on a non-empty spread. *)
Definition Math_max (x : Q) (xs : list Q) : Q := fold_left Qmax xs x.
Definition Math_min (x : Q) (xs : list Q) : Q := fold_left Qmin xs x.

(** ** Data model *)

Record BookFormState := mkBook {
  id : Z;
  label : string;
  heightCm : Q;
  spineWidthCm : Q;
  color : string
}.

(** [BookRect] and [ArtworkDimensionsMm] share field names with other
    records of the source; each lives in a module of its own. *)
Module BookRect.
Record t := mk {
  id : Z;
  label : string;
  widthMm : Q;
  heightMm : Q;
  xMm : Q;
  yMm : Q;
  color : string
}.
End BookRect.

Module ArtworkDimensionsMm.
Record t := mk {
  widthMm : Q;
  heightMm : Q
}.
End ArtworkDimensionsMm.

Record StackMetrics := mkMetrics {
  totalWidthMm : Q;
  maxHeightMm : Q;
  minHeightMm : Q;
  requiredWidthMm : Q;
  requiredHeightMm : Q;
  collectionWidthCm : Q;
  fitsOnTabloid : bool
}.

Record StackLayout := mkLayout {
  metrics : StackMetrics;
  rects : list BookRect.t
}.

Definition CM_TO_MM : Q := 10.
Definition GAP_MM : Q := 2.
Definition CLEARANCE_SIDE_MM : Q := 10.
Definition CLEARANCE_TOP_MM : Q := 2.
Definition CLEARANCE_BOTTOM_MM : Q := 2.
Definition ART_SAFE_MARGIN_SIDE_MM : Q := 10.
Definition ART_SAFE_MARGIN_VERTICAL_MM : Q := 2.
Definition TABLOID_WIDTH_MM : Q := 17 * 25.4.
Definition TABLOID_HEIGHT_MM : Q := 11 * 25.4.

Definition DEFAULT_BOOKS : list BookFormState :=
  [ mkBook 1 "Book 1" 23.5 4.25 "#2563eb";
    mkBook 2 "Book 2" 23.5 4 "#10b981";
    mkBook 3 "Book 3" 23.5 4.75 "#f97316";
    mkBook 4 "Book 4" 23.5 2.25 "#6366f1" ].

(** ** Stack layout engine *)

Definition cmToMm (valueCm : Q) : Q := valueCm * CM_TO_MM.

(** The callback of [widthsMm.reduce]. *)
Definition addWidth (acc width : Q) (index : nat) : Q :=
  let gap := if Nat.eqb index 0 then 0 else GAP_MM in
  acc + width + gap.

(** The body of [books.forEach]; the mutated locals [rects] and [cursorMm]
    are the state. *)
Definition placeBook (maxHeight : Q) (st : list BookRect.t * Q)
           (book : BookFormState) (index : nat) : list BookRect.t * Q :=
  let '(rs, cursorMm) := st in
  let w := cmToMm (spineWidthCm book) in
  let h := cmToMm (heightCm book) in
  let cursorMm := if Nat.ltb 0 index then cursorMm + GAP_MM else cursorMm in
  let x := cursorMm in
  let y := CLEARANCE_TOP_MM + (maxHeight - h) in
  (rs ++ [BookRect.mk (id book) (label book) w h x y (color book)], cursorMm + w).

Definition computeStackLayout (books : list BookFormState) : StackLayout :=
  let heightsMm := map (fun book => cmToMm (heightCm book)) books in
  let widthsMm := map (fun book => cmToMm (spineWidthCm book)) books in
  let maxHeight := match heightsMm with [] => 0 | h :: t => Math_max h t end in
  let minHeight := match heightsMm with [] => 0 | h :: t => Math_min h t end in
  let totalWidth := reduce addWidth widthsMm 0 in
  let '(rs, _) := reduce (placeBook maxHeight) books ([], CLEARANCE_SIDE_MM) in
  let requiredWidth := totalWidth + CLEARANCE_SIDE_MM * 2 in
  let requiredHeight := maxHeight + CLEARANCE_TOP_MM + CLEARANCE_BOTTOM_MM in
  let fits := Qle_bool requiredWidth TABLOID_WIDTH_MM
              && Qle_bool requiredHeight TABLOID_HEIGHT_MM in
  mkLayout
    (mkMetrics totalWidth maxHeight minHeight requiredWidth requiredHeight
               (totalWidth / CM_TO_MM) fits)
    rs.

Definition DEFAULT_LAYOUT : StackLayout := computeStackLayout DEFAULT_BOOKS.

(** Sum of a list of lengths. *)
Definition Qsum (l : list Q) : Q := fold_right Qplus 0 l.

(** ** Artwork bounds solver *)

(** The value of a division, which the source tests with
    [Number.isFinite]. *)
Inductive JsNumber :=
| Finite (q : Q)
| PosInfinity
| NegInfinity
| NaN.

Definition Qlt_bool (x y : Q) : bool := negb (Qle_bool y x).

(** [x / y] on finite operands: a zero divisor gives [NaN] for a zero
    dividend and a signed infinity otherwise. *)
Definition js_div (x y : Q) : JsNumber :=
  if Qeq_bool y 0 then
    if Qeq_bool x 0 then NaN
    else if Qlt_bool 0 x then PosInfinity else NegInfinity
  else Finite (x / y).

(** [Math.max(a, b)] on two quotients. *)
Definition js_max (a b : JsNumber) : JsNumber :=
  match a, b with
  | NaN, _ | _, NaN => NaN
  | PosInfinity, _ | _, PosInfinity => PosInfinity
  | NegInfinity, x | x, NegInfinity => x
  | Finite x, Finite y => Finite (Qmax x y)
  end.

(** [x || y] on numbers: [y] when [x] is zero. *)
Definition js_or (x y : Q) : Q := if Qeq_bool x 0 then y else x.

Record ArtworkBounds := mkBounds {
  safeWidthMm : Q;
  safeHeightMm : Q;
  containerWidthMm : Q;
  containerHeightMm : Q;
  minZoom : Q
}.

Record OffsetLimits := mkLimits {
  minX : Q;
  maxX : Q;
  minY : Q;
  maxY : Q
}.

Definition computeArtworkBounds (m : StackMetrics)
           (artworkDimensions : ArtworkDimensionsMm.t) : ArtworkBounds :=
  let safeW := totalWidthMm m + ART_SAFE_MARGIN_SIDE_MM * 2 in
  let safeH := maxHeightMm m + ART_SAFE_MARGIN_VERTICAL_MM * 2 in
  let fallbackWidthMm := js_or (requiredWidthMm m) safeW in
  let fallbackHeightMm := js_or (requiredHeightMm m) safeH in
  let baseWidthMm :=
    js_or (ArtworkDimensionsMm.widthMm artworkDimensions) fallbackWidthMm in
  let baseHeightMm :=
    js_or (ArtworkDimensionsMm.heightMm artworkDimensions) fallbackHeightMm in
  let minZoomRaw := js_max (js_div safeW baseWidthMm) (js_div safeH baseHeightMm) in
  let zoom :=
    match minZoomRaw with
    | Finite q => if Qlt_bool 0 q then q else 1
    | _ => 1
    end in
  mkBounds safeW safeH (requiredWidthMm m) (requiredHeightMm m) zoom.

Definition computeOffsetLimits (bounds : ArtworkBounds)
           (artworkDimensions : ArtworkDimensionsMm.t) (zoom : Q) : OffsetLimits :=
  let baseWidthMm :=
    js_or (ArtworkDimensionsMm.widthMm artworkDimensions) (safeWidthMm bounds) in
  let baseHeightMm :=
    js_or (ArtworkDimensionsMm.heightMm artworkDimensions) (safeHeightMm bounds) in
  let artWidthMm := baseWidthMm * zoom in
  let artHeightMm := baseHeightMm * zoom in
  let horizontalRoomMm := Qmax ((artWidthMm - safeWidthMm bounds) / 2) 0 in
  let verticalRoomMm := Qmax ((artHeightMm - safeHeightMm bounds) / 2) 0 in
  mkLimits (- horizontalRoomMm) horizontalRoomMm (- verticalRoomMm) verticalRoomMm.

(** ** Document builder *)

Local Open Scope string_scope.

(** The line feed written as [\n] in the source's string literals. *)
Definition LF : string := String "010" EmptyString.

(** [`${n}`] for a non-negative integer. *)
Definition nat_to_string (n : nat) : string :=
  NilEmpty.string_of_uint (Nat.to_uint n).

(** [`${z}`] for an integer. *)
Definition Z_to_string (z : Z) : string :=
  NilEmpty.string_of_int (Z.to_int z).

(** [Array.prototype.join]. *)
Fixpoint join (sep : string) (l : list string) : string :=
  match l with
  | [] => ""
  | [x] => x
  | x :: t => x ++ sep ++ join sep t
  end.

Fixpoint repeat_string (c : ascii) (n : nat) : string :=
  match n with
  | O => ""
  | S k => String c (repeat_string c k)
  end.

(** [s.padStart(n, "0")]: zeros are put in front of a shorter string, a
    longer one is returned as it is. *)
Definition padStart0 (n : nat) (s : string) : string :=
  repeat_string "0" (n - String.length s) ++ s.

Definition padPdfOffset (value : nat) : string :=
  padStart0 10 (nat_to_string value).

Definition mmToPoints (valueMm : Q) : Q := (valueMm / 25.4 * 72)%Q.

(** [x.toFixed(2)] on an exact rational below 10^21: the nearest multiple of
    1/100, the larger one on a tie, printed with two decimals. *)
Definition toFixed2 (x : Q) : string :=
  let sign := if Qlt_bool x 0 then "-" else "" in
  let n := Qfloor (Qabs x * 100 + (1 # 2))%Q in
  let frac := Z.to_nat (n mod 100) in
  sign ++ Z_to_string (n / 100) ++ "."
       ++ (if Nat.ltb frac 10 then "0" else "") ++ nat_to_string frac.

(** [TextEncoder.encode]: every string the builder writes is ASCII, one byte
    per character. *)
Definition encode (s : string) : list byte := list_byte_of_string s.

Record PdfPageImage := mkPage {
  jpegBytes : list byte;
  widthPx : nat;
  heightPx : nat
}.

(** The argument of [write]: [string | Uint8Array]. *)
Inductive WriteValue :=
| Text (s : string)
| Binary (b : list byte).

(** A JavaScript array of numbers with holes. *)
Definition JsArray := list (option nat).

(** [a[i] = v]: an index past the end extends the array, leaving holes. *)
Definition array_set (a : JsArray) (i v : nat) : JsArray :=
  if Nat.ltb i (List.length a)
  then (firstn i a ++ Some v :: skipn (S i) a)%list
  else (a ++ repeat None (i - List.length a) ++ [Some v])%list.

(** [a[i] ?? 0]. *)
Definition array_get_or0 (a : JsArray) (i : nat) : nat :=
  match nth_error a i with
  | Some (Some v) => v
  | _ => 0%nat
  end.

(** The locals [chunks], [offsets] and [currentOffset] that the closures
    [write] and [beginObject] mutate. *)
Record PdfWriter := mkWriter {
  chunks : list (list byte);
  offsets : JsArray;
  currentOffset : nat
}.

Definition newWriter : PdfWriter := mkWriter [] [Some 0%nat] 0.

Definition write (value : WriteValue) (w : PdfWriter) : PdfWriter :=
  let chunk := match value with Text s => encode s | Binary b => b end in
  mkWriter (chunks w ++ [chunk])%list (offsets w) (currentOffset w + List.length chunk).

Definition objectHeader (objectNumber : nat) : string :=
  nat_to_string objectNumber ++ " 0 obj" ++ LF.

Definition beginObject (objectNumber : nat) (w : PdfWriter) : PdfWriter :=
  let w := mkWriter (chunks w) (array_set (offsets w) objectNumber (currentOffset w))
                    (currentOffset w) in
  write (Text (objectHeader objectNumber)) w.

Definition basePageObject : nat := 3.

(** The body of [pages.forEach]. *)
Definition writePage (mediaBox : string) (pageWidthMm pageHeightMm : Q)
           (w : PdfWriter) (page : PdfPageImage) (index : nat) : PdfWriter :=
  let pageObjectNumber := (basePageObject + index * 3)%nat in
  let imageObjectNumber := (pageObjectNumber + 1)%nat in
  let contentObjectNumber := (pageObjectNumber + 2)%nat in
  let w := beginObject pageObjectNumber w in
  let w := write (Text ("<< /Type /Page /Parent 2 0 R /MediaBox " ++ mediaBox
                        ++ " /Resources << /XObject << /Im0 "
                        ++ nat_to_string imageObjectNumber
                        ++ " 0 R >> /ProcSet [/PDF /ImageC] >> /Contents "
                        ++ nat_to_string contentObjectNumber
                        ++ " 0 R >>" ++ LF ++ "endobj" ++ LF)) w in
  let w := beginObject imageObjectNumber w in
  let w := write (Text ("<< /Type /XObject /Subtype /Image /Width "
                        ++ nat_to_string (widthPx page) ++ " /Height "
                        ++ nat_to_string (heightPx page)
                        ++ " /ColorSpace /DeviceRGB /BitsPerComponent 8 /Filter /DCTDecode /Length "
                        ++ nat_to_string (List.length (jpegBytes page))
                        ++ " >>" ++ LF ++ "stream" ++ LF)) w in
  let w := write (Binary (jpegBytes page)) w in
  let w := write (Text (LF ++ "endstream" ++ LF ++ "endobj" ++ LF)) w in
  let pageWidthPoints := toFixed2 (mmToPoints pageWidthMm) in
  let pageHeightPoints := toFixed2 (mmToPoints pageHeightMm) in
  let contentStream := "q" ++ LF ++ pageWidthPoints ++ " 0 0 " ++ pageHeightPoints
                           ++ " 0 0 cm" ++ LF ++ "/Im0 Do" ++ LF ++ "Q" ++ LF in
  let w := beginObject contentObjectNumber w in
  write (Text ("<< /Length " ++ nat_to_string (String.length contentStream) ++ " >>"
               ++ LF ++ "stream" ++ LF ++ contentStream ++ "endstream" ++ LF
               ++ "endobj" ++ LF)) w.

(** One iteration of the loop that writes the in-use entries. *)
Definition writeXrefEntry (w : PdfWriter) (index : nat) : PdfWriter :=
  write (Text (padPdfOffset (array_get_or0 (offsets w) index) ++ " 00000 n " ++ LF)) w.

(** The writer after the objects of all pages, before the table. *)
Definition writeObjects (pages : list PdfPageImage) (pageWidthMm pageHeightMm : Q)
  : PdfWriter :=
  let w := newWriter in
  let w := write (Text ("%PDF-1.4" ++ LF)) w in
  let w := beginObject 1 w in
  let w := write (Text ("<< /Type /Catalog /Pages 2 0 R >>" ++ LF ++ "endobj" ++ LF)) w in
  let mediaBox := "[0 0 " ++ toFixed2 (mmToPoints pageWidthMm) ++ " "
                          ++ toFixed2 (mmToPoints pageHeightMm) ++ "]" in
  let pageCount := List.length pages in
  let w := beginObject 2 w in
  let kids := join " " (map (fun index => nat_to_string (basePageObject + index * 3) ++ " 0 R")
                            (seq 0 pageCount)) in
  let w := write (Text ("<< /Type /Pages /Kids [" ++ kids ++ "] /Count "
                        ++ nat_to_string pageCount ++ " >>" ++ LF ++ "endobj" ++ LF)) w in
  reduce (writePage mediaBox pageWidthMm pageHeightMm) pages w.

Definition buildMultiPagePdf (pages : list PdfPageImage) (pageWidthMm pageHeightMm : Q)
  : list byte :=
  let w := writeObjects pages pageWidthMm pageHeightMm in
  let pageCount := List.length pages in
  let totalObjects := (2 + pageCount * 3)%nat in
  let startXref := currentOffset w in
  let w := write (Text ("xref" ++ LF ++ "0 " ++ nat_to_string (totalObjects + 1) ++ LF)) w in
  let w := write (Text ("0000000000 65535 f " ++ LF)) w in
  let w := fold_left writeXrefEntry (seq 1 totalObjects) w in
  let w := write (Text ("trailer" ++ LF ++ "<< /Size " ++ nat_to_string (totalObjects + 1)
                        ++ " /Root 1 0 R >>" ++ LF ++ "startxref" ++ LF
                        ++ nat_to_string startXref ++ LF ++ "%%EOF")) w in
  List.concat (chunks w).

(** ** Text wrapping *)

Local Open Scope list_scope.

(** A JavaScript string as its sequence of characters (code units below
    256). *)
Definition text := list ascii.

(** The characters matched by [\s] and removed by [trim()]: tab, line feed,
    vertical tab, form feed, carriage return, space, no-break space. *)
Definition is_space (c : ascii) : bool :=
  let n := nat_of_ascii c in
  (Nat.leb 9 n && Nat.leb n 13) || Nat.eqb n 32 || Nat.eqb n 160.

Fixpoint trimStart (s : text) : text :=
  match s with
  | [] => []
  | c :: t => if is_space c then trimStart t else s
  end.

Definition trimEnd (s : text) : text := rev (trimStart (rev s)).

Definition trim (s : text) : text := trimEnd (trimStart s).

(** Puts a character in front of the first piece of a split. *)
Definition cons_first (c : ascii) (ps : list text) : list text :=
  match ps with
  | [] => [[c]]
  | p :: rest => (c :: p) :: rest
  end.

Definition is_LF (c : ascii) : bool := Ascii.eqb c "010".
Definition is_CR (c : ascii) : bool := Ascii.eqb c "013".

(** [s.split(/\r?\n/)]. *)
Fixpoint splitLines (s : text) : list text :=
  match s with
  | [] => [[]]
  | c :: t =>
      if is_LF c then [] :: splitLines t
      else
        match t with
        | c' :: t' =>
            if is_CR c && is_LF c' then [] :: splitLines t'
            else cons_first c (splitLines t)
        | [] => cons_first c (splitLines t)
        end
  end.

(** [s.split(/\s+/)]: a run of white space is one separator. *)
Fixpoint splitSpaces (s : text) : list text :=
  match s with
  | [] => [[]]
  | c :: t =>
      if is_space c then
        match t with
        | c' :: _ => if is_space c' then splitSpaces t else [] :: splitSpaces t
        | [] => [] :: splitSpaces t
        end
      else cons_first c (splitSpaces t)
  end.

Section Wrap.

(** [context.measureText(s).width] for the font set on the context. *)
Variable measureText : text -> Q.
Variable maxWidth : Q.

(** The body of [words.forEach]; the state is [lines] and [currentLine]. *)
Definition wrapWord (st : list text * text) (word : text) : list text * text :=
  let '(lines, currentLine) := st in
  let testLine := trim (currentLine ++ " "%char :: word) in
  if Qle_bool (measureText testLine) maxWidth
  then (lines, testLine)
  else (lines ++ [currentLine], word).

(** The body of [paragraphs.forEach]; the state is [lines]. *)
Definition wrapParagraph (paragraphCount : nat) (lines : list text)
           (paragraph : text) (paragraphIndex : nat) : list text :=
  let trimmed := trim paragraph in
  if Nat.eqb (List.length trimmed) 0 then
    if Nat.ltb paragraphIndex (paragraphCount - 1) then lines ++ [[]] else lines
  else
    let words := splitSpaces trimmed in
    let '(lines, currentLine) := fold_left wrapWord (tl words) (lines, hd [] words) in
    lines ++ [currentLine].

Definition wrapTextIntoLines (txt : text) : list text :=
  let paragraphs := splitLines txt in
  reduce (wrapParagraph (List.length paragraphs)) paragraphs [].

End Wrap.

Definition PDF_RENDER_SCALE : Q := 5.

Definition mmToPdfPixels (valueMm : Q) : Q := (valueMm * PDF_RENDER_SCALE)%Q.

(** [maxTextWidthPx] of [renderPdfPreview]; the text box is as wide as the
    spines ([largeTextAreaWidthMm = layout.metrics.totalWidthMm]). *)
Definition maxTextWidthPx (layout : StackLayout) : Q :=
  (mmToPdfPixels (totalWidthMm (metrics layout)) * 0.92)%Q.


(** ** Book list operations of the designer page *)

Record DesignerState := mkState {
  books : list BookFormState;
  nextId : Z
}.


(** The pair [(key, value)] of [handleUpdateBook] after its coercion
    [key === "label" || key === "color" ? value : Number(value)]; [key]
    ranges over [keyof BookFormState]. *)
Inductive FieldUpdate :=
| SetId (v : Z)
| SetLabel (v : string)
| SetHeightCm (v : Q)
| SetSpineWidthCm (v : Q)
| SetColor (v : string).

Definition setField (u : FieldUpdate) (book : BookFormState) : BookFormState :=
  match u with
  | SetId v => mkBook v (label book) (heightCm book) (spineWidthCm book) (color book)
  | SetLabel v => mkBook (id book) v (heightCm book) (spineWidthCm book) (color book)
  | SetHeightCm v => mkBook (id book) (label book) v (spineWidthCm book) (color book)
  | SetSpineWidthCm v => mkBook (id book) (label book) (heightCm book) v (color book)
  | SetColor v => mkBook (id book) (label book) (heightCm book) (spineWidthCm book) v
  end.

Definition handleUpdateBook (bookId : Z) (u : FieldUpdate) (st : DesignerState)
  : DesignerState :=
  mkState (map (fun book => if Z.eqb (id book) bookId then setField u book else book)
               (books st))
          (nextId st).

Definition handleAddBook (st : DesignerState) : DesignerState :=
  let current := books st in
  mkState (current ++
           [mkBook (nextId st) ("Book " ++ Z_to_string (nextId st))%string
                   (last (map heightCm current) 22%Q) 3.5%Q "#0ea5e9"])
          (nextId st + 1).

Definition handleRemoveBook (bookId : Z) (st : DesignerState) : DesignerState :=
  let current := books st in
  mkState (if Nat.ltb 1 (List.length current)
           then filter (fun book => negb (Z.eqb (id book) bookId)) current
           else current)
          (nextId st).




(** ** Geometry primitives and the effects of the designer page *)

Definition clamp (value min max : Q) : Q := Qmin (Qmax value min) max.

Definition PREVIEW_SCALE : Q := 2.

(** The memo [maxLargeTextSizePx] of the designer page. *)
Definition maxLargeTextSizePx (layout : StackLayout) : Q :=
  let availableHeightPx := (minHeightMm (metrics layout) * PREVIEW_SCALE)%Q in
  if Qlt_bool 0 availableHeightPx then Qmax 24 (availableHeightPx * 0.8)%Q else 72%Q.

(** The effect on [maxLargeTextSizePx]: the updater of [setLargeTextSizePx]. *)
Definition reclampTextSize (layout : StackLayout) (current : Q) : Q :=
  clamp current 24 (maxLargeTextSizePx layout).

(** The effect on [artworkBounds.minZoom] and [hasManualZoom]: the updater
    of [setArtZoom]. *)
Definition reclampZoom (artworkBounds : ArtworkBounds) (hasManualZoom : bool)
           (current : Q) : Q :=
  let desiredZoom :=
    if hasManualZoom && Qle_bool (minZoom artworkBounds) current
    then current else minZoom artworkBounds in
  if Qeq_bool current desiredZoom then current else desiredZoom.


Module ArtOffset.
Record t := mk {
  x : Q;
  y : Q
}.
End ArtOffset.

(** The effect on [offsetLimits] and [hasManualOffset]: the updater of
    [setArtOffsetMm]. *)
Definition reclampOffset (offsetLimits : OffsetLimits) (hasManualOffset : bool)
           (current : ArtOffset.t) : ArtOffset.t :=
  let clamped :=
    ArtOffset.mk (clamp (ArtOffset.x current) (minX offsetLimits) (maxX offsetLimits))
                 (clamp (ArtOffset.y current) (minY offsetLimits) (maxY offsetLimits)) in
  if hasManualOffset then clamped
  else
    let centered :=
      ArtOffset.mk (clamp 0 (minX offsetLimits) (maxX offsetLimits))
                   (clamp 0 (minY offsetLimits) (maxY offsetLimits)) in
    if Qeq_bool (ArtOffset.x clamped) (ArtOffset.x centered)
       && Qeq_bool (ArtOffset.y clamped) (ArtOffset.y centered)
    then clamped else centered.

(** The change handlers of the two offset sliders. *)
Definition handleOffsetXInput (offsetLimits : OffsetLimits) (value : Q)
           (prev : ArtOffset.t) : ArtOffset.t :=
  ArtOffset.mk (clamp value (minX offsetLimits) (maxX offsetLimits)) (ArtOffset.y prev).

Definition handleOffsetYInput (offsetLimits : OffsetLimits) (value : Q)
           (prev : ArtOffset.t) : ArtOffset.t :=
  ArtOffset.mk (ArtOffset.x prev) (clamp value (minY offsetLimits) (maxY offsetLimits)).

(** ** Page renderer: the geometry of one page *)

(** The lengths [renderPdfPreview] computes for the page of one rectangle,
    in millimetres on the sheet, before it draws. *)
Record PageGeometry := mkGeometry {
  bookLeftMm : Q;
  bookTopMm : Q;
  bookRightMm : Q;
  bookBottomMm : Q;
  artDrawXmm : Q;
  artDrawYmm : Q;
  artDrawWidthMm : Q;
  artDrawHeightMm : Q;
  clipLeftMm : Q;
  clipTopMm : Q;
  clipRightMm : Q;
  clipBottomMm : Q;
  clipWidthMm : Q;
  clipHeightMm : Q;
  (** the guard of the clipped [drawImage] *)
  drawsArtwork : bool;
  largeTextAreaCenterX : Q;
  largeTextAreaCenterY : Q
}.

Definition pageGeometry (layout : StackLayout) (artOffsetMm : ArtOffset.t)
           (artZoom : Q) (artworkDimensionsMm : ArtworkDimensionsMm.t)
           (rect : BookRect.t) : PageGeometry :=
  let containerLeftMm := ((TABLOID_WIDTH_MM - requiredWidthMm (metrics layout)) / 2)%Q in
  let containerTopMm := ((TABLOID_HEIGHT_MM - requiredHeightMm (metrics layout)) / 2)%Q in
  let containerWidthMm := requiredWidthMm (metrics layout) in
  let containerHeightMm := requiredHeightMm (metrics layout) in
  let artBaseWidthMm :=
    js_or (ArtworkDimensionsMm.widthMm artworkDimensionsMm) containerWidthMm in
  let artBaseHeightMm :=
    js_or (ArtworkDimensionsMm.heightMm artworkDimensionsMm) containerHeightMm in
  let artDrawW := (artBaseWidthMm * artZoom)%Q in
  let artDrawH := (artBaseHeightMm * artZoom)%Q in
  let artCenterXmm :=
    (containerLeftMm + containerWidthMm / 2 + ArtOffset.x artOffsetMm)%Q in
  let artCenterYmm :=
    (containerTopMm + containerHeightMm / 2 + ArtOffset.y artOffsetMm)%Q in
  let largeTextAreaLeftMm := (containerLeftMm + CLEARANCE_SIDE_MM)%Q in
  let largeTextAreaTopMm :=
    (containerTopMm + CLEARANCE_TOP_MM
     + (maxHeightMm (metrics layout) - minHeightMm (metrics layout)) / 2)%Q in
  let largeTextAreaWidthMm := totalWidthMm (metrics layout) in
  let largeTextAreaHeightMm := minHeightMm (metrics layout) in
  let largeTextCenterXStack := (largeTextAreaLeftMm + largeTextAreaWidthMm / 2)%Q in
  let largeTextCenterYStack := (largeTextAreaTopMm + largeTextAreaHeightMm / 2)%Q in
  let bookCenterXStack :=
    (containerLeftMm + BookRect.xMm rect + BookRect.widthMm rect / 2)%Q in
  let bookCenterYStack :=
    (containerTopMm + BookRect.yMm rect + BookRect.heightMm rect / 2)%Q in
  let artDeltaX := (artCenterXmm - bookCenterXStack)%Q in
  let artDeltaY := (artCenterYmm - bookCenterYStack)%Q in
  let bookLeft := (TABLOID_WIDTH_MM / 2 - BookRect.widthMm rect / 2)%Q in
  let bookTop := (TABLOID_HEIGHT_MM / 2 - BookRect.heightMm rect / 2)%Q in
  let bookRight := (bookLeft + BookRect.widthMm rect)%Q in
  let bookBottom := (bookTop + BookRect.heightMm rect)%Q in
  let artCenterPageX := (TABLOID_WIDTH_MM / 2 + artDeltaX)%Q in
  let artCenterPageY := (TABLOID_HEIGHT_MM / 2 + artDeltaY)%Q in
  let artDrawX := (artCenterPageX - artDrawW / 2)%Q in
  let artDrawY := (artCenterPageY - artDrawH / 2)%Q in
  let clipLeft := Qmax bookLeft 0 in
  let clipTop := Qmax (bookTop - 2)%Q 0 in
  let clipRight := Qmin bookRight TABLOID_WIDTH_MM in
  let clipBottom := Qmin bookBottom TABLOID_HEIGHT_MM in
  let clipWidth := Qmax (clipRight - clipLeft)%Q 0 in
  let clipHeight := Qmax (clipBottom - clipTop)%Q 0 in
  let largeTextDeltaX := (largeTextCenterXStack - bookCenterXStack)%Q in
  let largeTextDeltaY := (largeTextCenterYStack - bookCenterYStack)%Q in
  mkGeometry bookLeft bookTop bookRight bookBottom
             artDrawX artDrawY artDrawW artDrawH
             clipLeft clipTop clipRight clipBottom clipWidth clipHeight
             (Qlt_bool 0 clipWidth && Qlt_bool 0 clipHeight
              && Qlt_bool 0 artDrawW && Qlt_bool 0 artDrawH)
             (TABLOID_WIDTH_MM / 2 + largeTextDeltaX)%Q
             (TABLOID_HEIGHT_MM / 2 + largeTextDeltaY)%Q.

(** [lineOffset] of the loop that draws the lines of the large text, for
    [lines.length = lineCount]. *)
Definition lineOffset (lineHeightPx : Q) (lineCount index : nat) : Q :=
  let totalBlockHeightPx := (lineHeightPx * inject_Z (Z.of_nat lineCount))%Q in
  (inject_Z (Z.of_nat index) * lineHeightPx - (totalBlockHeightPx - lineHeightPx) / 2)%Q.

(** ** Artwork loading and the styles of the on-screen preview *)

(** [image.onload] of the artwork effect: the artwork size in millimetres
    from the natural size of the image in pixels. *)
Definition artworkDimensionsOnLoad (naturalWidth naturalHeight : nat)
  : ArtworkDimensionsMm.t :=
  let width := js_or (inject_Z (Z.of_nat naturalWidth))
                     (requiredWidthMm (metrics DEFAULT_LAYOUT) * PREVIEW_SCALE)%Q in
  let height := js_or (inject_Z (Z.of_nat naturalHeight))
                      (requiredHeightMm (metrics DEFAULT_LAYOUT) * PREVIEW_SCALE)%Q in
  ArtworkDimensionsMm.mk (width / PREVIEW_SCALE)%Q (height / PREVIEW_SCALE)%Q.

(** The pixel lengths of a style object of the preview. *)
Module BoxPx.
Record t := mk {
  left : Q;
  top : Q;
  width : Q;
  height : Q
}.
End BoxPx.

(** [artImageStyle]: width and height, before the zoom transform. *)
Definition artImageStyle (artworkDimensionsMm : ArtworkDimensionsMm.t) : Q * Q :=
  ((ArtworkDimensionsMm.widthMm artworkDimensionsMm * PREVIEW_SCALE)%Q,
   (ArtworkDimensionsMm.heightMm artworkDimensionsMm * PREVIEW_SCALE)%Q).

(** The memo [largeTextWrapperStyle]. *)
Definition largeTextWrapperStyle (layout : StackLayout) : BoxPx.t :=
  let availableWidthPx := (totalWidthMm (metrics layout) * PREVIEW_SCALE)%Q in
  let topOffsetMm :=
    (CLEARANCE_TOP_MM
     + (maxHeightMm (metrics layout) - minHeightMm (metrics layout)) / 2)%Q in
  let topPx := (topOffsetMm * PREVIEW_SCALE)%Q in
  BoxPx.mk (CLEARANCE_SIDE_MM * PREVIEW_SCALE)%Q topPx availableWidthPx
           (minHeightMm (metrics layout) * PREVIEW_SCALE)%Q.

(** [previewToPdfScale] and [fontSizePx] of [renderPdfPreview]. *)
Definition previewToPdfScale : Q := (PDF_RENDER_SCALE / PREVIEW_SCALE)%Q.

Definition fontSizePx (largeTextSizePx : Q) : Q :=
  (largeTextSizePx * previewToPdfScale)%Q.

(** ** Definitions used to state the properties *)



(** The rectangles of a row of books whose first left edge is [x]: what
    the [forEach] of [computeStackLayout] pushes. *)
Fixpoint rects_from (maxHeight x : Q) (l : list BookFormState) : list BookRect.t :=
  match l with
  | [] => []
  | book :: t =>
      let w := cmToMm (spineWidthCm book) in
      let h := cmToMm (heightCm book) in
      BookRect.mk (id book) (label book) w h x
                  (CLEARANCE_TOP_MM + (maxHeight - h))%Q (color book)
      :: rects_from maxHeight (x + w + GAP_MM)%Q t
  end.

(** The right edge of a rectangle. *)
Definition rightMm (r : BookRect.t) : Q := (BookRect.xMm r + BookRect.widthMm r)%Q.

(** The local [minZoomRaw] of [computeArtworkBounds]. *)
Definition minZoomRaw (m : StackMetrics) (a : ArtworkDimensionsMm.t) : JsNumber :=
  let b := computeArtworkBounds m a in
  js_max (js_div (safeWidthMm b)
                 (js_or (ArtworkDimensionsMm.widthMm a)
                        (js_or (requiredWidthMm m) (safeWidthMm b))))
         (js_div (safeHeightMm b)
                 (js_or (ArtworkDimensionsMm.heightMm a)
                        (js_or (requiredHeightMm m) (safeHeightMm b)))).

(** The bytes written so far: what [new Blob(chunks)] would hold. *)
Definition blobOf (w : PdfWriter) : list byte := List.concat (chunks w).

(** The bytes [t] stand in [blob] from byte position [pos] on. *)
Definition starts_at (blob : list byte) (pos : nat) (t : list byte) : Prop :=
  exists pre post, blob = pre ++ t ++ post /\ List.length pre = pos.

(** The number a string of decimal digits denotes, leading zeros allowed. *)
Definition decimal_value (s : string) : option nat :=
  option_map Nat.of_uint (NilEmpty.uint_of_string s).

(** The bytes [o] of an object begin with the header of object [N]. *)
Definition begins_object (N : nat) (o : list byte) : Prop :=
  exists rest, o = encode (objectHeader N) ++ rest.

(** The writer after it wrote the bytes [pre] and then the objects [objs],
    numbered from 1 in order: the running offset is the number of bytes
    written, the offset array has an entry for 0 and for each object, and
    the entry of an object is the number of bytes written before it. *)
Definition writer_ok (pre : list byte) (objs : list (list byte)) (w : PdfWriter) : Prop :=
  currentOffset w = List.length (blobOf w)
  /\ blobOf w = pre ++ List.concat objs
  /\ List.length (offsets w) = S (List.length objs)
  /\ forall i o, nth_error objs i = Some o ->
       begins_object (S i) o
       /\ array_get_or0 (offsets w) (S i)
          = List.length (pre ++ List.concat (firstn i objs)).

(** [k] objects were begun, after the bytes [pre]. *)
Definition objects_written (pre : list byte) (k : nat) (w : PdfWriter) : Prop :=
  exists objs, List.length objs = k /\ writer_ok pre objs w.

(** The three objects [pages.forEach] writes for the page at [index], each
    as the bytes from its header to its [endobj] line. *)
Definition pageObjects (mediaBox : string) (pageWidthMm pageHeightMm : Q)
           (page : PdfPageImage) (index : nat) : list (list byte) :=
  let pageObjectNumber := (basePageObject + index * 3)%nat in
  let imageObjectNumber := (pageObjectNumber + 1)%nat in
  let contentObjectNumber := (pageObjectNumber + 2)%nat in
  let contentStream :=
    ("q" ++ LF ++ toFixed2 (mmToPoints pageWidthMm) ++ " 0 0 "
         ++ toFixed2 (mmToPoints pageHeightMm) ++ " 0 0 cm" ++ LF
         ++ "/Im0 Do" ++ LF ++ "Q" ++ LF)%string in
  [ encode (objectHeader pageObjectNumber)
    ++ encode ("<< /Type /Page /Parent 2 0 R /MediaBox " ++ mediaBox
               ++ " /Resources << /XObject << /Im0 "
               ++ nat_to_string imageObjectNumber
               ++ " 0 R >> /ProcSet [/PDF /ImageC] >> /Contents "
               ++ nat_to_string contentObjectNumber
               ++ " 0 R >>" ++ LF ++ "endobj" ++ LF)%string;
    encode (objectHeader imageObjectNumber)
    ++ encode ("<< /Type /XObject /Subtype /Image /Width "
               ++ nat_to_string (widthPx page) ++ " /Height "
               ++ nat_to_string (heightPx page)
               ++ " /ColorSpace /DeviceRGB /BitsPerComponent 8 /Filter /DCTDecode /Length "
               ++ nat_to_string (List.length (jpegBytes page))
               ++ " >>" ++ LF ++ "stream" ++ LF)%string
    ++ jpegBytes page
    ++ encode (LF ++ "endstream" ++ LF ++ "endobj" ++ LF)%string;
    encode (objectHeader contentObjectNumber)
    ++ encode ("<< /Length " ++ nat_to_string (String.length contentStream) ++ " >>"
               ++ LF ++ "stream" ++ LF ++ contentStream ++ "endstream" ++ LF
               ++ "endobj" ++ LF)%string ]%list.

(** The objects of the pages from [index] on. *)
Fixpoint pagesObjects (mediaBox : string) (pageWidthMm pageHeightMm : Q)
         (pages : list PdfPageImage) (index : nat) : list (list byte) :=
  match pages with
  | [] => []
  | page :: rest =>
      (pageObjects mediaBox pageWidthMm pageHeightMm page index
       ++ pagesObjects mediaBox pageWidthMm pageHeightMm rest (S index))%list
  end.

(** All objects of the document in the order of their numbers: the
    catalog, the page tree, then three objects per page. *)
Definition documentObjects (pages : list PdfPageImage) (pageWidthMm pageHeightMm : Q)
  : list (list byte) :=
  let mediaBox := ("[0 0 " ++ toFixed2 (mmToPoints pageWidthMm) ++ " "
                           ++ toFixed2 (mmToPoints pageHeightMm) ++ "]")%string in
  let kids := join " " (map (fun index =>
                               (nat_to_string (basePageObject + index * 3) ++ " 0 R")%string)
                            (seq 0 (List.length pages))) in
  ([ encode (objectHeader 1)
     ++ encode ("<< /Type /Catalog /Pages 2 0 R >>" ++ LF ++ "endobj" ++ LF)%string;
     encode (objectHeader 2)
     ++ encode ("<< /Type /Pages /Kids [" ++ kids ++ "] /Count "
                ++ nat_to_string (List.length pages) ++ " >>" ++ LF ++ "endobj" ++ LF)%string ]
   ++ pagesObjects mediaBox pageWidthMm pageHeightMm pages 0)%list.

(** Words joined by single spaces: the shape of a wrapped line. *)
Fixpoint joinSpace (ws : list text) : text :=
  match ws with
  | [] => []
  | w :: rest =>
      match rest with
      | [] => w
      | _ :: _ => w ++ " "%char :: joinSpace rest
      end
  end.

(** The words of a paragraph, as [wrapTextIntoLines] takes them: none for a
    blank paragraph, else the pieces of the trimmed paragraph between runs
    of white space. *)
Definition wordsOf (paragraph : text) : list text :=
  if Nat.eqb (List.length (trim paragraph)) 0 then []
  else splitSpaces (trim paragraph).


Definition startsNonSpace (s : text) : bool :=
  match s with
  | [] => false
  | c :: _ => negb (is_space c)
  end.

Definition endsNonSpace (s : text) : bool := startsNonSpace (rev s).

(** A word as the wrap loop sees it: not empty, no white space at either
    end. *)
Definition word_ok (w : text) : Prop :=
  startsNonSpace w = true /\ endsNonSpace w = true.



(** A book of the form layer: both dimensions positive. *)
Definition positive_dimensions (book : BookFormState) : Prop :=
  (0 < heightCm book /\ 0 < spineWidthCm book)%Q.

(** Consecutive groups of words are split only where the next word did not
    fit: each group, extended by the first word of the next group, measures
    more than the maximum. *)
Fixpoint breaks_forced (measureText : text -> Q) (maxWidth : Q)
         (gs : list (list text)) : Prop :=
  match gs with
  | g :: (g2 :: _) as rest =>
      (maxWidth < measureText (joinSpace (g ++ [hd [] g2])))%Q
      /\ breaks_forced measureText maxWidth rest
  | _ => True
  end.

(** Where a rectangle lies and how large it is. *)
Definition geometryOf (r : BookRect.t) : Q * Q * Q * Q :=
  (BookRect.xMm r, BookRect.yMm r, BookRect.widthMm r, BookRect.heightMm r).

(** A book whose dimensions are not negative. *)
Definition nonnegative_dimensions (book : BookFormState) : Prop :=
  (0 <= heightCm book /\ 0 <= spineWidthCm book)%Q.

(** * Properties *)

Local Open Scope Q_scope.

(** ** Stack layout engine *)

Lemma inject_nat_succ (n : nat) :
  inject_Z (Z.of_nat (S n)) == inject_Z (Z.of_nat n) + 1.
Proof.
  rewrite Nat2Z.inj_succ. unfold Z.succ. rewrite inject_Z_plus. reflexivity.
Qed.

Lemma reduce_addWidth_later (l : list Q) :
  forall (index : nat) (acc : Q), (0 < index)%nat ->
    reduce_from addWidth l index acc
    == acc + Qsum l + inject_Z (Z.of_nat (List.length l)) * GAP_MM.
Proof.
  induction l as [|w t IH]; intros index acc Hpos.
  - cbn [reduce_from Qsum fold_right List.length Z.of_nat].
    change (inject_Z 0) with 0. unfold GAP_MM. lra.
  - cbn [reduce_from Qsum fold_right List.length].
    rewrite IH by lia. rewrite inject_nat_succ.
    unfold addWidth. destruct index as [|k]; [lia|].
    cbn [Nat.eqb]. fold (Qsum t). unfold GAP_MM. lra.
Qed.

Lemma max_fold_le (l : list Q) : forall x y, x <= y -> x <= fold_left Qmax l y.
Proof.
  induction l as [|z t IH]; intros x y Hxy; simpl; [assumption|].
  apply IH. apply Qle_trans with y; [assumption | apply Q.le_max_l].
Qed.

Lemma Math_max_upper (x : Q) (xs : list Q) :
  forall y, In y (x :: xs) -> y <= Math_max x xs.
Proof.
  unfold Math_max. revert x.
  induction xs as [|z t IH]; intros x y Hin.
  - destruct Hin as [<-|[]]. simpl. apply Qle_refl.
  - simpl. destruct Hin as [<-|[<-|Hin]].
    + apply max_fold_le, Q.le_max_l.
    + apply max_fold_le, Q.le_max_r.
    + apply IH. right. assumption.
Qed.

Lemma Math_max_attained (x : Q) (xs : list Q) :
  exists y, In y (x :: xs) /\ Math_max x xs == y.
Proof.
  unfold Math_max. revert x.
  induction xs as [|z t IH]; intros x.
  - exists x. split; [left; reflexivity | reflexivity].
  - simpl. destruct (IH (Qmax x z)) as [y [Hin Hy]].
    destruct Hin as [Heq|Hin].
    + destruct (Q.max_dec x z) as [Hm|Hm].
      * exists x. split; [left; reflexivity|]. rewrite Hy, <- Heq. exact Hm.
      * exists z. split; [right; left; reflexivity|]. rewrite Hy, <- Heq. exact Hm.
    + exists y. split; [right; right; assumption | assumption].
Qed.

Lemma placeBook_later (maxHeight : Q) (l : list BookFormState) :
  forall (index : nat) (rs : list BookRect.t) (cursorMm : Q), (0 < index)%nat ->
    fst (reduce_from (placeBook maxHeight) l index (rs, cursorMm))
    = (rs ++ rects_from maxHeight (cursorMm + GAP_MM) l)%list.
Proof.
  induction l as [|b t IH]; intros index rs cursorMm Hpos.
  - simpl. rewrite List.app_nil_r. reflexivity.
  - cbn [reduce_from]. unfold placeBook at 2.
    destruct index as [|k]; [lia|]. cbn [Nat.ltb Nat.leb].
    rewrite IH by lia. rewrite <- List.app_assoc. reflexivity.
Qed.

Lemma placeBook_all (maxHeight : Q) (l : list BookFormState) :
  fst (reduce (placeBook maxHeight) l ([], CLEARANCE_SIDE_MM))
  = rects_from maxHeight CLEARANCE_SIDE_MM l.
Proof.
  unfold reduce. destruct l as [|b t]; [reflexivity|].
  cbn [reduce_from]. unfold placeBook at 2. cbn [Nat.ltb Nat.leb].
  rewrite placeBook_later by lia. reflexivity.
Qed.

Lemma rects_of_layout (l : list BookFormState) :
  rects (computeStackLayout l)
  = rects_from (maxHeightMm (metrics (computeStackLayout l))) CLEARANCE_SIDE_MM l.
Proof.
  unfold computeStackLayout.
  set (mh := match map (fun book => cmToMm (heightCm book)) l with
             | [] => 0 | h :: t => Math_max h t end).
  pose proof (placeBook_all mh l) as Hrs.
  destruct (reduce (placeBook mh) l ([], CLEARANCE_SIDE_MM)) as [rs c].
  cbn [rects metrics maxHeightMm]. exact Hrs.
Qed.

Lemma metrics_of_layout (l : list BookFormState) :
  let heightsMm := map (fun book => cmToMm (heightCm book)) l in
  let widthsMm := map (fun book => cmToMm (spineWidthCm book)) l in
  let maxHeight := match heightsMm with [] => 0 | h :: t => Math_max h t end in
  let minHeight := match heightsMm with [] => 0 | h :: t => Math_min h t end in
  let totalWidth := reduce addWidth widthsMm 0 in
  metrics (computeStackLayout l)
  = mkMetrics totalWidth maxHeight minHeight
              (totalWidth + CLEARANCE_SIDE_MM * 2)
              (maxHeight + CLEARANCE_TOP_MM + CLEARANCE_BOTTOM_MM)
              (totalWidth / CM_TO_MM)
              (Qle_bool (totalWidth + CLEARANCE_SIDE_MM * 2) TABLOID_WIDTH_MM
               && Qle_bool (maxHeight + CLEARANCE_TOP_MM + CLEARANCE_BOTTOM_MM)
                           TABLOID_HEIGHT_MM).
Proof.
  cbv zeta. unfold computeStackLayout.
  destruct (reduce _ l ([], CLEARANCE_SIDE_MM)) as [rs c]. reflexivity.
Qed.

(** C2, as stated, fails: with no books the required width and height are
    the bare clearances, not zero. *)
Lemma empty_layout_required_not_zero :
  let m := metrics (computeStackLayout []) in
  ~ requiredWidthMm m == 0 /\ ~ requiredHeightMm m == 0.
Proof.
  cbv zeta. split; intro H; vm_compute in H; discriminate H.
Qed.

(** C2 (amended): for the empty book sequence [computeStackLayout] returns
    no rectangle, [totalWidthMm], [maxHeightMm] and [minHeightMm] are zero,
    and [requiredWidthMm] and [requiredHeightMm] are the clearances alone:
    twice the side clearance (20 mm) and top plus bottom clearance (4 mm). *)
Theorem computeStackLayout_empty :
  let m := metrics (computeStackLayout []) in
  totalWidthMm m == 0 /\ maxHeightMm m == 0 /\ minHeightMm m == 0 /\
  requiredWidthMm m == CLEARANCE_SIDE_MM * 2 /\ requiredWidthMm m == 20 /\
  requiredHeightMm m == CLEARANCE_TOP_MM + CLEARANCE_BOTTOM_MM /\
  requiredHeightMm m == 4 /\
  rects (computeStackLayout []) = [].
Proof.
  cbv zeta. repeat split; reflexivity.
Qed.

(** C4, as stated, fails: the four spines sum to 152.5 mm, so the total is
    158.5 mm and not 161 mm, and the side clearance is 10 mm, so the
    required width is 178.5 mm and not 201 mm.  (With the 20 mm side
    clearance of the other revision of the page it would be 198.5 mm.) *)
Lemma default_books_not_161_201 :
  let m := metrics (computeStackLayout DEFAULT_BOOKS) in
  ~ totalWidthMm m == 161 /\ ~ requiredWidthMm m == 201
  /\ ~ totalWidthMm m + 2 * 20 == 201.
Proof.
  cbv zeta. repeat split; intro H; vm_compute in H; discriminate H.
Qed.

(** C4 (amended): for four books of height 23.5 cm with spine widths 4.25,
    4, 4.75 and 2.25 cm, whatever their ids, labels and colours,
    [totalWidthMm] is 158.5 (152.5 mm of spines and three gaps of 2 mm),
    [requiredWidthMm] is 178.5 (a side clearance of 10 mm on each side),
    [requiredHeightMm] is 239, and the layout fits the 431.8 mm by 279.4 mm
    sheet. *)
Theorem computeStackLayout_four_books
        (i1 i2 i3 i4 : Z) (l1 l2 l3 l4 c1 c2 c3 c4 : string) :
  let m := metrics (computeStackLayout
                      [ mkBook i1 l1 23.5 4.25 c1; mkBook i2 l2 23.5 4 c2;
                        mkBook i3 l3 23.5 4.75 c3; mkBook i4 l4 23.5 2.25 c4 ]) in
  totalWidthMm m == 158.5 /\
  requiredWidthMm m == 178.5 /\
  requiredWidthMm m == totalWidthMm m + 2 * CLEARANCE_SIDE_MM /\
  requiredHeightMm m == 239 /\
  fitsOnTabloid m = true /\
  TABLOID_WIDTH_MM == 431.8 /\ TABLOID_HEIGHT_MM == 279.4.
Proof.
  cbv zeta. rewrite metrics_of_layout. cbv zeta.
  repeat split; reflexivity.
Qed.


(** C5: for a non-empty book sequence of length n, [totalWidthMm] is the sum
    of the spine widths in millimetres plus (n - 1) gaps of 2 mm; a single
    book gets no gap. *)
Theorem totalWidthMm_sum_and_gaps (l : list BookFormState) (Hne : l <> []) :
  let m := metrics (computeStackLayout l) in
  totalWidthMm m
  == Qsum (map (fun book => cmToMm (spineWidthCm book)) l)
     + (inject_Z (Z.of_nat (List.length l)) - 1) * 2
  /\ GAP_MM == 2
  /\ (forall book, l = [book] -> totalWidthMm m == cmToMm (spineWidthCm book)).
Proof.
  cbv zeta. rewrite metrics_of_layout. cbv zeta. cbn [totalWidthMm].
  destruct l as [|b t]; [contradiction Hne; reflexivity|].
  assert (Htot : reduce addWidth (map (fun book => cmToMm (spineWidthCm book)) (b :: t)) 0
                 == Qsum (map (fun book => cmToMm (spineWidthCm book)) (b :: t))
                    + (inject_Z (Z.of_nat (List.length (b :: t))) - 1) * 2).
  { unfold reduce. cbn [map reduce_from].
    rewrite reduce_addWidth_later by lia.
    cbn [Qsum fold_right List.length]. rewrite inject_nat_succ, length_map.
    fold (Qsum (map (fun book => cmToMm (spineWidthCm book)) t)).
    unfold addWidth, GAP_MM. cbn [Nat.eqb]. lra. }
  split; [exact Htot|]. split; [reflexivity|].
  intros book Heq. injection Heq as -> ->. rewrite Htot.
  cbn [map Qsum fold_right List.length]. change (inject_Z (Z.of_nat 1)) with 1. lra.
Qed.

Lemma totalWidthMm_sum_and_gaps_witness :
  DEFAULT_BOOKS <> [] /\
  totalWidthMm (metrics (computeStackLayout DEFAULT_BOOKS))
  == Qsum (map (fun book => cmToMm (spineWidthCm book)) DEFAULT_BOOKS)
     + (inject_Z (Z.of_nat (List.length DEFAULT_BOOKS)) - 1) * 2.
Proof.
  assert (Hne : DEFAULT_BOOKS <> []) by discriminate.
  split; [exact Hne | exact (proj1 (totalWidthMm_sum_and_gaps DEFAULT_BOOKS Hne))].
Defined.


Lemma rects_from_length (maxHeight : Q) (l : list BookFormState) :
  forall x, List.length (rects_from maxHeight x l) = List.length l.
Proof.
  induction l as [|b t IH]; intros x; simpl; [reflexivity | now rewrite IH].
Qed.

Lemma rects_from_nth (maxHeight : Q) (l : list BookFormState) :
  forall x i book, nth_error l i = Some book ->
    exists r, nth_error (rects_from maxHeight x l) i = Some r
      /\ BookRect.id r = id book /\ BookRect.label r = label book
      /\ BookRect.color r = color book
      /\ BookRect.widthMm r = cmToMm (spineWidthCm book)
      /\ BookRect.heightMm r = cmToMm (heightCm book)
      /\ BookRect.yMm r = CLEARANCE_TOP_MM + (maxHeight - BookRect.heightMm r).
Proof.
  induction l as [|b t IH]; intros x i book Hnth.
  - destruct i; discriminate Hnth.
  - destruct i as [|i].
    + injection Hnth as ->. eexists. split; [reflexivity|].
      cbn. repeat split; reflexivity.
    + cbn [rects_from nth_error]. apply IH. exact Hnth.
Qed.

Lemma rects_from_next (maxHeight : Q) (l : list BookFormState) :
  forall x i r r',
    nth_error (rects_from maxHeight x l) i = Some r ->
    nth_error (rects_from maxHeight x l) (S i) = Some r' ->
    BookRect.xMm r' = rightMm r + GAP_MM.
Proof.
  induction l as [|b t IH]; intros x i r r' Hr Hr'.
  - destruct i; discriminate Hr.
  - destruct i as [|i].
    + cbn in Hr. injection Hr as <-.
      destruct t as [|b' t']; [discriminate Hr'|].
      cbn in Hr'. injection Hr' as <-. reflexivity.
    + cbn [rects_from nth_error] in Hr, Hr'. exact (IH _ _ _ _ Hr Hr').
Qed.

Lemma rects_from_left_bound (maxHeight : Q) (l : list BookFormState) :
  Forall positive_dimensions l ->
  forall x i r, nth_error (rects_from maxHeight x l) i = Some r -> x <= BookRect.xMm r.
Proof.
  induction 1 as [|b t [_ Hw] _ IH]; intros x i r Hr.
  - destruct i; discriminate Hr.
  - destruct i as [|i].
    + cbn in Hr. injection Hr as <-. cbn. apply Qle_refl.
    + cbn [rects_from nth_error] in Hr. apply IH in Hr.
      unfold cmToMm, CM_TO_MM, GAP_MM in Hr. lra.
Qed.

Lemma rects_from_disjoint (maxHeight : Q) (l : list BookFormState) :
  Forall positive_dimensions l ->
  forall x i j r r', (i < j)%nat ->
    nth_error (rects_from maxHeight x l) i = Some r ->
    nth_error (rects_from maxHeight x l) j = Some r' ->
    rightMm r < BookRect.xMm r'.
Proof.
  induction 1 as [|b t Hb Ht IH]; intros x i j r r' Hij Hr Hr'.
  - destruct i; discriminate Hr.
  - destruct j as [|j]; [lia|]. cbn [rects_from nth_error] in Hr'.
    destruct i as [|i].
    + cbn in Hr. injection Hr as <-.
      apply (rects_from_left_bound maxHeight t Ht) in Hr'.
      unfold rightMm. cbn [BookRect.xMm BookRect.widthMm].
      unfold GAP_MM in Hr'. lra.
    + cbn [rects_from nth_error] in Hr. eapply (IH _ i j r r'); [lia | exact Hr | exact Hr'].
Qed.

(** C6: for a non-empty book sequence with positive dimensions the
    rectangles follow the input order, one per book, carrying its id, label
    and colour, the converted spine width and height, and the top offset
    top clearance + (tallest height - own height); the first left edge is
    the side clearance; between the right edge of a rectangle and the left
    edge of the next there are exactly 2 mm; and no rectangle reaches the
    left edge of a later one.  [maxHeightMm] is the height of a tallest
    book. *)
Theorem rects_placed_left_to_right (l : list BookFormState)
        (Hne : l <> []) (Hpos : Forall positive_dimensions l) :
  let layout := computeStackLayout l in
  let tallest := maxHeightMm (metrics layout) in
  List.length (rects layout) = List.length l
  /\ (forall i book, nth_error l i = Some book ->
        exists r, nth_error (rects layout) i = Some r
          /\ BookRect.id r = id book /\ BookRect.label r = label book
          /\ BookRect.color r = color book
          /\ BookRect.widthMm r == cmToMm (spineWidthCm book)
          /\ BookRect.heightMm r == cmToMm (heightCm book)
          /\ BookRect.yMm r == CLEARANCE_TOP_MM + (tallest - BookRect.heightMm r))
  /\ (exists r, nth_error (rects layout) 0 = Some r
                /\ BookRect.xMm r == CLEARANCE_SIDE_MM)
  /\ (forall i r r', nth_error (rects layout) i = Some r ->
        nth_error (rects layout) (S i) = Some r' ->
        BookRect.xMm r' - rightMm r == 2)
  /\ (forall i j r r', (i < j)%nat ->
        nth_error (rects layout) i = Some r ->
        nth_error (rects layout) j = Some r' ->
        rightMm r < BookRect.xMm r')
  /\ (forall book, In book l -> cmToMm (heightCm book) <= tallest)
  /\ (exists book, In book l /\ tallest == cmToMm (heightCm book)).
Proof.
  cbv zeta. rewrite rects_of_layout.
  set (tallest := maxHeightMm (metrics (computeStackLayout l))).
  split; [apply rects_from_length|].
  split.
  { intros i book Hnth.
    destruct (rects_from_nth tallest l CLEARANCE_SIDE_MM i book Hnth)
      as (r & Hr & Hid & Hlab & Hcol & Hw & Hh & Hy).
    exists r. rewrite Hy, Hw, Hh. repeat split; try assumption; reflexivity. }
  split.
  { destruct l as [|b t]; [contradiction Hne; reflexivity|].
    eexists. split; [reflexivity|]. reflexivity. }
  split.
  { intros i r r' Hr Hr'.
    rewrite (rects_from_next _ _ _ _ _ _ Hr Hr'). unfold GAP_MM. lra. }
  split; [apply rects_from_disjoint; exact Hpos|].
  subst tallest. rewrite metrics_of_layout. cbv zeta. cbn [maxHeightMm].
  destruct l as [|b t]; [contradiction Hne; reflexivity|].
  cbn [map]. split.
  - intros book Hin.
    apply (Math_max_upper (cmToMm (heightCm b))
                          (map (fun book => cmToMm (heightCm book)) t)).
    change (In (cmToMm (heightCm book))
               (map (fun book => cmToMm (heightCm book)) (b :: t))).
    apply (in_map (fun book => cmToMm (heightCm book))). exact Hin.
  - destruct (Math_max_attained (cmToMm (heightCm b))
                                (map (fun book => cmToMm (heightCm book)) t))
      as (y & Hin & Hy).
    change (In y (map (fun book => cmToMm (heightCm book)) (b :: t))) in Hin.
    apply in_map_iff in Hin. destruct Hin as (book & <- & Hin).
    exists book. split; assumption.
Qed.

Lemma rects_placed_left_to_right_witness :
  DEFAULT_BOOKS <> [] /\ Forall positive_dimensions DEFAULT_BOOKS /\
  List.length (rects (computeStackLayout DEFAULT_BOOKS)) = List.length DEFAULT_BOOKS.
Proof.
  assert (Hne : DEFAULT_BOOKS <> []) by discriminate.
  assert (Hpos : Forall positive_dimensions DEFAULT_BOOKS).
  { repeat constructor. }
  split; [exact Hne|]. split; [exact Hpos|].
  exact (proj1 (rects_placed_left_to_right DEFAULT_BOOKS Hne Hpos)).
Defined.

(** ** Artwork bounds solver *)

Lemma Qlt_bool_iff (x y : Q) : Qlt_bool x y = true <-> x < y.
Proof.
  unfold Qlt_bool. rewrite negb_true_iff. split.
  - intros Hb. apply Qnot_le_lt. intros Hle.
    apply Qle_bool_iff in Hle. congruence.
  - intros Hlt. destruct (Qle_bool y x) eqn:Hb; [|reflexivity].
    apply Qle_bool_iff in Hb. exfalso. exact (Qlt_not_le _ _ Hlt Hb).
Qed.

Lemma js_or_spec (x y : Q) :
  (x == 0 /\ js_or x y = y) \/ (~ x == 0 /\ js_or x y = x).
Proof.
  unfold js_or. destruct (Qeq_bool x 0) eqn:Hb.
  - left. split; [apply Qeq_bool_iff; exact Hb | reflexivity].
  - right. split; [|reflexivity]. intros Heq.
    apply Qeq_bool_iff in Heq. congruence.
Qed.

Lemma js_div_nonzero (x y : Q) : ~ y == 0 -> js_div x y = Finite (x / y).
Proof.
  intros Hy. unfold js_div. destruct (Qeq_bool y 0) eqn:Hb; [|reflexivity].
  apply Qeq_bool_iff in Hb. contradiction.
Qed.


Lemma js_max_NaN_l (b : JsNumber) : js_max NaN b = NaN.
Proof. reflexivity. Qed.



Lemma minZoom_of_raw (m : StackMetrics) (a : ArtworkDimensionsMm.t) :
  minZoom (computeArtworkBounds m a)
  = match minZoomRaw m a with
    | Finite q => if Qlt_bool 0 q then q else 1
    | _ => 1
    end.
Proof. reflexivity. Qed.


(** With non-zero divisors and a positive maximum, [minZoom] is the larger
    quotient. *)
Lemma minZoom_quotient (m : StackMetrics) (a : ArtworkDimensionsMm.t) :
  let b := computeArtworkBounds m a in
  let bw := js_or (ArtworkDimensionsMm.widthMm a)
                  (js_or (requiredWidthMm m) (safeWidthMm b)) in
  let bh := js_or (ArtworkDimensionsMm.heightMm a)
                  (js_or (requiredHeightMm m) (safeHeightMm b)) in
  ~ bw == 0 -> ~ bh == 0 ->
  0 < Qmax (safeWidthMm b / bw) (safeHeightMm b / bh) ->
  minZoom b = Qmax (safeWidthMm b / bw) (safeHeightMm b / bh).
Proof.
  cbv zeta. intros Hbw Hbh Hq. rewrite minZoom_of_raw.
  unfold minZoomRaw. cbn [computeArtworkBounds safeWidthMm safeHeightMm] in *.
  rewrite (js_div_nonzero _ _ Hbw), (js_div_nonzero _ _ Hbh). cbn [js_max].
  apply Qlt_bool_iff in Hq. rewrite Hq. reflexivity.
Qed.



(** C3, as stated, fails: for the default books (safe area 178.5 mm by
    239 mm) and an artwork of 357 mm by 239 mm, [minZoom] is 1 and at that
    zoom the horizontal offset may range over 89.25 mm either way. *)
Lemma offset_free_on_one_axis_at_minZoom :
  let m := metrics (computeStackLayout DEFAULT_BOOKS) in
  let a := ArtworkDimensionsMm.mk 357 239 in
  let b := computeArtworkBounds m a in
  let lim := computeOffsetLimits b a (minZoom b) in
  minZoom b == 1 /\ minX lim == - 89.25 /\ maxX lim == 89.25
  /\ ~ (minX lim == 0 /\ maxX lim == 0 /\ minY lim == 0 /\ maxY lim == 0).
Proof.
  cbv zeta. split; [reflexivity|]. split; [reflexivity|]. split; [reflexivity|].
  intros (_ & H & _). vm_compute in H. discriminate H.
Qed.

Lemma Qhalf (u : Q) : u / 2 == u * (1 # 2).
Proof. field. Qed.

Lemma Qmax_0_r_cases (u : Q) :
  (u <= 0 /\ Qmax u 0 == 0) \/ (0 < u /\ Qmax u 0 == u).
Proof.
  destruct (Q.max_spec u 0) as [[Hlt Hm]|[Hle Hm]].
  - left. split; [apply Qlt_le_weak; exact Hlt | exact Hm].
  - destruct (Qlt_le_dec 0 u) as [Hpos|Hneg].
    + right. split; assumption.
    + left. split; [exact Hneg|]. rewrite Hm. lra.
Qed.

(** C3 (amended): for an artwork of positive natural size and metrics of
    non-negative total width and tallest height, the offset range at
    [zoom = minZoom] is symmetric about 0 on both axes and collapses to {0}
    on the axis whose quotient is the larger one; on the other axis the
    slack is half of what the scaled artwork exceeds the safe area by.
    Both ranges are {0} exactly when the two quotients are equal, that is
    when the artwork has the aspect ratio of the safe area; in particular
    when the natural size of the artwork is the safe area, where [minZoom]
    is 1. *)
Theorem offset_limits_at_minZoom (m : StackMetrics) (a : ArtworkDimensionsMm.t)
        (Hw : 0 < ArtworkDimensionsMm.widthMm a)
        (Hh : 0 < ArtworkDimensionsMm.heightMm a)
        (Htotal : 0 <= totalWidthMm m) (Htall : 0 <= maxHeightMm m) :
  let b := computeArtworkBounds m a in
  let lim := computeOffsetLimits b a (minZoom b) in
  let aw := ArtworkDimensionsMm.widthMm a in
  let ah := ArtworkDimensionsMm.heightMm a in
  let sw := safeWidthMm b in
  let sh := safeHeightMm b in
  minZoom b == Qmax (sw / aw) (sh / ah)
  /\ minX lim == - maxX lim /\ minY lim == - maxY lim
  /\ 0 <= maxX lim /\ 0 <= maxY lim
  /\ (maxX lim == 0 \/ maxY lim == 0)
  /\ (sh / ah <= sw / aw ->
        maxX lim == 0 /\ maxY lim == (ah * minZoom b - sh) / 2)
  /\ (sw / aw <= sh / ah ->
        maxY lim == 0 /\ maxX lim == (aw * minZoom b - sw) / 2)
  /\ (maxX lim == 0 /\ maxY lim == 0 <-> sw / aw == sh / ah)
  /\ (aw == sw /\ ah == sh ->
        minZoom b == 1 /\ maxX lim == 0 /\ maxY lim == 0).
Proof.
  cbv zeta.
  set (b := computeArtworkBounds m a).
  set (aw := ArtworkDimensionsMm.widthMm a) in *.
  set (ah := ArtworkDimensionsMm.heightMm a) in *.
  set (sw := safeWidthMm b). set (sh := safeHeightMm b).
  assert (Hsw : 0 < sw).
  { subst sw b. cbn. unfold ART_SAFE_MARGIN_SIDE_MM. lra. }
  assert (Hsh : 0 < sh).
  { subst sh b. cbn. unfold ART_SAFE_MARGIN_VERTICAL_MM. lra. }
  assert (Haw : ~ aw == 0) by lra. assert (Hah : ~ ah == 0) by lra.
  set (q1 := sw / aw). set (q2 := sh / ah).
  assert (E1 : aw * q1 == sw) by (subst q1; field; exact Haw).
  assert (E2 : ah * q2 == sh) by (subst q2; field; exact Hah).
  assert (Hq1 : 0 < q1).
  { subst q1. apply Qlt_shift_div_l; [exact Hw | lra]. }
  assert (Hz : minZoom b = Qmax q1 q2).
  { pose proof (minZoom_quotient m a) as Hmq. cbv zeta in Hmq.
    fold b in Hmq. fold sw sh in Hmq.
    destruct (js_or_spec aw (js_or (requiredWidthMm m) sw)) as [[H0 _]|[_ Ew]];
      [contradiction|].
    destruct (js_or_spec ah (js_or (requiredHeightMm m) sh)) as [[H0 _]|[_ Eh]];
      [contradiction|].
    fold aw ah in Hmq. rewrite Ew, Eh in Hmq. apply Hmq; try assumption.
    apply Qlt_le_trans with q1; [exact Hq1 | apply Q.le_max_l]. }
  assert (Hlim : computeOffsetLimits b a (minZoom b)
                 = mkLimits (- Qmax ((aw * minZoom b - sw) / 2) 0)
                            (Qmax ((aw * minZoom b - sw) / 2) 0)
                            (- Qmax ((ah * minZoom b - sh) / 2) 0)
                            (Qmax ((ah * minZoom b - sh) / 2) 0)).
  { unfold computeOffsetLimits. fold aw ah sw sh.
    destruct (js_or_spec aw sw) as [[H0 _]|[_ ->]]; [contradiction|].
    destruct (js_or_spec ah sh) as [[H0 _]|[_ ->]]; [contradiction|].
    reflexivity. }
  rewrite Hlim. cbn [minX maxX minY maxY].
  set (z := minZoom b) in *.
  assert (Hzq : z == Qmax q1 q2) by (rewrite Hz; reflexivity).
  assert (Hzw : aw * q1 <= aw * z).
  { apply Qmult_le_l; [exact Hw|]. rewrite Hzq. apply Q.le_max_l. }
  assert (Hzh : ah * q2 <= ah * z).
  { apply Qmult_le_l; [exact Hh|]. rewrite Hzq. apply Q.le_max_r. }
  assert (Hone : aw * z == sw \/ ah * z == sh).
  { destruct (Q.max_spec q1 q2) as [[_ Hm]|[_ Hm]].
    - right. rewrite Hzq, Hm. exact E2.
    - left. rewrite Hzq, Hm. exact E1. }
  assert (Hwide : q2 <= q1 -> aw * z == sw).
  { intros Hle. rewrite Hzq, (Q.max_l q1 q2 Hle). exact E1. }
  assert (Htall' : q1 <= q2 -> ah * z == sh).
  { intros Hle. rewrite Hzq, (Q.max_r q1 q2 Hle). exact E2. }
  assert (Hcross1 : aw * z == sw -> ah * z == sh -> q1 == q2).
  { intros Ha Hb.
    assert (Hzq1 : z == q1).
    { apply (Qmult_inj_l _ _ aw Haw). rewrite Ha, E1. reflexivity. }
    assert (Hzq2 : z == q2).
    { apply (Qmult_inj_l _ _ ah Hah). rewrite Hb, E2. reflexivity. }
    rewrite <- Hzq1, <- Hzq2. reflexivity. }
  clear Hlim Hz. clearbody z q1 q2 sw sh aw ah.
  pose proof (Qhalf (aw * z - sw)) as Hhalfw.
  pose proof (Qhalf (ah * z - sh)) as Hhalfh.
  destruct (Qmax_0_r_cases ((aw * z - sw) / 2)) as [[Hu Hmu]|[Hu Hmu]];
  destruct (Qmax_0_r_cases ((ah * z - sh) / 2)) as [[Hv Hmv]|[Hv Hmv]];
    rewrite ?Hmu, ?Hmv.
  all: split; [exact Hzq|].
  all: split; [lra|]. all: split; [lra|]. all: split; [lra|]. all: split; [lra|].
  all: split; [first [left; lra | right; lra | exfalso; destruct Hone; lra]|].
  all: split; [intros Hle; specialize (Hwide Hle); split; lra|].
  all: split; [intros Hle; specialize (Htall' Hle); split; lra|].
  all: split.
  all: try (split; [intros [Hx Hy]; apply Hcross1; lra|]).
  all: try (intros Heq; assert (Hle1 : q2 <= q1) by (rewrite Heq; apply Qle_refl);
            assert (Hle2 : q1 <= q2) by (rewrite Heq; apply Qle_refl);
            specialize (Hwide Hle1); specialize (Htall' Hle2); split; lra).
  all: intros [Eaw Eah].
  all: assert (Hq1one : q1 == 1)
    by (apply (Qmult_inj_l _ _ aw Haw); rewrite E1, Qmult_1_r; symmetry; exact Eaw).
  all: assert (Hq2one : q2 == 1)
    by (apply (Qmult_inj_l _ _ ah Hah); rewrite E2, Qmult_1_r; symmetry; exact Eah).
  all: assert (Hzone : z == 1) by (rewrite Hzq, Hq1one, Hq2one; reflexivity).
  all: assert (Hle1 : q2 <= q1) by (rewrite Hq1one, Hq2one; apply Qle_refl).
  all: assert (Hle2 : q1 <= q2) by (rewrite Hq1one, Hq2one; apply Qle_refl).
  all: specialize (Hwide Hle1); specialize (Htall' Hle2).
  all: split; [exact Hzone|]; split; lra.
Qed.

Lemma offset_limits_at_minZoom_witness :
  let m := metrics (computeStackLayout DEFAULT_BOOKS) in
  let a := ArtworkDimensionsMm.mk 178.5 239 in
  let b := computeArtworkBounds m a in
  let lim := computeOffsetLimits b a (minZoom b) in
  (0 < ArtworkDimensionsMm.widthMm a /\ 0 < ArtworkDimensionsMm.heightMm a
   /\ 0 <= totalWidthMm m /\ 0 <= maxHeightMm m)
  /\ (maxX lim == 0 /\ maxY lim == 0 <-> safeWidthMm b / 178.5 == safeHeightMm b / 239).
Proof.
  cbv zeta.
  assert (Hw : 0 < ArtworkDimensionsMm.widthMm (ArtworkDimensionsMm.mk 178.5 239))
    by reflexivity.
  assert (Hh : 0 < ArtworkDimensionsMm.heightMm (ArtworkDimensionsMm.mk 178.5 239))
    by reflexivity.
  assert (Ht : 0 <= totalWidthMm (metrics (computeStackLayout DEFAULT_BOOKS)))
    by (apply Qle_bool_iff; reflexivity).
  assert (Hm : 0 <= maxHeightMm (metrics (computeStackLayout DEFAULT_BOOKS)))
    by (apply Qle_bool_iff; reflexivity).
  split; [repeat split; assumption|].
  exact (proj1 (proj2 (proj2 (proj2 (proj2 (proj2 (proj2 (proj2 (proj2
    (offset_limits_at_minZoom _ _ Hw Hh Ht Hm)))))))))).
Defined.

(** ** Document builder *)

Lemma encode_app (s t : string) : encode (s ++ t)%string = encode s ++ encode t.
Proof.
  unfold encode, list_byte_of_string.
  induction s as [|c s IH]; [reflexivity|].
  simpl. rewrite IH. reflexivity.
Qed.

Lemma starts_at_app (blob more t : list byte) (pos : nat) :
  starts_at blob pos t -> starts_at (blob ++ more) pos t.
Proof.
  intros (pre & post & -> & Hlen). exists pre, (post ++ more).
  split; [|exact Hlen]. rewrite <- !List.app_assoc. reflexivity.
Qed.

Lemma starts_at_end (blob t more : list byte) :
  starts_at (blob ++ t ++ more) (List.length blob) t.
Proof. exists blob, more. split; reflexivity. Qed.

Lemma blobOf_write (v : WriteValue) (w : PdfWriter) :
  blobOf (write v w)
  = blobOf w ++ match v with Text s => encode s | Binary b => b end.
Proof.
  unfold blobOf, write. cbn [chunks]. rewrite concat_app. cbn [List.concat].
  rewrite List.app_nil_r. reflexivity.
Qed.

Lemma array_set_end (a : JsArray) (v : nat) :
  array_set a (List.length a) v = a ++ [Some v].
Proof.
  unfold array_set. rewrite Nat.ltb_irrefl, Nat.sub_diag. reflexivity.
Qed.

Lemma array_get_app_old (a : JsArray) (x : option nat) (i : nat) :
  (i < List.length a)%nat -> array_get_or0 (a ++ [x]) i = array_get_or0 a i.
Proof.
  intros Hi. unfold array_get_or0. rewrite nth_error_app1 by exact Hi. reflexivity.
Qed.

Lemma array_get_app_new (a : JsArray) (v : nat) :
  array_get_or0 (a ++ [Some v]) (List.length a) = v.
Proof.
  unfold array_get_or0. rewrite nth_error_app2 by lia.
  rewrite Nat.sub_diag. reflexivity.
Qed.

Lemma firstn_app_short {A : Type} (i : nat) (l l' : list A) :
  (i <= List.length l)%nat -> firstn i (l ++ l') = firstn i l.
Proof.
  intros Hi. rewrite firstn_app.
  replace (i - List.length l)%nat with 0%nat by lia.
  cbn [firstn]. apply List.app_nil_r.
Qed.

(** Before the first object, a write extends the preamble. *)
Lemma write_preamble (v : WriteValue) (pre : list byte) (w : PdfWriter) :
  writer_ok pre [] w ->
  writer_ok (pre ++ match v with Text s => encode s | Binary b => b end) [] (write v w).
Proof.
  intros (Hoff & Hblob & Hlen & _). unfold writer_ok.
  rewrite blobOf_write, Hblob. cbn [write currentOffset offsets List.concat].
  rewrite !List.app_nil_r.
  split; [rewrite Hoff, Hblob, !length_app; cbn; lia|].
  split; [reflexivity|]. split; [exact Hlen|].
  intros i o Hi. destruct i; discriminate Hi.
Qed.

(** After that, a write extends the last object and moves no offset. *)
Lemma write_object (v : WriteValue) (pre : list byte) (init : list (list byte))
      (o : list byte) (w : PdfWriter) :
  writer_ok pre (init ++ [o]) w ->
  writer_ok pre (init ++ [o ++ match v with Text s => encode s | Binary b => b end])
            (write v w).
Proof.
  intros (Hoff & Hblob & Hlen & Hobj). unfold writer_ok.
  rewrite blobOf_write. cbn [write currentOffset offsets].
  split; [rewrite length_app, Hoff; reflexivity|].
  split.
  { rewrite Hblob, !concat_app. cbn [List.concat].
    rewrite !List.app_nil_r, <- !List.app_assoc. reflexivity. }
  split; [rewrite Hlen, !length_app; reflexivity|].
  intros i o' Hi.
  destruct (Nat.lt_trichotomy i (List.length init)) as [Hlt|[->|Hgt]].
  - rewrite nth_error_app1 in Hi by exact Hlt.
    destruct (Hobj i o') as [Hhead Hpos].
    { rewrite nth_error_app1 by exact Hlt. exact Hi. }
    split; [exact Hhead|]. rewrite Hpos.
    rewrite !firstn_app_short by lia. reflexivity.
  - rewrite nth_error_app2, Nat.sub_diag in Hi by lia. injection Hi as <-.
    destruct (Hobj (List.length init) o) as [[rest Hhead] Hpos].
    { rewrite nth_error_app2, Nat.sub_diag by lia. reflexivity. }
    split.
    + exists (rest ++ match v with Text s => encode s | Binary b => b end).
      rewrite Hhead, <- List.app_assoc. reflexivity.
    + rewrite Hpos. rewrite !firstn_app_short by lia. reflexivity.
  - rewrite nth_error_app2 in Hi by lia.
    destruct (i - List.length init)%nat as [|[|n]] eqn:Hd; try lia;
      cbn in Hi; discriminate Hi.
Qed.

(** Beginning the next object records the number of bytes written so far
    and opens the object with its header. *)
Lemma beginObject_next (pre : list byte) (objs : list (list byte)) (w : PdfWriter) :
  writer_ok pre objs w ->
  writer_ok pre (objs ++ [encode (objectHeader (S (List.length objs)))])
            (beginObject (S (List.length objs)) w).
Proof.
  intros (Hoff & Hblob & Hlen & Hobj). unfold beginObject.
  set (k := List.length objs) in *.
  set (w1 := mkWriter (chunks w) (array_set (offsets w) (S k) (currentOffset w))
                      (currentOffset w)).
  assert (Hset : offsets w1 = offsets w ++ [Some (List.length (blobOf w))]).
  { subst w1. cbn [offsets]. rewrite <- Hlen, array_set_end, Hoff. reflexivity. }
  unfold writer_ok. rewrite blobOf_write.
  change (blobOf w1) with (blobOf w).
  cbn [write currentOffset offsets]. rewrite Hset.
  split; [subst w1; cbn [currentOffset]; rewrite length_app, Hoff; reflexivity|].
  split.
  { rewrite Hblob, concat_app. cbn [List.concat].
    rewrite List.app_nil_r, <- List.app_assoc. reflexivity. }
  split; [rewrite !length_app, Hlen; cbn; lia|].
  intros i o Hi.
  destruct (Nat.lt_trichotomy i k) as [Hlt|[->|Hgt]].
  - rewrite nth_error_app1 in Hi by exact Hlt.
    destruct (Hobj i o Hi) as [Hhead Hpos].
    split; [exact Hhead|].
    rewrite array_get_app_old by lia. rewrite Hpos.
    rewrite firstn_app_short by (fold k; lia). reflexivity.
  - rewrite nth_error_app2, Nat.sub_diag in Hi by (fold k; lia). injection Hi as <-.
    split; [exists []; rewrite List.app_nil_r; reflexivity|].
    rewrite <- Hlen, array_get_app_new, Hblob.
    rewrite firstn_app_short by (fold k; lia).
    unfold k. rewrite firstn_all. reflexivity.
  - rewrite nth_error_app2 in Hi by (fold k; lia).
    destruct (i - List.length objs)%nat as [|[|n]] eqn:Hd; try (fold k in Hd; lia);
      cbn in Hi; discriminate Hi.
Qed.

Lemma write_written (v : WriteValue) (pre : list byte) (k : nat) (w : PdfWriter) :
  objects_written pre (S k) w -> objects_written pre (S k) (write v w).
Proof.
  intros (objs & Hlen & Hok).
  destruct (exists_last (l := objs)) as (init & o & ->).
  { intros ->. discriminate Hlen. }
  eexists. split; [|exact (write_object v pre init o w Hok)].
  rewrite length_app in Hlen |- *. exact Hlen.
Qed.

Lemma beginObject_written (pre : list byte) (k : nat) (w : PdfWriter) :
  objects_written pre k w -> objects_written pre (S k) (beginObject (S k) w).
Proof.
  intros (objs & <- & Hok). eexists.
  split; [|exact (beginObject_next pre objs w Hok)].
  rewrite length_app. cbn. lia.
Qed.

Lemma writePage_written (pre : list byte) (mediaBox : string) (pw ph : Q)
      (w : PdfWriter) (page : PdfPageImage) (index : nat) :
  objects_written pre (2 + 3 * index) w ->
  objects_written pre (2 + 3 * S index) (writePage mediaBox pw ph w page index).
Proof.
  intros Hw. unfold writePage, basePageObject.
  replace (3 + index * 3)%nat with (S (2 + 3 * index)) by lia.
  replace (S (2 + 3 * index) + 1)%nat with (S (S (2 + 3 * index))) by lia.
  replace (S (2 + 3 * index) + 2)%nat with (S (S (S (2 + 3 * index)))) by lia.
  replace (2 + 3 * S index)%nat with (S (S (S (2 + 3 * index)))) by lia.
  cbv zeta.
  apply write_written, beginObject_written, write_written, write_written,
        write_written, beginObject_written, write_written, beginObject_written.
  exact Hw.
Qed.

Lemma writePages_written (pre : list byte) (mediaBox : string) (pw ph : Q)
      (pages : list PdfPageImage) :
  forall (index : nat) (w : PdfWriter),
    objects_written pre (2 + 3 * index) w ->
    objects_written pre (2 + 3 * (index + List.length pages))
                    (reduce_from (writePage mediaBox pw ph) pages index w).
Proof.
  induction pages as [|page rest IH]; intros index w Hw.
  - cbn [reduce_from List.length]. rewrite Nat.add_0_r. exact Hw.
  - cbn [reduce_from List.length].
    replace (index + S (List.length rest))%nat with (S index + List.length rest)%nat by lia.
    apply IH. apply writePage_written. exact Hw.
Qed.

Lemma newWriter_ok : writer_ok [] [] newWriter.
Proof.
  unfold writer_ok. split; [reflexivity|]. split; [reflexivity|].
  split; [reflexivity|]. intros i o Hi. destruct i; discriminate Hi.
Qed.

Lemma writeObjects_written (pages : list PdfPageImage) (pw ph : Q) :
  objects_written (encode ("%PDF-1.4" ++ LF)%string) (2 + 3 * List.length pages)
                  (writeObjects pages pw ph).
Proof.
  unfold writeObjects, reduce. cbv zeta.
  apply (writePages_written _ _ pw ph pages 0).
  change (2 + 3 * 0)%nat with 2%nat.
  apply write_written, beginObject_written, write_written, beginObject_written.
  exists []. split; [reflexivity|].
  exact (write_preamble (Text ("%PDF-1.4" ++ LF)%string) [] newWriter newWriter_ok).
Qed.

(** From the segmentation to positions in the whole document. *)
Lemma object_starts_at (pre : list byte) (objs : list (list byte)) (i : nat)
      (o more : list byte) :
  nth_error objs i = Some o -> begins_object (S i) o ->
  starts_at (pre ++ List.concat objs ++ more)
            (List.length (pre ++ List.concat (firstn i objs)))
            (encode (objectHeader (S i))).
Proof.
  intros Hi [rest Hhead].
  exists (pre ++ List.concat (firstn i objs)),
         (rest ++ List.concat (skipn (S i) objs) ++ more).
  split; [|reflexivity].
  rewrite <- (firstn_skipn i objs) at 1.
  assert (Hskip : skipn i objs = o :: skipn (S i) objs).
  { clear Hhead. revert objs Hi. induction i as [|i IH]; intros objs Hi.
    - destruct objs; [discriminate Hi|]. injection Hi as ->. reflexivity.
    - destruct objs; [discriminate Hi|]. cbn [skipn]. exact (IH _ Hi). }
  rewrite Hskip, concat_app. cbn [List.concat]. rewrite Hhead.
  rewrite <- !List.app_assoc. reflexivity.
Qed.

Lemma writeXrefEntries_blob (l : list nat) :
  forall w,
    blobOf (fold_left writeXrefEntry l w)
    = blobOf w
      ++ List.concat
           (map (fun index =>
                   encode (padPdfOffset (array_get_or0 (offsets w) index)
                           ++ " 00000 n " ++ LF)%string) l)
    /\ offsets (fold_left writeXrefEntry l w) = offsets w.
Proof.
  induction l as [|i rest IH]; intros w.
  - cbn. rewrite List.app_nil_r. split; reflexivity.
  - cbn [fold_left map List.concat].
    destruct (IH (writeXrefEntry w i)) as [Hblob Hoffs].
    assert (Hb1 : blobOf (writeXrefEntry w i)
                  = blobOf w ++ encode (padPdfOffset (array_get_or0 (offsets w) i)
                                        ++ " 00000 n " ++ LF)%string)
      by (unfold writeXrefEntry; apply blobOf_write).
    assert (Ho1 : offsets (writeXrefEntry w i) = offsets w) by reflexivity.
    rewrite Hblob, Hoffs, Hb1, Ho1, <- List.app_assoc. split; reflexivity.
Qed.

(** *** Decimal offsets *)

Lemma string_of_uint_length (d : Decimal.uint) :
  String.length (NilEmpty.string_of_uint d) = Decimal.nb_digits d.
Proof. induction d; cbn; congruence. Qed.

Lemma repeat_string_length (c : ascii) (n : nat) :
  String.length (repeat_string c n) = n.
Proof. induction n as [|n IH]; cbn; congruence. Qed.

Lemma string_append_length (s t : string) :
  String.length (s ++ t)%string = (String.length s + String.length t)%nat.
Proof. induction s as [|c s IH]; cbn; congruence. Qed.

Lemma zeros_string_of_uint (k : nat) (d : Decimal.uint) :
  (repeat_string "0" k ++ NilEmpty.string_of_uint d)%string
  = NilEmpty.string_of_uint (Nat.iter k Decimal.D0 d).
Proof.
  induction k as [|k IH]; [reflexivity|].
  cbn [repeat_string Nat.iter nat_rect]. cbn [String.append NilEmpty.string_of_uint].
  f_equal. exact IH.
Qed.

Lemma of_uint_leading_zeros (k : nat) (d : Decimal.uint) :
  Nat.of_uint (Nat.iter k Decimal.D0 d) = Nat.of_uint d.
Proof.
  transitivity (Nat.of_uint (Decimal.unorm (Nat.iter k Decimal.D0 d))).
  - symmetry. apply DecimalNat.Unsigned.of_uint_norm.
  - rewrite DecimalFacts.unorm_iter_D0. apply DecimalNat.Unsigned.of_uint_norm.
Qed.

(** The padded field denotes the offset it was made from. *)
Lemma padPdfOffset_value (n : nat) : decimal_value (padPdfOffset n) = Some n.
Proof.
  unfold decimal_value, padPdfOffset, padStart0, nat_to_string.
  rewrite zeros_string_of_uint, NilEmpty.usu. cbn [option_map].
  rewrite of_uint_leading_zeros, DecimalNat.Unsigned.of_to. reflexivity.
Qed.

Lemma usize_nb_digits (d : Decimal.uint) :
  DecimalNat.Unsigned.usize d = Decimal.nb_digits d.
Proof. induction d; cbn; congruence. Qed.

Lemma of_uint_acc_lower (d : Decimal.uint) (acc : nat) :
  (acc * 10 ^ Decimal.nb_digits d <= Nat.of_uint_acc d acc)%nat.
Proof.
  pose proof (DecimalNat.Unsigned.of_uint_acc_spec acc d) as Hspec.
  pose proof (usize_nb_digits d) as Hsize.
  rewrite Hspec, Hsize. lia.
Qed.

(** A number below 10^k has at most k decimal digits. *)
Lemma nb_digits_to_uint (n k : nat) :
  (0 < k)%nat -> (n < 10 ^ k)%nat -> (Decimal.nb_digits (Nat.to_uint n) <= k)%nat.
Proof.
  intros Hk Hn.
  pose proof (DecimalNat.Unsigned.of_to n) as Hof.
  pose proof (DecimalNat.Unsigned.to_of (Nat.to_uint n)) as Hnorm.
  rewrite Hof in Hnorm.
  destruct (Nat.to_uint n) as [|d|d|d|d|d|d|d|d|d|d] eqn:Hd.
  3-11: cbn [Decimal.nb_digits].
  3-11: unfold Nat.of_uint in Hof; cbn [Nat.of_uint_acc] in Hof.
  3-11: match type of Hof with Nat.of_uint_acc ?x ?acc = _ =>
          pose proof (of_uint_acc_lower x acc) as Hlow; rewrite Hof in Hlow;
          match goal with |- (_ <= ?bound)%nat =>
            destruct (Nat.le_gt_cases (S (Decimal.nb_digits x)) bound) as [Hle|Hgt]
          end;
          [exact Hle|exfalso];
          match type of Hgt with (?bound < _)%nat =>
            assert (Hpow : (10 ^ bound <= 10 ^ Decimal.nb_digits x)%nat)
              by (apply Nat.pow_le_mono_r; lia)
          end
        end.
  3-11: cbn [Nat.tail_mul Nat.tail_addmul Nat.tail_add] in Hlow.
  3-11: nia.
  - cbn. lia.
  - (* a leading zero: the numeral is 0 itself *)
    unfold Decimal.unorm in Hnorm.
    destruct (Decimal.nzhead (Decimal.D0 d)) eqn:Hz; try discriminate Hnorm.
    + injection Hnorm as ->. cbn. lia.
    + exfalso. exact (DecimalFacts.nzhead_nonzero _ _ Hz).
Qed.

Lemma padPdfOffset_length (n : nat) :
  (n < 10 ^ 10)%nat -> String.length (padPdfOffset n) = 10%nat.
Proof.
  intros Hn. unfold padPdfOffset, padStart0.
  rewrite string_append_length, repeat_string_length.
  unfold nat_to_string. rewrite string_of_uint_length.
  pose proof (nb_digits_to_uint n 10 ltac:(lia) Hn). lia.
Qed.

(** C1: for every sequence of pages, the document is the signature line,
    then the objects 1 to 2 + 3 * pages in order, each beginning with its
    header [N 0 obj], then the cross-reference table, then the trailer.  The
    table has the sentinel free entry for index 0 and, for every object
    number N, one entry made of [padPdfOffset] of the number of bytes that
    precede object N in the document, which is where its header begins,
    counted from byte 0.  The padded field denotes that offset in decimal
    and is 10 digits wide for every offset below 10^10.  The trailer's
    [startxref] value is the number of bytes before the table, where the
    text [xref] stands. *)
Theorem xref_offsets_exact (pages : list PdfPageImage) (pageWidthMm pageHeightMm : Q) :
  let blob := buildMultiPagePdf pages pageWidthMm pageHeightMm in
  let totalObjects := (2 + 3 * List.length pages)%nat in
  let signature := encode ("%PDF-1.4" ++ LF)%string in
  exists (objects : list (list byte)) (offset : nat -> nat),
    let body := signature ++ List.concat objects in
    blob
    = body
      ++ encode ("xref" ++ LF ++ "0 " ++ nat_to_string (totalObjects + 1) ++ LF)%string
      ++ encode ("0000000000 65535 f " ++ LF)%string
      ++ List.concat
           (map (fun N => encode (padPdfOffset (offset N) ++ " 00000 n " ++ LF)%string)
                (seq 1 totalObjects))
      ++ encode ("trailer" ++ LF ++ "<< /Size " ++ nat_to_string (totalObjects + 1)
                 ++ " /Root 1 0 R >>" ++ LF ++ "startxref" ++ LF
                 ++ nat_to_string (List.length body) ++ LF ++ "%%EOF")%string
    /\ List.length objects = totalObjects
    /\ (forall N, (1 <= N <= totalObjects)%nat ->
          (exists o, nth_error objects (N - 1) = Some o /\ begins_object N o)
          /\ offset N
             = List.length (signature ++ List.concat (firstn (N - 1) objects))
          /\ starts_at blob (offset N) (encode (objectHeader N)))
    /\ (forall N, decimal_value (padPdfOffset (offset N)) = Some (offset N))
    /\ (forall N, (offset N < 10 ^ 10)%nat ->
          String.length (padPdfOffset (offset N)) = 10%nat)
    /\ starts_at blob (List.length body) (encode ("xref" ++ LF)%string).
Proof.
  cbv zeta.
  destruct (writeObjects_written pages pageWidthMm pageHeightMm)
    as (objs & Hcount & Hoff & Hbody & _ & Hobj).
  set (w0 := writeObjects pages pageWidthMm pageHeightMm) in *.
  set (signature := encode ("%PDF-1.4" ++ LF)%string) in *.
  exists objs, (array_get_or0 (offsets w0)).
  assert (Hblob :
    buildMultiPagePdf pages pageWidthMm pageHeightMm
    = (signature ++ List.concat objs)
      ++ encode ("xref" ++ LF ++ "0 "
                 ++ nat_to_string (2 + 3 * List.length pages + 1) ++ LF)%string
      ++ encode ("0000000000 65535 f " ++ LF)%string
      ++ List.concat
           (map (fun N => encode (padPdfOffset (array_get_or0 (offsets w0) N)
                                  ++ " 00000 n " ++ LF)%string)
                (seq 1 (2 + 3 * List.length pages)))
      ++ encode ("trailer" ++ LF ++ "<< /Size "
                 ++ nat_to_string (2 + 3 * List.length pages + 1)
                 ++ " /Root 1 0 R >>" ++ LF ++ "startxref" ++ LF
                 ++ nat_to_string (List.length (signature ++ List.concat objs))
                 ++ LF ++ "%%EOF")%string).
  { unfold buildMultiPagePdf. cbv zeta. fold w0.
    replace (2 + List.length pages * 3)%nat with (2 + 3 * List.length pages)%nat by lia.
    match goal with |- List.concat (chunks ?w) = _ =>
      change (List.concat (chunks w)) with (blobOf w) end.
    rewrite blobOf_write.
    match goal with |- context [fold_left writeXrefEntry ?l ?w] =>
      destruct (writeXrefEntries_blob l w) as [-> _] end.
    rewrite !blobOf_write. cbn [write offsets]. rewrite Hoff, Hbody.
    rewrite <- !List.app_assoc. reflexivity. }
  split; [exact Hblob|]. split; [exact Hcount|]. split.
  { intros N HN.
    destruct (nth_error objs (N - 1)) as [o|] eqn:Ho.
    2:{ apply nth_error_None in Ho. lia. }
    destruct (Hobj (N - 1)%nat o Ho) as [Hhead Hpos].
    replace (S (N - 1)) with N in Hhead, Hpos by lia.
    split; [exists o; split; [reflexivity | exact Hhead]|].
    split; [exact Hpos|].
    rewrite Hblob, Hpos, <- List.app_assoc.
    pose proof (object_starts_at signature objs (N - 1) o) as Hat.
    replace (S (N - 1)) with N in Hat by lia.
    apply Hat; assumption. }
  split; [intros N; apply padPdfOffset_value|].
  split; [intros N; apply padPdfOffset_length|].
  rewrite Hblob. set (body := signature ++ List.concat objs).
  rewrite !encode_app, <- !List.app_assoc.
  rewrite (List.app_assoc (encode "xref") (encode LF)).
  apply starts_at_end.
Qed.

(** A sample document: one page with a three-byte image.  The table records
    offsets 9, 58, 115, 276 and 440, and [startxref] is 527. *)
Example xref_one_page :
  let blob := buildMultiPagePdf [mkPage [x41; x42; x43]%byte 7 9] (17 * 25.4) (11 * 25.4) in
  firstn 8 (skipn 9 blob) = encode (objectHeader 1)
  /\ firstn 8 (skipn 58 blob) = encode (objectHeader 2)
  /\ firstn 8 (skipn 115 blob) = encode (objectHeader 3)
  /\ firstn 8 (skipn 276 blob) = encode (objectHeader 4)
  /\ firstn 8 (skipn 440 blob) = encode (objectHeader 5)
  /\ firstn 9 (skipn 527 blob) = encode ("xref" ++ LF ++ "0 6" ++ LF)%string
  /\ skipn 536 blob
     = encode ("0000000000 65535 f " ++ LF ++ "0000000009 00000 n " ++ LF
               ++ "0000000058 00000 n " ++ LF ++ "0000000115 00000 n " ++ LF
               ++ "0000000276 00000 n " ++ LF ++ "0000000440 00000 n " ++ LF
               ++ "trailer" ++ LF ++ "<< /Size 6 /Root 1 0 R >>" ++ LF
               ++ "startxref" ++ LF ++ "527" ++ LF ++ "%%EOF")%string.
Proof. cbv zeta. repeat split; vm_compute; reflexivity. Qed.

(** ** Book list operations *)









(** ** Text wrapping *)

Lemma trimStart_suffix (s : text) : exists pre, s = pre ++ trimStart s.
Proof.
  induction s as [|c t [pre IH]]; [exists []; reflexivity|].
  cbn [trimStart]. destruct (is_space c).
  - exists (c :: pre). cbn. f_equal. exact IH.
  - exists []. reflexivity.
Qed.

Lemma trimStart_starts (s : text) :
  trimStart s <> [] -> startsNonSpace (trimStart s) = true.
Proof.
  induction s as [|c t IH]; cbn [trimStart]; [congruence|].
  destruct (is_space c) eqn:Hc; [exact IH|].
  intros _. cbn. rewrite Hc. reflexivity.
Qed.

Lemma trimStart_id (s : text) : startsNonSpace s = true -> trimStart s = s.
Proof.
  destruct s as [|c t]; cbn; [discriminate|].
  destruct (is_space c); [discriminate | reflexivity].
Qed.

Lemma startsNonSpace_app (a b : text) :
  a <> [] -> startsNonSpace (a ++ b) = startsNonSpace a.
Proof. destruct a; [congruence | reflexivity]. Qed.

Lemma endsNonSpace_app (a b : text) :
  b <> [] -> endsNonSpace (a ++ b) = endsNonSpace b.
Proof.
  intros Hb. unfold endsNonSpace. rewrite rev_app_distr.
  apply startsNonSpace_app. intros Hr. apply Hb.
  rewrite <- (rev_involutive b), Hr. reflexivity.
Qed.

Lemma startsNonSpace_nonempty (s : text) : startsNonSpace s = true -> s <> [].
Proof. destruct s; [discriminate | discriminate]. Qed.

Lemma endsNonSpace_nonempty (s : text) : endsNonSpace s = true -> s <> [].
Proof.
  unfold endsNonSpace. intros H Hs. subst s. discriminate H.
Qed.

Lemma trim_id (s : text) :
  startsNonSpace s = true -> endsNonSpace s = true -> trim s = s.
Proof.
  intros Hs He. unfold trim, trimEnd. rewrite (trimStart_id s Hs).
  rewrite (trimStart_id (rev s) He). apply rev_involutive.
Qed.

Lemma trim_word_ok (s : text) : trim s <> [] -> word_ok (trim s).
Proof.
  unfold trim, trimEnd. set (u := trimStart s). set (v := trimStart (rev u)).
  intros Hne.
  assert (Hv : v <> []) by (intros Hv; apply Hne; rewrite Hv; reflexivity).
  split.
  - destruct (trimStart_suffix (rev u)) as [pre Hpre]. fold v in Hpre.
    assert (Hu : u = rev v ++ rev pre).
    { rewrite <- (rev_involutive u), Hpre, rev_app_distr. reflexivity. }
    assert (Hrv : rev v <> []).
    { intros Hr. apply Hv. rewrite <- (rev_involutive v), Hr. reflexivity. }
    assert (Hstart : startsNonSpace u = true).
    { apply trimStart_starts. fold u. rewrite Hu. intros Happ.
      apply app_eq_nil in Happ. exact (Hrv (proj1 Happ)). }
    clearbody v u. subst u.
    rewrite (startsNonSpace_app (rev v) (rev pre) Hrv) in Hstart. exact Hstart.
  - unfold endsNonSpace. rewrite rev_involutive. apply trimStart_starts. exact Hv.
Qed.

Lemma splitSpaces_not_nil (s : text) : splitSpaces s <> [].
Proof.
  induction s as [|c t IH]; cbn [splitSpaces]; [discriminate|].
  destruct (is_space c).
  - destruct t as [|c' t']; [discriminate|].
    destruct (is_space c'); [exact IH | discriminate].
  - destruct (splitSpaces t); discriminate.
Qed.

Lemma splitSpaces_no_space (s : text) :
  Forall (fun w => forallb (fun c => negb (is_space c)) w = true) (splitSpaces s).
Proof.
  induction s as [|c t IH]; cbn [splitSpaces]; [repeat constructor|].
  destruct (is_space c) eqn:Hc.
  - destruct t as [|c' t']; [repeat constructor|].
    destruct (is_space c'); [exact IH | constructor; [reflexivity | exact IH]].
  - destruct (splitSpaces t) as [|p rest]; cbn [cons_first].
    + repeat constructor. cbn. rewrite Hc. reflexivity.
    + inversion IH as [|x xs Hp Hrest Heq]; subst.
      constructor; [|exact Hrest]. cbn. rewrite Hc, Hp. reflexivity.
Qed.

Lemma endsNonSpace_cons (c : ascii) (t : text) :
  t <> [] -> endsNonSpace (c :: t) = endsNonSpace t.
Proof. intros Ht. exact (endsNonSpace_app [c] t Ht). Qed.

(** In a text that ends with a word, only the first piece of the split can
    be empty, and it is when the text begins with white space. *)
Lemma splitSpaces_pieces_nonempty (s : text) :
  endsNonSpace s = true ->
  Forall (fun w => w <> []) (tl (splitSpaces s))
  /\ (startsNonSpace s = true -> hd [] (splitSpaces s) <> []).
Proof.
  induction s as [|c t IH]; intros Hend; [discriminate Hend|].
  cbn [splitSpaces]. destruct (is_space c) eqn:Hc.
  - destruct t as [|c' t'].
    + unfold endsNonSpace in Hend. cbn in Hend. rewrite Hc in Hend. discriminate Hend.
    + rewrite endsNonSpace_cons in Hend by discriminate.
      destruct (IH Hend) as [Htl Hhd].
      split; [|cbn; rewrite Hc; discriminate].
      destruct (is_space c') eqn:Hc'; [exact Htl|].
      cbn [tl].
      pose proof (splitSpaces_not_nil (c' :: t')) as Hnn.
      destruct (splitSpaces (c' :: t')) as [|p rest]; [congruence|].
      constructor; [|exact Htl].
      apply Hhd. cbn. rewrite Hc'. reflexivity.
  - destruct t as [|c' t'].
    + cbn. split; [constructor | discriminate].
    + rewrite endsNonSpace_cons in Hend by discriminate.
      destruct (IH Hend) as [Htl _].
      destruct (splitSpaces (c' :: t')) as [|p rest]; cbn [cons_first tl hd].
      * split; [constructor | discriminate].
      * split; [exact Htl | discriminate].
Qed.

Lemma no_space_word_ok (w : text) :
  w <> [] -> forallb (fun c => negb (is_space c)) w = true -> word_ok w.
Proof.
  intros Hne Hall. rewrite forallb_forall in Hall. split.
  - destruct w as [|c t]; [congruence|]. cbn. apply Hall. left. reflexivity.
  - unfold endsNonSpace. destruct (rev w) as [|c t] eqn:Hr.
    + exfalso. apply Hne. rewrite <- (rev_involutive w), Hr. reflexivity.
    + cbn. apply Hall. apply in_rev. rewrite Hr. left. reflexivity.
Qed.

(** The pieces of a trimmed, non-empty text are words. *)
Lemma splitSpaces_words (s : text) : word_ok s -> Forall word_ok (splitSpaces s).
Proof.
  intros [Hs He].
  destruct (splitSpaces_pieces_nonempty s He) as [Htl Hhd].
  specialize (Hhd Hs).
  pose proof (splitSpaces_no_space s) as Hns.
  destruct (splitSpaces s) as [|p rest]; [constructor|].
  cbn [tl hd] in Htl, Hhd.
  inversion Hns as [|x xs Hp Hrest Heq]; subst.
  constructor; [exact (no_space_word_ok p Hhd Hp)|].
  clear Hp Hhd Hns.
  induction rest as [|q rest IH]; [constructor|].
  inversion Htl; inversion Hrest; subst.
  constructor; [apply no_space_word_ok; assumption | apply IH; assumption].
Qed.

Lemma joinSpace_snoc (g : list text) (w : text) :
  g <> [] -> joinSpace (g ++ [w]) = joinSpace g ++ " "%char :: w.
Proof.
  induction g as [|x rest IH]; [congruence|]. intros _.
  destruct rest as [|y rest']; [reflexivity|].
  change (joinSpace ((x :: y :: rest') ++ [w]))
    with (x ++ " "%char :: joinSpace ((y :: rest') ++ [w])).
  rewrite IH by discriminate.
  change (joinSpace (x :: y :: rest')) with (x ++ " "%char :: joinSpace (y :: rest')).
  rewrite <- List.app_assoc. reflexivity.
Qed.

Lemma joinSpace_word_ok (g : list text) :
  g <> [] -> Forall word_ok g -> word_ok (joinSpace g).
Proof.
  induction g as [|x rest IH]; [congruence|]. intros _ Hall.
  inversion Hall as [|a b [Hxs Hxe] Hrest Heq]; subst.
  destruct rest as [|y rest']; [split; assumption|].
  destruct (IH ltac:(discriminate) Hrest) as [_ Hje].
  change (joinSpace (x :: y :: rest')) with (x ++ " "%char :: joinSpace (y :: rest')).
  split.
  - rewrite startsNonSpace_app; [exact Hxs | exact (startsNonSpace_nonempty x Hxs)].
  - rewrite endsNonSpace_app by discriminate.
    rewrite endsNonSpace_cons; [exact Hje | exact (endsNonSpace_nonempty _ Hje)].
Qed.

Section WrapProperties.

Variable measureText : text -> Q.
Variable maxWidth : Q.





End WrapProperties.

Lemma Forall2_in_r {A B : Type} (R : A -> B -> Prop) (l : list A) (l' : list B) :
  Forall2 R l l' -> forall y, In y l' -> exists x, In x l /\ R x y.
Proof.
  induction 1 as [|x y l l' Hxy _ IH]; intros z Hz; [destruct Hz|].
  destruct Hz as [<-|Hz].
  - exists x. split; [left; reflexivity | exact Hxy].
  - destruct (IH z Hz) as (x' & Hin & HR). exists x'. split; [right; exact Hin | exact HR].
Qed.















(** * Further properties of the designer page *)

(** Case analysis on every [Qmax] and [Qmin] of the goal, innermost first;
    each becomes a variable with its defining cases as a hypothesis, and
    halves become products, so that [lra] applies. *)
Ltac no_minmax t :=
  lazymatch t with
  | context [Qmax _ _] => fail
  | context [Qmin _ _] => fail
  | _ => idtac
  end.

Ltac minmax_atoms :=
  repeat match goal with
  | |- context [Qmax ?a ?b] =>
      no_minmax a; no_minmax b;
      pose proof (Q.max_spec a b);
      let m := fresh "m" in set (m := Qmax a b) in *; clearbody m
  | |- context [Qmin ?a ?b] =>
      no_minmax a; no_minmax b;
      pose proof (Q.min_spec a b);
      let m := fresh "m" in set (m := Qmin a b) in *; clearbody m
  end.

Ltac halves := unfold Qdiv in *; change (/ 2) with (1 # 2) in *.

(** ** Geometry primitives *)

(** X1: [clamp] saturates.  With [min <= max] the result lies in
    [min, max], is the value itself when that is in range, and is the
    nearer bound otherwise; with [max < min] the result is [max].  Clamping
    twice is clamping once. *)
Theorem clamp_saturates (value min max : Q) :
  (min <= max -> min <= clamp value min max <= max)
  /\ (min <= value <= max -> clamp value min max == value)
  /\ (min <= max -> value <= min -> clamp value min max == min)
  /\ (max <= value -> clamp value min max == max)
  /\ (max < min -> clamp value min max == max)
  /\ clamp (clamp value min max) min max == clamp value min max.
Proof.
  unfold clamp. repeat split; intros; minmax_atoms; lra.
Qed.

Lemma clamp_in_range (value min max : Q) :
  min <= max -> min <= clamp value min max <= max.
Proof. intros. unfold clamp. minmax_atoms. lra. Qed.

Lemma clamp_fixed (value min max : Q) :
  min <= value <= max -> clamp value min max == value.
Proof. intros. unfold clamp. minmax_atoms. lra. Qed.

(** ** Large text size *)

Lemma maxLargeTextSizePx_lower (layout : StackLayout) :
  24 <= maxLargeTextSizePx layout.
Proof.
  unfold maxLargeTextSizePx. cbv zeta.
  destruct (Qlt_bool 0 (minHeightMm (metrics layout) * PREVIEW_SCALE));
    [apply Q.le_max_l | apply Qle_bool_iff; reflexivity].
Qed.

(** X2: the largest text size is never below the smallest one, 24 px: it is
    80% of the height of the shortest book in preview pixels when that
    exceeds 24, and 72 when no book has a positive height.  So the size the
    effect leaves always lies between 24 and the largest size, and a size in
    that range is left as it is. *)
Theorem text_size_within_bounds (layout : StackLayout) (current : Q) :
  24 <= maxLargeTextSizePx layout
  /\ 24 <= reclampTextSize layout current <= maxLargeTextSizePx layout
  /\ (24 <= current <= maxLargeTextSizePx layout ->
      reclampTextSize layout current == current)
  /\ (0 < minHeightMm (metrics layout) ->
      maxLargeTextSizePx layout
      == Qmax 24 (0.8 * (PREVIEW_SCALE * minHeightMm (metrics layout))))
  /\ (minHeightMm (metrics layout) <= 0 -> maxLargeTextSizePx layout == 72).
Proof.
  pose proof (maxLargeTextSizePx_lower layout) as Hlow.
  split; [exact Hlow|].
  split; [apply clamp_in_range; exact Hlow|].
  split; [apply clamp_fixed|].
  unfold maxLargeTextSizePx, PREVIEW_SCALE. cbv zeta. split.
  - intros Hpos.
    destruct (Qlt_bool 0 (minHeightMm (metrics layout) * 2)) eqn:Hb.
    + minmax_atoms. lra.
    + exfalso. assert (Hlt : 0 < minHeightMm (metrics layout) * 2) by lra.
      apply Qlt_bool_iff in Hlt. congruence.
  - intros Hneg.
    destruct (Qlt_bool 0 (minHeightMm (metrics layout) * 2)) eqn:Hb; [|reflexivity].
    apply Qlt_bool_iff in Hb. lra.
Qed.

(** X3: the lines of the large text are centred as a block: the offsets of
    line [i] and of line [n - 1 - i] from the centre of the text area are
    opposite, consecutive lines are one line height apart, and a single
    line sits on the centre. *)
Theorem line_offsets_centred (lineHeightPx : Q) (lineCount index : nat) :
  ((index < lineCount)%nat ->
   lineOffset lineHeightPx lineCount index
   + lineOffset lineHeightPx lineCount (lineCount - 1 - index) == 0)
  /\ lineOffset lineHeightPx lineCount (S index)
     - lineOffset lineHeightPx lineCount index == lineHeightPx
  /\ lineOffset lineHeightPx 1 0 == 0.
Proof.
  unfold lineOffset. cbv zeta. split; [|split].
  - intros Hlt.
    replace (Z.of_nat (lineCount - 1 - index))
      with (Z.of_nat lineCount - 1 - Z.of_nat index)%Z by lia.
    unfold Zminus. rewrite !inject_Z_plus, !inject_Z_opp.
    change (inject_Z 1) with 1. halves.
    set (n := inject_Z (Z.of_nat lineCount)). set (i := inject_Z (Z.of_nat index)).
    ring.
  - rewrite inject_nat_succ. halves. ring.
  - change (inject_Z (Z.of_nat 1)) with 1. change (inject_Z (Z.of_nat 0)) with 0.
    halves. ring.
Qed.

(** ** Zoom and offset effects *)

Lemma Qeq_bool_refl_true (q : Q) : Qeq_bool q q = true.
Proof. apply Qeq_bool_iff. reflexivity. Qed.


Lemma offset_limits_shape (bounds : ArtworkBounds) (dims : ArtworkDimensionsMm.t)
      (zoom : Q) :
  let lim := computeOffsetLimits bounds dims zoom in
  minX lim == - maxX lim /\ minY lim == - maxY lim
  /\ 0 <= maxX lim /\ 0 <= maxY lim.
Proof.
  cbv zeta. unfold computeOffsetLimits. cbn [minX maxX minY maxY].
  repeat split; try reflexivity; apply Q.le_max_r.
Qed.

(** X5: the offset never leaves the legal range.  For the limits of any
    bounds, artwork size and zoom, the effect returns an offset within the
    limits on both axes; it is the centre (0, 0) unless the offset was set
    by hand; an offset set by hand that is within the limits is kept; the
    slider handlers store a value within the limits and leave the other
    axis alone. *)
Theorem offset_never_leaves_limits (bounds : ArtworkBounds)
        (dims : ArtworkDimensionsMm.t) (zoom : Q) (hasManualOffset : bool)
        (current : ArtOffset.t) (value : Q) :
  let lim := computeOffsetLimits bounds dims zoom in
  let next := reclampOffset lim hasManualOffset current in
  (minX lim <= ArtOffset.x next <= maxX lim
   /\ minY lim <= ArtOffset.y next <= maxY lim)
  /\ (hasManualOffset = false -> ArtOffset.x next == 0 /\ ArtOffset.y next == 0)
  /\ (hasManualOffset = true ->
      minX lim <= ArtOffset.x current <= maxX lim ->
      minY lim <= ArtOffset.y current <= maxY lim ->
      ArtOffset.x next == ArtOffset.x current
      /\ ArtOffset.y next == ArtOffset.y current)
  /\ (minX lim <= ArtOffset.x (handleOffsetXInput lim value current) <= maxX lim
      /\ ArtOffset.y (handleOffsetXInput lim value current) = ArtOffset.y current)
  /\ (minY lim <= ArtOffset.y (handleOffsetYInput lim value current) <= maxY lim
      /\ ArtOffset.x (handleOffsetYInput lim value current) = ArtOffset.x current).
Proof.
  cbv zeta.
  destruct (offset_limits_shape bounds dims zoom) as (Hx & Hy & Hx0 & Hy0).
  set (lim := computeOffsetLimits bounds dims zoom) in *.
  assert (Hxr : minX lim <= maxX lim) by lra.
  assert (Hyr : minY lim <= maxY lim) by lra.
  assert (Hcx : clamp 0 (minX lim) (maxX lim) == 0) by (apply clamp_fixed; lra).
  assert (Hcy : clamp 0 (minY lim) (maxY lim) == 0) by (apply clamp_fixed; lra).
  pose proof (clamp_in_range (ArtOffset.x current) _ _ Hxr) as Hix.
  pose proof (clamp_in_range (ArtOffset.y current) _ _ Hyr) as Hiy.
  unfold reclampOffset. cbv zeta. cbn [ArtOffset.x ArtOffset.y].
  split; [|split; [|split; [|split]]].
  - destruct hasManualOffset; cbn [ArtOffset.x ArtOffset.y]; [split; assumption|].
    destruct (Qeq_bool _ _ && Qeq_bool _ _); cbn [ArtOffset.x ArtOffset.y];
      [split; assumption | lra].
  - intros ->.
    destruct (Qeq_bool (clamp (ArtOffset.x current) (minX lim) (maxX lim))
                       (clamp 0 (minX lim) (maxX lim))
              && Qeq_bool (clamp (ArtOffset.y current) (minY lim) (maxY lim))
                          (clamp 0 (minY lim) (maxY lim))) eqn:Hsame;
      cbn [ArtOffset.x ArtOffset.y]; [|split; assumption].
    apply andb_true_iff in Hsame. destruct Hsame as [Ex Ey].
    apply Qeq_bool_iff in Ex. apply Qeq_bool_iff in Ey.
    split; [rewrite Ex; exact Hcx | rewrite Ey; exact Hcy].
  - intros -> Hinx Hiny. cbn [ArtOffset.x ArtOffset.y].
    split; apply clamp_fixed; assumption.
  - cbn. split; [apply clamp_in_range; exact Hxr | reflexivity].
  - cbn. split; [apply clamp_in_range; exact Hyr | reflexivity].
Qed.

(** ** Rectangles within the clearances *)

Lemma min_fold_le (l : list Q) : forall x y, y <= x -> fold_left Qmin l y <= x.
Proof.
  induction l as [|z t IH]; intros x y Hxy; simpl; [assumption|].
  apply IH. apply Qle_trans with y; [apply Q.le_min_l | assumption].
Qed.

Lemma Math_min_lower (x : Q) (xs : list Q) :
  forall y, In y (x :: xs) -> Math_min x xs <= y.
Proof.
  unfold Math_min. revert x.
  induction xs as [|z t IH]; intros x y Hin.
  - destruct Hin as [<-|[]]. simpl. apply Qle_refl.
  - simpl. destruct Hin as [<-|[<-|Hin]].
    + apply min_fold_le, Q.le_min_l.
    + apply min_fold_le, Q.le_min_r.
    + apply IH. right. assumption.
Qed.

Lemma Qsum_widths_nonneg (l : list BookFormState) :
  Forall nonnegative_dimensions l ->
  0 <= Qsum (map (fun book => cmToMm (spineWidthCm book)) l).
Proof.
  induction 1 as [|b t [_ Hw] _ IH]; cbn [map Qsum fold_right]; [lra|].
  fold (Qsum (map (fun book => cmToMm (spineWidthCm book)) t)).
  set (s := Qsum (map (fun book => cmToMm (spineWidthCm book)) t)) in *.
  unfold cmToMm, CM_TO_MM. lra.
Qed.

Lemma length_nonneg {A : Type} (l : list A) : 0 <= inject_Z (Z.of_nat (List.length l)).
Proof.
  change 0 with (inject_Z 0). rewrite <- Zle_Qle. lia.
Qed.

Lemma totalWidth_closed_form (b : BookFormState) (t : list BookFormState) :
  reduce addWidth (map (fun book => cmToMm (spineWidthCm book)) (b :: t)) 0
  == cmToMm (spineWidthCm b)
     + Qsum (map (fun book => cmToMm (spineWidthCm book)) t)
     + inject_Z (Z.of_nat (List.length t)) * GAP_MM.
Proof.
  unfold reduce. cbn [map reduce_from].
  rewrite reduce_addWidth_later by lia. rewrite length_map.
  unfold addWidth. cbn [Nat.eqb]. lra.
Qed.

Lemma rects_from_span (maxHeight : Q) (l : list BookFormState) :
  Forall nonnegative_dimensions l ->
  forall x r, In r (rects_from maxHeight x l) ->
    x <= BookRect.xMm r
    /\ rightMm r + GAP_MM
       <= x + Qsum (map (fun book => cmToMm (spineWidthCm book)) l)
          + inject_Z (Z.of_nat (List.length l)) * GAP_MM.
Proof.
  induction 1 as [|b t Hb Ht IH]; intros x r Hin; [destruct Hin|].
  pose proof (Qsum_widths_nonneg t Ht) as Hsum.
  pose proof (length_nonneg t) as Hlen.
  destruct Hb as [_ Hw].
  cbn [rects_from] in Hin. cbn [map Qsum fold_right List.length].
  fold (Qsum (map (fun book => cmToMm (spineWidthCm book)) t)).
  rewrite inject_nat_succ.
  set (s := Qsum (map (fun book => cmToMm (spineWidthCm book)) t)) in *.
  set (n := inject_Z (Z.of_nat (List.length t))) in *.
  destruct Hin as [<-|Hin].
  - unfold rightMm. cbn [BookRect.xMm BookRect.widthMm].
    unfold GAP_MM, cmToMm, CM_TO_MM in *. split; lra.
  - apply IH in Hin. destruct Hin as [Hl Hr]. fold s n in Hr.
    unfold GAP_MM, cmToMm, CM_TO_MM in *. split; lra.
Qed.

Lemma rects_from_heights (maxHeight : Q) (l : list BookFormState) :
  forall x r, In r (rects_from maxHeight x l) ->
    In (BookRect.heightMm r) (map (fun book => cmToMm (heightCm book)) l)
    /\ In (BookRect.widthMm r) (map (fun book => cmToMm (spineWidthCm book)) l)
    /\ BookRect.yMm r = CLEARANCE_TOP_MM + (maxHeight - BookRect.heightMm r).
Proof.
  induction l as [|b t IH]; intros x r Hin; [destruct Hin|].
  cbn [rects_from] in Hin. destruct Hin as [<-|Hin].
  - cbn. repeat split; left; reflexivity.
  - apply IH in Hin. destruct Hin as (Hh & Hw & Hy).
    repeat split; [right; exact Hh | right; exact Hw | exact Hy].
Qed.

(** Where the rectangles of a layout lie. *)
Lemma layout_rect_bounds (l : list BookFormState) (r : BookRect.t) :
  Forall nonnegative_dimensions l ->
  In r (rects (computeStackLayout l)) ->
  let m := metrics (computeStackLayout l) in
  (CLEARANCE_SIDE_MM <= BookRect.xMm r
   /\ rightMm r <= CLEARANCE_SIDE_MM + totalWidthMm m)
  /\ (BookRect.yMm r == CLEARANCE_TOP_MM + (maxHeightMm m - BookRect.heightMm r)
      /\ minHeightMm m <= BookRect.heightMm r <= maxHeightMm m)
  /\ 0 <= BookRect.widthMm r /\ 0 <= BookRect.heightMm r.
Proof.
  intros Hnn Hin. cbv zeta. rewrite rects_of_layout in Hin.
  rewrite metrics_of_layout in *. cbv zeta in *.
  cbn [totalWidthMm maxHeightMm minHeightMm] in *.
  destruct (rects_from_span _ l Hnn _ _ Hin) as [Hl Hr].
  destruct (rects_from_heights _ l _ _ Hin) as (Hh & Hw & Hy).
  assert (Hw0 : 0 <= BookRect.widthMm r).
  { apply in_map_iff in Hw. destruct Hw as (book & <- & Hbook).
    rewrite Forall_forall in Hnn. destruct (Hnn _ Hbook) as [_ H0].
    unfold cmToMm, CM_TO_MM. lra. }
  assert (Hh0 : 0 <= BookRect.heightMm r).
  { pose proof Hh as Hh'. apply in_map_iff in Hh'. destruct Hh' as (book & <- & Hbook).
    rewrite Forall_forall in Hnn. destruct (Hnn _ Hbook) as [H0 _].
    unfold cmToMm, CM_TO_MM. lra. }
  destruct l as [|b t]; [destruct Hin|].
  rewrite totalWidth_closed_form.
  cbn [map Qsum fold_right List.length] in Hr.
  fold (Qsum (map (fun book => cmToMm (spineWidthCm book)) t)) in Hr.
  rewrite inject_nat_succ in Hr.
  cbn [map] in Hh |- *.
  pose proof (Math_max_upper _ _ _ Hh) as Hmax.
  pose proof (Math_min_lower _ _ _ Hh) as Hmin.
  rewrite Hy.
  set (s := Qsum (map (fun book => cmToMm (spineWidthCm book)) t)) in *.
  set (n := inject_Z (Z.of_nat (List.length t))) in *.
  unfold GAP_MM in *.
  repeat split; try assumption; try lra.
Qed.

(** X6: every rectangle of a layout of books with non-negative dimensions
    lies inside the clearances.  It starts at or after the side clearance
    and ends at or before side clearance + total width, so it leaves the
    side clearance free on both sides of the required width; its bottom edge
    is at top clearance + tallest height, the same for every book, so the
    books stand on one base line and leave the bottom clearance free; and
    its height lies between the shortest and the tallest height of the
    metrics. *)
Theorem rects_within_clearances (l : list BookFormState) (r : BookRect.t)
        (Hnn : Forall nonnegative_dimensions l)
        (Hin : In r (rects (computeStackLayout l))) :
  let m := metrics (computeStackLayout l) in
  CLEARANCE_SIDE_MM <= BookRect.xMm r
  /\ rightMm r + CLEARANCE_SIDE_MM <= requiredWidthMm m
  /\ CLEARANCE_TOP_MM <= BookRect.yMm r
  /\ BookRect.yMm r + BookRect.heightMm r == CLEARANCE_TOP_MM + maxHeightMm m
  /\ BookRect.yMm r + BookRect.heightMm r + CLEARANCE_BOTTOM_MM == requiredHeightMm m
  /\ minHeightMm m <= BookRect.heightMm r <= maxHeightMm m.
Proof.
  cbv zeta.
  destruct (layout_rect_bounds l r Hnn Hin) as ((Hl & Hr) & (Hy & Hlo & Hhi) & _).
  rewrite metrics_of_layout in *. cbv zeta in *.
  cbn [totalWidthMm maxHeightMm minHeightMm requiredWidthMm requiredHeightMm] in *.
  unfold CLEARANCE_SIDE_MM, CLEARANCE_TOP_MM, CLEARANCE_BOTTOM_MM in *.
  repeat split; try assumption; try lra.
Qed.

Lemma rects_within_clearances_witness :
  let r := nth 1 (rects (computeStackLayout DEFAULT_BOOKS))
               (BookRect.mk 0 "" 0 0 0 0 "") in
  10 <= BookRect.xMm r /\ rightMm r + 10 <= 158.5 + 20.
Proof.
  cbv zeta.
  destruct (rects_within_clearances DEFAULT_BOOKS
              (nth 1 (rects (computeStackLayout DEFAULT_BOOKS))
                   (BookRect.mk 0 "" 0 0 0 0 ""))) as (H1 & H2 & _).
  - repeat constructor; cbn; lra.
  - vm_compute. right. left. reflexivity.
  - split; [exact H1 | exact H2].
Defined.

(** ** Least covering zoom *)

Lemma js_or_nonzero (x y : Q) : ~ x == 0 -> js_or x y = x.
Proof.
  intros Hx. unfold js_or. destruct (Qeq_bool x 0) eqn:He; [|reflexivity].
  apply Qeq_bool_iff in He. contradiction.
Qed.

Lemma js_or_zero (x y : Q) : x == 0 -> js_or x y = y.
Proof.
  intros Hx. unfold js_or. apply Qeq_bool_iff in Hx. rewrite Hx. reflexivity.
Qed.

Lemma quotient_le_iff (a c z : Q) : 0 < c -> (a / c <= z <-> a <= c * z).
Proof.
  intros Hc. split; intros H.
  - assert (E : a == a / c * c) by (field; lra).
    rewrite E. rewrite (Qmult_comm c z).
    apply Qmult_le_compat_r; [exact H | lra].
  - apply Qle_shift_div_r; [exact Hc | lra].
Qed.

Lemma quotient_pos (a c : Q) : 0 < a -> 0 < c -> 0 < a / c.
Proof. intros Ha Hc. apply Qlt_shift_div_l; [exact Hc | lra]. Qed.

(** [minZoom] when both base lengths are positive and the safe area is not
    empty. *)
Lemma minZoom_positive_bases (m : StackMetrics) (a : ArtworkDimensionsMm.t) (zoom : Q) :
  let b := computeArtworkBounds m a in
  let bw := js_or (ArtworkDimensionsMm.widthMm a)
                  (js_or (requiredWidthMm m) (safeWidthMm b)) in
  let bh := js_or (ArtworkDimensionsMm.heightMm a)
                  (js_or (requiredHeightMm m) (safeHeightMm b)) in
  0 < bw -> 0 < bh -> 0 < safeWidthMm b \/ 0 < safeHeightMm b ->
  (minZoom b <= zoom <-> safeWidthMm b <= bw * zoom /\ safeHeightMm b <= bh * zoom).
Proof.
  cbv zeta. intros Hbw Hbh Hsafe.
  rewrite minZoom_quotient; cbv zeta; try lra.
  - rewrite Q.max_lub_iff, !quotient_le_iff by assumption. reflexivity.
  - destruct Hsafe as [Hs|Hs].
    + apply Qlt_le_trans with (2 := Q.le_max_l _ _). apply quotient_pos; assumption.
    + apply Qlt_le_trans with (2 := Q.le_max_r _ _). apply quotient_pos; assumption.
Qed.

(** X7: for an artwork with positive dimensions and a safe area that is not
    empty, [minZoom] is the least zoom at which the scaled artwork is at
    least as wide and as high as the safe area: a zoom covers the safe area
    exactly when it is at least [minZoom]. *)
Theorem minZoom_least_covering_zoom (m : StackMetrics) (a : ArtworkDimensionsMm.t)
        (zoom : Q)
        (Hw : 0 < ArtworkDimensionsMm.widthMm a)
        (Hh : 0 < ArtworkDimensionsMm.heightMm a)
        (Hsafe : 0 < safeWidthMm (computeArtworkBounds m a)
                 \/ 0 < safeHeightMm (computeArtworkBounds m a)) :
  let b := computeArtworkBounds m a in
  minZoom b <= zoom
  <-> safeWidthMm b <= ArtworkDimensionsMm.widthMm a * zoom
      /\ safeHeightMm b <= ArtworkDimensionsMm.heightMm a * zoom.
Proof.
  cbv zeta.
  pose proof (minZoom_positive_bases m a zoom) as H. cbv zeta in H.
  rewrite !js_or_nonzero in H by lra.
  apply H; assumption.
Qed.

Lemma minZoom_least_covering_zoom_witness :
  let a := ArtworkDimensionsMm.mk 100 100 in
  let b := computeArtworkBounds (metrics DEFAULT_LAYOUT) a in
  minZoom b <= 3 <-> safeWidthMm b <= 100 * 3 /\ safeHeightMm b <= 100 * 3.
Proof.
  cbv zeta.
  apply (minZoom_least_covering_zoom (metrics DEFAULT_LAYOUT)
                                     (ArtworkDimensionsMm.mk 100 100) 3).
  - reflexivity.
  - reflexivity.
  - left. vm_compute. reflexivity.
Defined.

(** ** Page renderer *)

(** For a layout of books with non-negative dimensions the safe area is the
    required area, and it is not empty. *)
Lemma layout_safe_is_required (l : list BookFormState) (a : ArtworkDimensionsMm.t) :
  Forall nonnegative_dimensions l ->
  let m := metrics (computeStackLayout l) in
  let b := computeArtworkBounds m a in
  (safeWidthMm b == requiredWidthMm m /\ safeHeightMm b == requiredHeightMm m)
  /\ (requiredWidthMm m == totalWidthMm m + 20 /\ requiredHeightMm m == maxHeightMm m + 4)
  /\ 0 < requiredWidthMm m /\ 0 < requiredHeightMm m.
Proof.
  intros Hnn. cbv zeta. rewrite metrics_of_layout. cbv zeta.
  cbn [computeArtworkBounds safeWidthMm safeHeightMm requiredWidthMm requiredHeightMm
       totalWidthMm maxHeightMm].
  unfold ART_SAFE_MARGIN_SIDE_MM, ART_SAFE_MARGIN_VERTICAL_MM, CLEARANCE_SIDE_MM,
    CLEARANCE_TOP_MM, CLEARANCE_BOTTOM_MM.
  assert (Htot : 0 <= reduce addWidth (map (fun book => cmToMm (spineWidthCm book)) l) 0).
  { destruct l as [|b t]; [cbn; lra|].
    rewrite totalWidth_closed_form.
    pose proof (Qsum_widths_nonneg t (Forall_inv_tail Hnn)) as Hs.
    pose proof (length_nonneg t) as Hn.
    destruct (Forall_inv Hnn) as [_ Hw].
    set (s := Qsum _) in *. set (n := inject_Z _) in *.
    unfold cmToMm, CM_TO_MM, GAP_MM. lra. }
  assert (Hmax : 0 <= match map (fun book => cmToMm (heightCm book)) l with
                      | [] => 0 | h :: t => Math_max h t end).
  { destruct l as [|b t]; [cbn; lra|]. cbn [map].
    apply Qle_trans with (cmToMm (heightCm b)).
    - destruct (Forall_inv Hnn) as [Hh _]. unfold cmToMm, CM_TO_MM. lra.
    - apply Math_max_upper. left. reflexivity. }
  set (tot := reduce addWidth _ 0) in *.
  set (mh := match map (fun book => cmToMm (heightCm book)) l with
             | [] => 0 | h :: t => Math_max h t end) in *.
  repeat split; lra.
Qed.

(** The base lengths of the artwork as the bounds solver, the offset limits
    and the renderer compute them agree on such a layout. *)
Lemma layout_bases_agree (l : list BookFormState) (a : ArtworkDimensionsMm.t) :
  Forall nonnegative_dimensions l ->
  0 <= ArtworkDimensionsMm.widthMm a -> 0 <= ArtworkDimensionsMm.heightMm a ->
  let m := metrics (computeStackLayout l) in
  let b := computeArtworkBounds m a in
  let bw := js_or (ArtworkDimensionsMm.widthMm a) (requiredWidthMm m) in
  let bh := js_or (ArtworkDimensionsMm.heightMm a) (requiredHeightMm m) in
  (0 < bw /\ 0 < bh)
  /\ (js_or (ArtworkDimensionsMm.widthMm a)
            (js_or (requiredWidthMm m) (safeWidthMm b)) = bw
      /\ js_or (ArtworkDimensionsMm.heightMm a)
               (js_or (requiredHeightMm m) (safeHeightMm b)) = bh)
  /\ (js_or (ArtworkDimensionsMm.widthMm a) (safeWidthMm b) == bw
      /\ js_or (ArtworkDimensionsMm.heightMm a) (safeHeightMm b) == bh).
Proof.
  intros Hnn Hw Hh. cbv zeta.
  destruct (layout_safe_is_required l a Hnn) as ((Esw & Esh) & _ & Hrw & Hrh).
  cbv zeta in *.
  set (m := metrics (computeStackLayout l)) in *.
  set (b := computeArtworkBounds m a) in *.
  rewrite (js_or_nonzero (requiredWidthMm m)) by lra.
  rewrite (js_or_nonzero (requiredHeightMm m)) by lra.
  split; [|split; [split; reflexivity|]].
  - split.
    + destruct (js_or_spec (ArtworkDimensionsMm.widthMm a) (requiredWidthMm m))
        as [[_ ->]|[Hn ->]]; [exact Hrw|].
      destruct (Qle_lt_or_eq _ _ Hw) as [?|E]; [assumption|]. symmetry in E. contradiction.
    + destruct (js_or_spec (ArtworkDimensionsMm.heightMm a) (requiredHeightMm m))
        as [[_ ->]|[Hn ->]]; [exact Hrh|].
      destruct (Qle_lt_or_eq _ _ Hh) as [?|E]; [assumption|]. symmetry in E. contradiction.
  - split.
    + destruct (js_or_spec (ArtworkDimensionsMm.widthMm a) (requiredWidthMm m))
        as [[Hz ->]|[Hn ->]].
      * rewrite js_or_zero by exact Hz. exact Esw.
      * rewrite js_or_nonzero by exact Hn. reflexivity.
    + destruct (js_or_spec (ArtworkDimensionsMm.heightMm a) (requiredHeightMm m))
        as [[Hz ->]|[Hn ->]].
      * rewrite js_or_zero by exact Hz. exact Esh.
      * rewrite js_or_nonzero by exact Hn. reflexivity.
Qed.

(** The artwork rectangle of a page against its book and clip rectangles. *)
Lemma page_covered (l : list BookFormState) (a : ArtworkDimensionsMm.t)
        (zoom : Q) (offset : ArtOffset.t) (r : BookRect.t) :
  let layout := computeStackLayout l in
  let bounds := computeArtworkBounds (metrics layout) a in
  let lim := computeOffsetLimits bounds a zoom in
  let g := pageGeometry layout offset zoom a r in
  Forall nonnegative_dimensions l ->
  0 <= ArtworkDimensionsMm.widthMm a -> 0 <= ArtworkDimensionsMm.heightMm a ->
  In r (rects layout) ->
  minZoom bounds <= zoom ->
  minX lim <= ArtOffset.x offset <= maxX lim ->
  minY lim <= ArtOffset.y offset <= maxY lim ->
  (artDrawXmm g <= clipLeftMm g
   /\ clipRightMm g <= artDrawXmm g + artDrawWidthMm g
   /\ artDrawYmm g <= clipTopMm g
   /\ clipBottomMm g <= artDrawYmm g + artDrawHeightMm g)
  /\ (artDrawXmm g + CLEARANCE_SIDE_MM <= bookLeftMm g
      /\ bookRightMm g + CLEARANCE_SIDE_MM <= artDrawXmm g + artDrawWidthMm g
      /\ artDrawYmm g + CLEARANCE_TOP_MM <= bookTopMm g
      /\ bookBottomMm g + CLEARANCE_BOTTOM_MM <= artDrawYmm g + artDrawHeightMm g).
Proof.
  cbv zeta. intros Hnn Haw Hah Hin Hzoom Hx Hy.
  destruct (layout_safe_is_required l a Hnn) as ((Esw & Esh) & (Erw & Erh) & Hrw & Hrh).
  destruct (layout_bases_agree l a Hnn Haw Hah) as ((Hbw & Hbh) & (Ew & Eh) & (Ew' & Eh')).
  destruct (layout_rect_bounds l r Hnn Hin) as ((Hl & Hr) & (Hry & Hlo & Hhi) & Hw0 & Hh0).
  cbv zeta in *.
  set (layout := computeStackLayout l) in *.
  set (m := metrics layout) in *.
  set (bounds := computeArtworkBounds m a) in *.
  assert (Hcover : safeWidthMm bounds
                   <= js_or (ArtworkDimensionsMm.widthMm a) (requiredWidthMm m) * zoom
                   /\ safeHeightMm bounds
                      <= js_or (ArtworkDimensionsMm.heightMm a) (requiredHeightMm m) * zoom).
  { pose proof (minZoom_positive_bases m a zoom) as H. cbv zeta in H. fold bounds in H.
    rewrite Ew, Eh in H. apply H; [assumption | assumption | left; lra | exact Hzoom]. }
  destruct Hcover as [Hcw Hch].
  unfold computeOffsetLimits in Hx, Hy. cbv zeta in Hx, Hy.
  cbn [minX maxX minY maxY] in Hx, Hy.
  assert (Pw : js_or (ArtworkDimensionsMm.widthMm a) (safeWidthMm bounds) * zoom
               == js_or (ArtworkDimensionsMm.widthMm a) (requiredWidthMm m) * zoom)
    by (rewrite Ew'; reflexivity).
  assert (Ph : js_or (ArtworkDimensionsMm.heightMm a) (safeHeightMm bounds) * zoom
               == js_or (ArtworkDimensionsMm.heightMm a) (requiredHeightMm m) * zoom)
    by (rewrite Eh'; reflexivity).
  unfold pageGeometry. cbv zeta.
  cbn [artDrawXmm artDrawYmm artDrawWidthMm artDrawHeightMm clipLeftMm clipTopMm
       clipRightMm clipBottomMm bookLeftMm bookTopMm bookRightMm bookBottomMm].
  fold m.
  set (aw := js_or (ArtworkDimensionsMm.widthMm a) (requiredWidthMm m) * zoom) in *.
  set (ah := js_or (ArtworkDimensionsMm.heightMm a) (requiredHeightMm m) * zoom) in *.
  set (aw' := js_or (ArtworkDimensionsMm.widthMm a) (safeWidthMm bounds) * zoom) in *.
  set (ah' := js_or (ArtworkDimensionsMm.heightMm a) (safeHeightMm bounds) * zoom) in *.
  clearbody aw ah aw' ah'.
  unfold rightMm in Hr.
  unfold TABLOID_WIDTH_MM, TABLOID_HEIGHT_MM, CLEARANCE_SIDE_MM, CLEARANCE_TOP_MM,
    CLEARANCE_BOTTOM_MM in *.
  revert Hx Hy. minmax_atoms. intros Hx Hy.
  pose proof (Q.max_spec ((aw' - safeWidthMm bounds) / 2) 0) as Hmx.
  pose proof (Q.max_spec ((ah' - safeHeightMm bounds) / 2) 0) as Hmy.
  set (roomX := Qmax ((aw' - safeWidthMm bounds) / 2) 0) in *.
  set (roomY := Qmax ((ah' - safeHeightMm bounds) / 2) 0) in *.
  clearbody roomX roomY.
  halves. repeat split; lra.
Qed.

(** X8: on every page the artwork covers the clip region.  For a layout of
    books with non-negative dimensions, an artwork with non-negative
    dimensions, a zoom of at least [minZoom] and an offset within the limits
    computed for that zoom, the rectangle into which the renderer draws the
    artwork on the page of any book contains the clip rectangle of that
    page; it even reaches the side clearance beyond the book on the left and
    on the right and the vertical clearance beyond it above and below. *)
Theorem artwork_covers_clip (l : list BookFormState) (a : ArtworkDimensionsMm.t)
        (zoom : Q) (offset : ArtOffset.t) (r : BookRect.t) :
  let layout := computeStackLayout l in
  let bounds := computeArtworkBounds (metrics layout) a in
  let lim := computeOffsetLimits bounds a zoom in
  let g := pageGeometry layout offset zoom a r in
  Forall nonnegative_dimensions l ->
  0 <= ArtworkDimensionsMm.widthMm a -> 0 <= ArtworkDimensionsMm.heightMm a ->
  In r (rects layout) ->
  minZoom bounds <= zoom ->
  minX lim <= ArtOffset.x offset <= maxX lim ->
  minY lim <= ArtOffset.y offset <= maxY lim ->
  (artDrawXmm g <= clipLeftMm g
   /\ clipRightMm g <= artDrawXmm g + artDrawWidthMm g
   /\ artDrawYmm g <= clipTopMm g
   /\ clipBottomMm g <= artDrawYmm g + artDrawHeightMm g)
  /\ (artDrawXmm g + CLEARANCE_SIDE_MM <= bookLeftMm g
      /\ bookRightMm g + CLEARANCE_SIDE_MM <= artDrawXmm g + artDrawWidthMm g
      /\ artDrawYmm g + CLEARANCE_TOP_MM <= bookTopMm g
      /\ bookBottomMm g + CLEARANCE_BOTTOM_MM <= artDrawYmm g + artDrawHeightMm g).
Proof.
  exact (page_covered l a zoom offset r).
Qed.

Lemma artwork_covers_clip_witness :
  let layout := computeStackLayout DEFAULT_BOOKS in
  let r := nth 1 (rects layout) (BookRect.mk 0 "" 0 0 0 0 "") in
  let g := pageGeometry layout (ArtOffset.mk 5 (-3)) 1 (ArtworkDimensionsMm.mk 400 300) r in
  artDrawXmm g <= clipLeftMm g
  /\ clipRightMm g <= artDrawXmm g + artDrawWidthMm g
  /\ artDrawYmm g <= clipTopMm g
  /\ clipBottomMm g <= artDrawYmm g + artDrawHeightMm g.
Proof.
  cbv zeta.
  apply (artwork_covers_clip DEFAULT_BOOKS (ArtworkDimensionsMm.mk 400 300) 1
           (ArtOffset.mk 5 (-3))
           (nth 1 (rects (computeStackLayout DEFAULT_BOOKS))
                (BookRect.mk 0 "" 0 0 0 0 ""))).
  - repeat constructor; cbn; lra.
  - cbn. lra.
  - cbn. lra.
  - vm_compute. right. left. reflexivity.
  - apply Qle_bool_iff. vm_compute. reflexivity.
  - split; apply Qle_bool_iff; vm_compute; reflexivity.
  - split; apply Qle_bool_iff; vm_compute; reflexivity.
Defined.

(** X9: the pages show neighbouring strips of one artwork.  On the pages of
    two consecutive books the artwork is drawn at the same size, and the
    left edge of the second book lies, measured from the left edge of the
    artwork, 2 mm beyond the right edge of the first; the bottom edges of
    the two books lie at the same height of the artwork. *)
Theorem pages_show_adjacent_strips (l : list BookFormState)
        (a : ArtworkDimensionsMm.t) (zoom : Q) (offset : ArtOffset.t)
        (i : nat) (r r' : BookRect.t) :
  let layout := computeStackLayout l in
  let g := pageGeometry layout offset zoom a r in
  let g' := pageGeometry layout offset zoom a r' in
  nth_error (rects layout) i = Some r ->
  nth_error (rects layout) (S i) = Some r' ->
  bookLeftMm g' - artDrawXmm g' == bookRightMm g - artDrawXmm g + GAP_MM
  /\ bookBottomMm g' - artDrawYmm g' == bookBottomMm g - artDrawYmm g
  /\ artDrawWidthMm g' = artDrawWidthMm g
  /\ artDrawHeightMm g' = artDrawHeightMm g.
Proof.
  cbv zeta. intros Hr Hr'.
  rewrite rects_of_layout in Hr, Hr'.
  pose proof (rects_from_next _ _ _ _ _ _ Hr Hr') as Hnext.
  destruct (rects_from_heights _ _ _ _ (nth_error_In _ _ Hr)) as (_ & _ & Hy).
  destruct (rects_from_heights _ _ _ _ (nth_error_In _ _ Hr')) as (_ & _ & Hy').
  unfold pageGeometry. cbv zeta.
  cbn [artDrawXmm artDrawYmm artDrawWidthMm artDrawHeightMm
       bookLeftMm bookRightMm bookBottomMm].
  rewrite Hnext, Hy, Hy'. unfold rightMm.
  split; [|split; [|split; reflexivity]].
  - halves. ring.
  - halves. ring.
Qed.

Lemma pages_show_adjacent_strips_witness :
  let layout := computeStackLayout DEFAULT_BOOKS in
  let d := BookRect.mk 0 "" 0 0 0 0 "" in
  let a := ArtworkDimensionsMm.mk 400 300 in
  let g := pageGeometry layout (ArtOffset.mk 5 (-3)) 1 a (nth 1 (rects layout) d) in
  let g' := pageGeometry layout (ArtOffset.mk 5 (-3)) 1 a (nth 2 (rects layout) d) in
  bookLeftMm g' - artDrawXmm g' == bookRightMm g - artDrawXmm g + GAP_MM.
Proof.
  cbv zeta.
  apply (pages_show_adjacent_strips DEFAULT_BOOKS (ArtworkDimensionsMm.mk 400 300) 1
           (ArtOffset.mk 5 (-3)) 1
           (nth 1 (rects (computeStackLayout DEFAULT_BOOKS)) (BookRect.mk 0 "" 0 0 0 0 ""))
           (nth 2 (rects (computeStackLayout DEFAULT_BOOKS)) (BookRect.mk 0 "" 0 0 0 0 ""))).
  - vm_compute. reflexivity.
  - vm_compute. reflexivity.
Defined.

(** X10: the large text is centred on the stack.  On the page of any
    rectangle, for a layout computed from any books, the centre of the text
    area is the centre of the artwork moved back by the artwork offset: it
    is the centre of the required area, whatever the shortest height is. *)
Theorem large_text_centred_on_stack (l : list BookFormState)
        (a : ArtworkDimensionsMm.t) (zoom : Q) (offset : ArtOffset.t)
        (r : BookRect.t) :
  let layout := computeStackLayout l in
  let g := pageGeometry layout offset zoom a r in
  largeTextAreaCenterX g + ArtOffset.x offset == artDrawXmm g + artDrawWidthMm g / 2
  /\ largeTextAreaCenterY g + ArtOffset.y offset == artDrawYmm g + artDrawHeightMm g / 2
  /\ largeTextAreaCenterX g - bookLeftMm g
     == requiredWidthMm (metrics layout) / 2 - BookRect.xMm r
  /\ largeTextAreaCenterY g - bookTopMm g
     == requiredHeightMm (metrics layout) / 2 - BookRect.yMm r.
Proof.
  cbv zeta. unfold pageGeometry. cbv zeta.
  cbn [artDrawXmm artDrawYmm artDrawWidthMm artDrawHeightMm
       largeTextAreaCenterX largeTextAreaCenterY bookLeftMm bookTopMm].
  rewrite metrics_of_layout. cbv zeta.
  cbn [totalWidthMm maxHeightMm minHeightMm requiredWidthMm requiredHeightMm].
  unfold CLEARANCE_SIDE_MM, CLEARANCE_TOP_MM, CLEARANCE_BOTTOM_MM.
  halves. repeat split; ring.
Qed.

(** X11: when the layout fits on the page no clip is cut by the sheet.  For
    books with non-negative dimensions whose layout fits, on the page of
    every rectangle the centred book lies on the sheet and the clip region
    is the book rectangle with 2 mm added above it. *)
Theorem clip_is_book_when_layout_fits (l : list BookFormState)
        (a : ArtworkDimensionsMm.t) (zoom : Q) (offset : ArtOffset.t)
        (r : BookRect.t) :
  let layout := computeStackLayout l in
  let g := pageGeometry layout offset zoom a r in
  Forall nonnegative_dimensions l ->
  In r (rects layout) ->
  fitsOnTabloid (metrics layout) = true ->
  (0 <= bookLeftMm g /\ bookRightMm g <= TABLOID_WIDTH_MM
   /\ 2 <= bookTopMm g /\ bookBottomMm g <= TABLOID_HEIGHT_MM)
  /\ (clipLeftMm g == bookLeftMm g /\ clipRightMm g == bookRightMm g
      /\ clipTopMm g == bookTopMm g - 2 /\ clipBottomMm g == bookBottomMm g)
  /\ clipWidthMm g == BookRect.widthMm r
  /\ clipHeightMm g == BookRect.heightMm r + 2.
Proof.
  cbv zeta. intros Hnn Hin Hfit.
  destruct (layout_rect_bounds l r Hnn Hin) as ((Hl & Hr) & (Hry & Hlo & Hhi) & Hw0 & Hh0).
  cbv zeta in *. rewrite metrics_of_layout in *. cbv zeta in *.
  cbn [fitsOnTabloid totalWidthMm maxHeightMm minHeightMm] in *.
  apply andb_true_iff in Hfit. destruct Hfit as [Hfw Hfh].
  apply Qle_bool_iff in Hfw. apply Qle_bool_iff in Hfh.
  unfold pageGeometry. cbv zeta.
  cbn [clipLeftMm clipTopMm clipRightMm clipBottomMm clipWidthMm clipHeightMm
       bookLeftMm bookTopMm bookRightMm bookBottomMm].
  set (tot := reduce addWidth _ 0) in *.
  set (mh := match map (fun book => cmToMm (heightCm book)) l with
             | [] => 0 | h :: t => Math_max h t end) in *.
  clearbody tot mh. unfold rightMm in Hr.
  unfold TABLOID_WIDTH_MM, TABLOID_HEIGHT_MM, CLEARANCE_SIDE_MM, CLEARANCE_TOP_MM,
    CLEARANCE_BOTTOM_MM in *.
  minmax_atoms. halves. repeat split; lra.
Qed.

Lemma clip_is_book_when_layout_fits_witness :
  let layout := computeStackLayout DEFAULT_BOOKS in
  let r := nth 1 (rects layout) (BookRect.mk 0 "" 0 0 0 0 "") in
  let g := pageGeometry layout (ArtOffset.mk 0 0) 1 (ArtworkDimensionsMm.mk 400 300) r in
  clipWidthMm g == BookRect.widthMm r /\ clipHeightMm g == BookRect.heightMm r + 2.
Proof.
  cbv zeta.
  apply (clip_is_book_when_layout_fits DEFAULT_BOOKS (ArtworkDimensionsMm.mk 400 300) 1
           (ArtOffset.mk 0 0)
           (nth 1 (rects (computeStackLayout DEFAULT_BOOKS))
                (BookRect.mk 0 "" 0 0 0 0 ""))).
  - repeat constructor; cbn; lra.
  - vm_compute. right. left. reflexivity.
  - vm_compute. reflexivity.
Defined.

(** ** Offset limits *)

(** X12: the offset limits are symmetric about zero and never negative; for
    an artwork with positive dimensions the whole travel on an axis is the
    excess of the scaled artwork over the safe area, or nothing when the
    artwork is not larger than the safe area, and the limits never shrink
    when the zoom grows. *)
Theorem offset_limits_room (bounds : ArtworkBounds) (a : ArtworkDimensionsMm.t)
        (zoom zoom' : Q)
        (Hw : 0 < ArtworkDimensionsMm.widthMm a)
        (Hh : 0 < ArtworkDimensionsMm.heightMm a) :
  let lim := computeOffsetLimits bounds a zoom in
  let lim' := computeOffsetLimits bounds a zoom' in
  (minX lim == - maxX lim /\ minY lim == - maxY lim /\ 0 <= maxX lim /\ 0 <= maxY lim)
  /\ (safeWidthMm bounds <= ArtworkDimensionsMm.widthMm a * zoom ->
      maxX lim - minX lim == ArtworkDimensionsMm.widthMm a * zoom - safeWidthMm bounds)
  /\ (safeHeightMm bounds <= ArtworkDimensionsMm.heightMm a * zoom ->
      maxY lim - minY lim == ArtworkDimensionsMm.heightMm a * zoom - safeHeightMm bounds)
  /\ (ArtworkDimensionsMm.widthMm a * zoom <= safeWidthMm bounds -> maxX lim == 0)
  /\ (ArtworkDimensionsMm.heightMm a * zoom <= safeHeightMm bounds -> maxY lim == 0)
  /\ (zoom <= zoom' -> maxX lim <= maxX lim' /\ maxY lim <= maxY lim').
Proof.
  cbv zeta. split; [exact (offset_limits_shape bounds a zoom)|].
  unfold computeOffsetLimits. cbv zeta. cbn [minX maxX minY maxY].
  rewrite !js_or_nonzero by lra.
  assert (Mw : zoom <= zoom' ->
               ArtworkDimensionsMm.widthMm a * zoom <= ArtworkDimensionsMm.widthMm a * zoom').
  { intros Hz. rewrite !(Qmult_comm (ArtworkDimensionsMm.widthMm a)).
    apply Qmult_le_compat_r; [exact Hz | lra]. }
  assert (Mh : zoom <= zoom' ->
               ArtworkDimensionsMm.heightMm a * zoom <= ArtworkDimensionsMm.heightMm a * zoom').
  { intros Hz. rewrite !(Qmult_comm (ArtworkDimensionsMm.heightMm a)).
    apply Qmult_le_compat_r; [exact Hz | lra]. }
  set (aw := ArtworkDimensionsMm.widthMm a * zoom) in *.
  set (ah := ArtworkDimensionsMm.heightMm a * zoom) in *.
  set (aw' := ArtworkDimensionsMm.widthMm a * zoom') in *.
  set (ah' := ArtworkDimensionsMm.heightMm a * zoom') in *.
  clearbody aw ah aw' ah'.
  repeat split; intros; try (specialize (Mw ltac:(assumption)));
    try (specialize (Mh ltac:(assumption))); minmax_atoms; halves; lra.
Qed.

Lemma offset_limits_room_witness :
  let bounds := computeArtworkBounds (metrics DEFAULT_LAYOUT)
                                     (ArtworkDimensionsMm.mk 400 300) in
  let lim := computeOffsetLimits bounds (ArtworkDimensionsMm.mk 400 300) 1 in
  minX lim == - maxX lim /\ minY lim == - maxY lim /\ 0 <= maxX lim /\ 0 <= maxY lim.
Proof.
  cbv zeta.
  apply (offset_limits_room
           (computeArtworkBounds (metrics DEFAULT_LAYOUT) (ArtworkDimensionsMm.mk 400 300))
           (ArtworkDimensionsMm.mk 400 300) 1 2).
  - reflexivity.
  - reflexivity.
Defined.

(** ** Book list operations *)

Lemma filter_other_ids_length (bookId : Z) (l : list BookFormState) :
  NoDup (map id l) -> In bookId (map id l) ->
  S (List.length (filter (fun book => negb (Z.eqb (id book) bookId)) l)) = List.length l.
Proof.
  induction l as [|b t IH]; intros Hnd Hin; [destruct Hin|].
  cbn [map] in Hnd, Hin. inversion Hnd as [|x xs Hnotin Hnd' Heq]; subst.
  cbn [filter List.length].
  destruct (Z.eqb_spec (id b) bookId) as [E|N]; cbn [negb].
  - f_equal. subst bookId.
    assert (Hall : filter (fun book => negb (Z.eqb (id book) (id b))) t = t).
    { apply forallb_filter_id. apply forallb_forall. intros b' Hb'.
      destruct (Z.eqb_spec (id b') (id b)) as [E'|]; [|reflexivity].
      exfalso. apply Hnotin. rewrite <- E'. apply in_map. exact Hb'. }
    rewrite Hall. reflexivity.
  - cbn [List.length]. f_equal. apply IH; [exact Hnd'|].
    destruct Hin as [E|Hin]; [contradiction | exact Hin].
Qed.

(** X13: removing a book by id.  From two or more books with distinct ids
    the removal of a present id takes exactly one book away, the one with
    that id, and keeps the others in their order; the removal of an id no
    book has changes nothing; a list of at most one book is never changed;
    the next id is never changed. *)
Theorem handleRemoveBook_removes_one (bookId : Z) (st : DesignerState) :
  nextId (handleRemoveBook bookId st) = nextId st
  /\ ((List.length (books st) <= 1)%nat -> handleRemoveBook bookId st = st)
  /\ (~ In bookId (map id (books st)) -> books (handleRemoveBook bookId st) = books st)
  /\ ((1 < List.length (books st))%nat ->
      ~ In bookId (map id (books (handleRemoveBook bookId st)))
      /\ books (handleRemoveBook bookId st)
         = filter (fun book => negb (Z.eqb (id book) bookId)) (books st)
      /\ (forall book, In book (books st) -> id book <> bookId ->
                       In book (books (handleRemoveBook bookId st)))
      /\ (NoDup (map id (books st)) -> In bookId (map id (books st)) ->
          S (List.length (books (handleRemoveBook bookId st)))
          = List.length (books st))).
Proof.
  unfold handleRemoveBook. cbv zeta. cbn [books nextId].
  split; [reflexivity|]. split; [|split].
  - intros Hle. destruct (Nat.ltb_spec 1 (List.length (books st))); [lia|].
    destruct st; reflexivity.
  - intros Hnot. destruct (Nat.ltb 1 (List.length (books st))); [|reflexivity].
    apply forallb_filter_id. apply forallb_forall. intros b Hb.
    destruct (Z.eqb_spec (id b) bookId) as [E|]; [|reflexivity].
    exfalso. apply Hnot. rewrite <- E. apply in_map. exact Hb.
  - intros Hlt. destruct (Nat.ltb_spec 1 (List.length (books st))); [|lia].
    split; [|split; [reflexivity|split]].
    + intros Hin. apply in_map_iff in Hin. destruct Hin as (b & Hid & Hb).
      apply filter_In in Hb. destruct Hb as [_ Hb].
      rewrite Hid, Z.eqb_refl in Hb. discriminate Hb.
    + intros book Hb Hne. apply filter_In. split; [exact Hb|].
      destruct (Z.eqb_spec (id book) bookId); [contradiction | reflexivity].
    + apply filter_other_ids_length.
Qed.

Lemma setField_idempotent (u : FieldUpdate) (book : BookFormState) :
  setField u (setField u book) = setField u book.
Proof. destruct u; reflexivity. Qed.

(** X14: updating a book by id keeps the number and the order of the books
    and the next id, replaces exactly the books that carry the id by their
    updated versions, changes nothing when no book carries the id, and
    changes nothing more when applied a second time. *)
Theorem handleUpdateBook_touches_only_id (bookId : Z) (u : FieldUpdate)
        (st : DesignerState) :
  nextId (handleUpdateBook bookId u st) = nextId st
  /\ List.length (books (handleUpdateBook bookId u st)) = List.length (books st)
  /\ (forall i book, nth_error (books st) i = Some book ->
        nth_error (books (handleUpdateBook bookId u st)) i
        = Some (if Z.eqb (id book) bookId then setField u book else book))
  /\ (~ In bookId (map id (books st)) -> handleUpdateBook bookId u st = st)
  /\ handleUpdateBook bookId u (handleUpdateBook bookId u st)
     = handleUpdateBook bookId u st.
Proof.
  unfold handleUpdateBook. cbn [books nextId].
  split; [reflexivity|]. split; [apply length_map|]. split; [|split].
  - intros i book Hnth. rewrite nth_error_map, Hnth. reflexivity.
  - intros Hnot. destruct st as [bs n]. cbn [books nextId] in *. f_equal.
    rewrite <- (map_id bs) at 2. apply map_ext_in. intros b Hb.
    destruct (Z.eqb_spec (id b) bookId) as [E|]; [|reflexivity].
    exfalso. apply Hnot. rewrite <- E. apply in_map. exact Hb.
  - f_equal. rewrite map_map. apply map_ext. intros b.
    destruct (Z.eqb (id b) bookId) eqn:E; [|rewrite E; reflexivity].
    destruct (Z.eqb (id (setField u b)) bookId); [apply setField_idempotent | reflexivity].
Qed.

(** *** Adding a book and the layout *)

Lemma Qsum_app (l l' : list Q) : Qsum (l ++ l') == Qsum l + Qsum l'.
Proof.
  unfold Qsum. induction l as [|x t IH]; cbn [app fold_right]; [ring|].
  rewrite IH. ring.
Qed.

Lemma last_in {A : Type} (x : A) (t : list A) (d : A) : In (last (x :: t) d) (x :: t).
Proof.
  revert x. induction t as [|y t IH]; intros x; [left; reflexivity|].
  right. exact (IH y).
Qed.

Lemma rects_from_app (maxHeight maxHeight' : Q) (l l' : list BookFormState) :
  forall x i r, nth_error (rects_from maxHeight x l) i = Some r ->
    nth_error (rects_from maxHeight' x (l ++ l')) i
    = Some (BookRect.mk (BookRect.id r) (BookRect.label r) (BookRect.widthMm r)
                        (BookRect.heightMm r) (BookRect.xMm r)
                        (CLEARANCE_TOP_MM + (maxHeight' - BookRect.heightMm r))
                        (BookRect.color r)).
Proof.
  induction l as [|b t IH]; intros x i r Hr.
  - destruct i; discriminate Hr.
  - destruct i as [|i].
    + cbn in Hr. injection Hr as <-. reflexivity.
    + cbn [rects_from nth_error app] in Hr |- *. apply IH. exact Hr.
Qed.

Lemma rects_from_appended (maxHeight : Q) (l : list BookFormState) (b : BookFormState) :
  forall x, exists r,
    nth_error (rects_from maxHeight x (l ++ [b])) (List.length l) = Some r
    /\ BookRect.id r = id b
    /\ BookRect.widthMm r = cmToMm (spineWidthCm b)
    /\ BookRect.heightMm r = cmToMm (heightCm b)
    /\ BookRect.xMm r
       == x + Qsum (map (fun book => cmToMm (spineWidthCm book)) l)
          + inject_Z (Z.of_nat (List.length l)) * GAP_MM.
Proof.
  induction l as [|b' t IH]; intros x.
  - eexists. split; [reflexivity|]. cbn. repeat split; try reflexivity.
    change (inject_Z 0) with 0. lra.
  - destruct (IH (x + cmToMm (spineWidthCm b') + GAP_MM)) as (r & Hr & Hid & Hw & Hh & Hx).
    exists r. split; [exact Hr|]. repeat split; try assumption.
    rewrite Hx. cbn [map Qsum fold_right List.length]. rewrite inject_nat_succ.
    fold (Qsum (map (fun book => cmToMm (spineWidthCm book)) t)). lra.
Qed.

Lemma appended_book_metrics (b : BookFormState) (t : list BookFormState)
      (new : BookFormState) :
  In (cmToMm (heightCm new)) (map (fun book => cmToMm (heightCm book)) (b :: t)) ->
  Math_max (cmToMm (heightCm b)) (map (fun book => cmToMm (heightCm book)) (t ++ [new]))
  == Math_max (cmToMm (heightCm b)) (map (fun book => cmToMm (heightCm book)) t)
  /\ Math_min (cmToMm (heightCm b)) (map (fun book => cmToMm (heightCm book)) (t ++ [new]))
     == Math_min (cmToMm (heightCm b)) (map (fun book => cmToMm (heightCm book)) t)
  /\ reduce addWidth (map (fun book => cmToMm (spineWidthCm book)) (b :: (t ++ [new]))) 0
     == reduce addWidth (map (fun book => cmToMm (spineWidthCm book)) (b :: t)) 0
        + cmToMm (spineWidthCm new) + GAP_MM.
Proof.
  intros Hlast. split; [|split].
  - rewrite map_app. unfold Math_max. rewrite fold_left_app. cbn [map fold_left].
    apply Q.max_l. apply (Math_max_upper _ _ _ Hlast).
  - rewrite map_app. unfold Math_min. rewrite fold_left_app. cbn [map fold_left].
    apply Q.min_l. apply (Math_min_lower _ _ _ Hlast).
  - rewrite !totalWidth_closed_form. rewrite map_app, Qsum_app, length_app.
    cbn [map Qsum fold_right List.length]. rewrite Nat.add_1_r, inject_nat_succ.
    unfold GAP_MM. lra.
Qed.

Lemma last_height_in (b : BookFormState) (t : list BookFormState) (d : Q) :
  In (cmToMm (last (map heightCm (b :: t)) d))
     (map (fun book => cmToMm (heightCm book)) (b :: t)).
Proof.
  rewrite <- (map_map heightCm cmToMm). apply in_map. apply last_in.
Qed.

(** X15: adding a book.  The new book takes the next id, the height of the
    last book (22 cm when there is none) and a spine of 3.5 cm, and goes to
    the end.  Added to a list that is not empty it widens the stack by
    37 mm, its spine and one gap, leaves the tallest and the shortest height
    as they are, leaves every rectangle of the layout where and as it was,
    and gets a rectangle 35 mm wide one gap beyond the old stack. *)
Theorem handleAddBook_extends_layout (st : DesignerState) :
  let st' := handleAddBook st in
  let layout := computeStackLayout (books st) in
  let layout' := computeStackLayout (books st') in
  (nextId st' = (nextId st + 1)%Z
   /\ exists book, books st' = books st ++ [book]
        /\ id book = nextId st /\ spineWidthCm book = 3.5
        /\ heightCm book = last (map heightCm (books st)) 22)
  /\ (books st <> [] ->
      (totalWidthMm (metrics layout') == totalWidthMm (metrics layout) + 37
       /\ maxHeightMm (metrics layout') == maxHeightMm (metrics layout)
       /\ minHeightMm (metrics layout') == minHeightMm (metrics layout))
      /\ (forall i r, nth_error (rects layout) i = Some r ->
            exists r', nth_error (rects layout') i = Some r'
              /\ BookRect.id r' = BookRect.id r
              /\ BookRect.xMm r' = BookRect.xMm r
              /\ BookRect.widthMm r' = BookRect.widthMm r
              /\ BookRect.heightMm r' = BookRect.heightMm r
              /\ BookRect.yMm r' == BookRect.yMm r)
      /\ exists r, nth_error (rects layout') (List.length (books st)) = Some r
           /\ BookRect.id r = nextId st
           /\ BookRect.widthMm r == 35
           /\ BookRect.xMm r
              == CLEARANCE_SIDE_MM + totalWidthMm (metrics layout) + GAP_MM).
Proof.
  cbv zeta. split.
  { split; [reflexivity|]. eexists. split; [reflexivity|]. repeat split. }
  intros Hne. destruct st as [bs n]. cbn [books nextId handleAddBook] in *.
  destruct bs as [|b t]; [contradiction Hne; reflexivity|].
  set (new := mkBook n ("Book " ++ Z_to_string n)%string
                     (last (map heightCm (b :: t)) 22) 3.5 "#0ea5e9").
  rewrite !rects_of_layout, !metrics_of_layout. cbv zeta.
  cbn [totalWidthMm maxHeightMm minHeightMm].
  assert (Hlast : In (cmToMm (heightCm new))
                     (map (fun book => cmToMm (heightCm book)) (b :: t))).
  { unfold new. cbn [heightCm].
    rewrite <- (map_map heightCm cmToMm). apply in_map. apply last_in. }
  change ((b :: t) ++ [new]) with (b :: (t ++ [new])).
  destruct (appended_book_metrics b t new Hlast) as (Hmax & Hmin & Htot').
  assert (Htot : reduce addWidth (map (fun book => cmToMm (spineWidthCm book))
                                      (b :: (t ++ [new]))) 0
                 == reduce addWidth (map (fun book => cmToMm (spineWidthCm book))
                                         (b :: t)) 0 + 37).
  { rewrite Htot'. unfold new. cbn [spineWidthCm]. unfold cmToMm, CM_TO_MM, GAP_MM. lra. }
  split; [split; [exact Htot | split; [exact Hmax | exact Hmin]]|].
  cbn [map]. split.
  - intros i r Hr.
    pose proof (rects_from_heights _ _ _ _ (nth_error_In _ _ Hr)) as (_ & _ & Hy).
    eexists. split.
    + exact (rects_from_app _ _ (b :: t) [new] _ _ _ Hr).
    + cbn [BookRect.id BookRect.xMm BookRect.widthMm BookRect.heightMm BookRect.yMm].
      repeat split. rewrite Hy, Hmax. reflexivity.
  - destruct (rects_from_appended
                (Math_max (cmToMm (heightCm b))
                          (map (fun book => cmToMm (heightCm book)) (t ++ [new])))
                (b :: t) new CLEARANCE_SIDE_MM) as (r & Hr & Hid & Hw & _ & Hx).
    exists r. split; [exact Hr|]. split; [exact Hid|]. split.
    + rewrite Hw. unfold new. cbn [spineWidthCm]. unfold cmToMm, CM_TO_MM. lra.
    + rewrite Hx. pose proof (totalWidth_closed_form b t) as Hc. cbn [map] in Hc.
      rewrite Hc. cbn [map Qsum fold_right List.length]. rewrite inject_nat_succ.
      fold (Qsum (map (fun book => cmToMm (spineWidthCm book)) t)).
      unfold GAP_MM. lra.
Qed.

(** ** Text wrapping: lines are filled greedily *)

Section WrapGreedy.

Variable measureText : text -> Q.
Variable maxWidth : Q.

Lemma breaks_forced_cons (g : list text) (gs : list (list text)) (w : text)
      (rest : list text) :
  hd [] gs = w :: rest ->
  maxWidth < measureText (joinSpace (g ++ [w])) ->
  breaks_forced measureText maxWidth gs ->
  breaks_forced measureText maxWidth (g :: gs).
Proof.
  intros Hhd Hm Hgs. destruct gs as [|g2 gs']; [exact I|].
  cbn [hd] in Hhd. subst g2. cbn [breaks_forced hd]. split; assumption.
Qed.

(** The word loop breaks a line only when the next word does not fit. *)
Lemma wrapWords_greedy (ws : list text) :
  forall (lines : list text) (g : list text),
    g <> [] -> Forall word_ok g -> Forall word_ok ws ->
    exists gs g' more,
      fold_left (wrapWord measureText maxWidth) ws (lines, joinSpace g)
      = (lines ++ map joinSpace gs, joinSpace g')
      /\ List.concat (gs ++ [g']) = g ++ ws
      /\ hd [] (gs ++ [g']) = g ++ more
      /\ breaks_forced measureText maxWidth (gs ++ [g']).
Proof.
  induction ws as [|w ws' IH]; intros lines g Hg Hok Hws.
  - exists [], g, []. cbn. rewrite !List.app_nil_r. repeat split.
  - inversion Hws as [|a b Hw Hws' Heq]; subst.
    cbn [fold_left]. unfold wrapWord at 2.
    assert (Hok' : Forall word_ok (g ++ [w])).
    { apply Forall_app. split; [exact Hok | constructor; [exact Hw | constructor]]. }
    assert (Hne' : g ++ [w] <> []) by (destruct g; discriminate).
    rewrite <- (joinSpace_snoc g w Hg).
    destruct (joinSpace_word_ok (g ++ [w]) Hne' Hok') as [Hs He].
    rewrite (trim_id _ Hs He).
    destruct (Qle_bool (measureText (joinSpace (g ++ [w]))) maxWidth) eqn:Hmeasure.
    + destruct (IH lines (g ++ [w]) Hne' Hok' Hws')
        as (gs & g' & more & Hrun & Hcat & Hhd & Hforced).
      exists gs, g', (w :: more). rewrite Hrun, Hcat, Hhd, <- !List.app_assoc.
      repeat split. exact Hforced.
    + assert (Hlt : maxWidth < measureText (joinSpace (g ++ [w]))).
      { apply Qnot_le_lt. intros Hle. apply Qle_bool_iff in Hle. congruence. }
      destruct (IH (lines ++ [joinSpace g]) [w] ltac:(discriminate)
                   (Forall_cons _ Hw (Forall_nil _)) Hws')
        as (gs & g' & more & Hrun & Hcat & Hhd & Hforced).
      exists (g :: gs), g', []. cbn [joinSpace] in Hrun. rewrite Hrun.
      cbn [map List.concat app hd]. rewrite <- !List.app_assoc, Hcat, List.app_nil_r.
      repeat split.
      exact (breaks_forced_cons g (gs ++ [g']) w more Hhd Hlt Hforced).
Qed.

Lemma wrapParagraph_greedy (count : nat) (lines : list text) (p : text) (i : nat) :
  exists g : list (list text),
    wrapParagraph measureText maxWidth count lines p i = lines ++ map joinSpace g
    /\ List.concat g = wordsOf p
    /\ breaks_forced measureText maxWidth g.
Proof.
  unfold wrapParagraph, wordsOf.
  destruct (Nat.eqb (List.length (trim p)) 0) eqn:Hblank.
  - destruct (Nat.ltb i (count - 1)).
    + exists [[]]. repeat split.
    + exists []. cbn [map List.concat]. rewrite List.app_nil_r. repeat split.
  - apply Nat.eqb_neq in Hblank.
    assert (Hne : trim p <> []) by (intros Hnil; rewrite Hnil in Hblank; cbn in Hblank; lia).
    pose proof (splitSpaces_words (trim p) (trim_word_ok p Hne)) as Hwords.
    pose proof (splitSpaces_not_nil (trim p)) as Hnn.
    destruct (splitSpaces (trim p)) as [|w0 rest]; [congruence|].
    cbn [hd tl]. inversion Hwords as [|a b Hw0 Hrest Heq]; subst.
    destruct (wrapWords_greedy rest lines [w0] ltac:(discriminate)
                (Forall_cons _ Hw0 (Forall_nil _)) Hrest)
      as (gs & g' & more & Hrun & Hcat & _ & Hforced).
    cbn [joinSpace] in Hrun.
    exists (gs ++ [g']). unfold text in *. rewrite Hrun.
    rewrite map_app. cbn [map]. rewrite <- List.app_assoc.
    split; [reflexivity|]. split; [exact Hcat | exact Hforced].
Qed.

Lemma wrapParagraphs_greedy (count : nat) (ps : list text) :
  forall (i : nat) (lines : list text),
    exists groups : list (list (list text)),
      reduce_from (wrapParagraph measureText maxWidth count) ps i lines
      = lines ++ List.concat (map (map joinSpace) groups)
      /\ Forall2 (fun p g => List.concat g = wordsOf p
                             /\ breaks_forced measureText maxWidth g)
                 ps groups.
Proof.
  induction ps as [|p rest IH]; intros i lines.
  - exists []. cbn. rewrite List.app_nil_r. split; [reflexivity | constructor].
  - cbn [reduce_from].
    destruct (wrapParagraph_greedy count lines p i) as (g & Hstep & Hcat & Hforced).
    destruct (IH (S i) (wrapParagraph measureText maxWidth count lines p i))
      as (groups & Hrun & Hall).
    exists (g :: groups). rewrite Hrun, Hstep. cbn [map List.concat].
    rewrite <- List.app_assoc. split; [reflexivity|].
    constructor; [split; assumption | exact Hall].
Qed.

End WrapGreedy.

Lemma concat_length_at_most_one {A : Type} (gs : list (list A)) :
  Forall (fun g => (List.length g <= 1)%nat) gs ->
  (List.length (List.concat gs) <= List.length gs)%nat.
Proof.
  induction 1 as [|g gs' Hg _ IH]; [apply Nat.le_refl|].
  cbn [List.concat List.length]. rewrite length_app. lia.
Qed.

(** X16: the wrap fills its lines.  The lines of each paragraph are groups
    of its words, and a paragraph is broken between two words only where
    the line begun, extended by a space and the next word, measures more
    than the maximum width.  So with a measure that never exceeds the
    maximum every paragraph stays on one line and there are no more lines
    than paragraphs. *)
Theorem wrapTextIntoLines_breaks_only_when_forced
        (measureText : text -> Q) (maxWidth : Q) (txt : text) :
  let paragraphs := splitLines txt in
  let lines := wrapTextIntoLines measureText maxWidth txt in
  exists groups : list (list (list text)),
    lines = List.concat (map (map joinSpace) groups)
    /\ Forall2 (fun p g => List.concat g = wordsOf p
                           /\ breaks_forced measureText maxWidth g)
               paragraphs groups
    /\ ((forall s, measureText s <= maxWidth) ->
        Forall (fun g => (List.length g <= 1)%nat) groups
        /\ (List.length lines <= List.length paragraphs)%nat).
Proof.
  cbv zeta. unfold wrapTextIntoLines, reduce.
  destruct (wrapParagraphs_greedy measureText maxWidth
              (List.length (splitLines txt)) (splitLines txt) 0 [])
    as (groups & Hrun & Hall).
  exists groups. rewrite Hrun. cbn [app].
  split; [reflexivity|]. split; [exact Hall|].
  intros Hfits.
  assert (Hone : Forall (fun g : list (list text) => (List.length g <= 1)%nat) groups).
  { apply Forall_forall. intros g Hg.
    destruct (Forall2_in_r _ _ _ Hall g Hg) as (p & _ & _ & Hforced).
    destruct g as [|g1 [|g2 rest]]; cbn [List.length]; try lia.
    cbn [breaks_forced] in Hforced. destruct Hforced as [Hlt _].
    exfalso. exact (Qlt_not_le _ _ Hlt (Hfits _)). }
  split; [exact Hone|].
  rewrite (Forall2_length Hall), <- (length_map (map joinSpace) groups).
  apply concat_length_at_most_one. apply Forall_map.
  eapply Forall_impl; [|exact Hone]. intros g Hg. cbn beta. rewrite length_map. exact Hg.
Qed.

(** ** Document builder: the objects of the pages *)

Lemma writePage_objects (pre : list byte) (objs : list (list byte)) (w : PdfWriter)
      (mediaBox : string) (pw ph : Q) (page : PdfPageImage) (index : nat) :
  writer_ok pre objs w -> List.length objs = (2 + 3 * index)%nat ->
  writer_ok pre (objs ++ pageObjects mediaBox pw ph page index)
            (writePage mediaBox pw ph w page index).
Proof.
  intros Hok Hlen. unfold writePage, pageObjects. cbv zeta.
  replace (basePageObject + index * 3)%nat with (S (List.length objs))
    by (unfold basePageObject; lia).
  pose proof (beginObject_next pre objs w Hok) as H1.
  match goal with |- context [write (Text ?s) (beginObject (S (List.length objs)) w)] =>
    pose proof (write_object (Text s) pre objs _ _ H1) as H2 end.
  cbv beta iota in H2.
  match type of H2 with writer_ok _ (_ ++ [?o]) _ => set (o1 := o) in * end.
  pose proof (beginObject_next pre (objs ++ [o1]) _ H2) as H3.
  replace (S (List.length (objs ++ [o1]))) with (S (List.length objs) + 1)%nat in H3
    by (rewrite length_app; cbn [List.length]; lia).
  match goal with
  | |- context [write (Text ?s) (beginObject (S (List.length objs) + 1) ?w')] =>
      pose proof (write_object (Text s) pre (objs ++ [o1]) _ _ H3) as H4
  end.
  pose proof (write_object (Binary (jpegBytes page)) pre (objs ++ [o1]) _ _ H4) as H5.
  pose proof (write_object (Text (LF ++ "endstream" ++ LF ++ "endobj" ++ LF)%string)
                           pre (objs ++ [o1]) _ _ H5) as H6.
  cbv beta iota in H6.
  match type of H6 with writer_ok _ (_ ++ [?o]) _ => set (o2 := o) in * end.
  pose proof (beginObject_next pre ((objs ++ [o1]) ++ [o2]) _ H6) as H7.
  replace (S (List.length ((objs ++ [o1]) ++ [o2])))
    with (S (List.length objs) + 2)%nat in H7
    by (rewrite !length_app; cbn [List.length]; lia).
  match goal with
  | |- context [write (Text ?s) (beginObject (S (List.length objs) + 2) ?w')] =>
      pose proof (write_object (Text s) pre ((objs ++ [o1]) ++ [o2]) _ _ H7) as H8
  end.
  cbv beta iota in H8.
  match type of H8 with writer_ok _ (_ ++ [?o]) _ => set (o3 := o) in * end.
  rewrite <- !List.app_assoc in H8. cbn [app] in H8.
  subst o2. rewrite <- !List.app_assoc in H8.
  exact H8.
Qed.

Lemma pageObjects_length (mediaBox : string) (pw ph : Q) (page : PdfPageImage)
      (index : nat) :
  List.length (pageObjects mediaBox pw ph page index) = 3%nat.
Proof. reflexivity. Qed.

Lemma writePages_objects (pre : list byte) (mediaBox : string) (pw ph : Q)
      (pages : list PdfPageImage) :
  forall (index : nat) (objs : list (list byte)) (w : PdfWriter),
    writer_ok pre objs w -> List.length objs = (2 + 3 * index)%nat ->
    writer_ok pre (objs ++ pagesObjects mediaBox pw ph pages index)
              (reduce_from (writePage mediaBox pw ph) pages index w).
Proof.
  induction pages as [|page rest IH]; intros index objs w Hok Hlen.
  - cbn [reduce_from pagesObjects]. rewrite List.app_nil_r. exact Hok.
  - cbn [reduce_from pagesObjects]. rewrite List.app_assoc. apply IH.
    + apply writePage_objects; assumption.
    + rewrite length_app, Hlen, pageObjects_length. lia.
Qed.

Lemma writeObjects_objects (pages : list PdfPageImage) (pw ph : Q) :
  writer_ok (encode ("%PDF-1.4" ++ LF)%string) (documentObjects pages pw ph)
            (writeObjects pages pw ph).
Proof.
  unfold writeObjects, documentObjects, reduce. cbv zeta.
  pose proof (write_preamble (Text ("%PDF-1.4" ++ LF)%string) [] newWriter newWriter_ok) as H0.
  cbv beta iota in H0. cbn [app] in H0.
  pose proof (beginObject_next _ [] _ H0) as H1. cbn [List.length app] in H1.
  pose proof (write_object (Text ("<< /Type /Catalog /Pages 2 0 R >>" ++ LF
                                  ++ "endobj" ++ LF)%string) _ [] _ _ H1) as H2.
  cbv beta iota in H2. cbn [app] in H2.
  pose proof (beginObject_next _ _ _ H2) as H3. cbn [List.length app] in H3.
  match goal with
  | |- context [write (Text ?s) (beginObject 2 ?w')] =>
      pose proof (write_object (Text s) _ [_] _ _ H3) as H4
  end.
  cbv beta iota in H4. cbn [app] in H4.
  apply (writePages_objects _ _ pw ph pages 0 _ _ H4). reflexivity.
Qed.

Lemma pagesObjects_length (mediaBox : string) (pw ph : Q) (pages : list PdfPageImage) :
  forall index,
    List.length (pagesObjects mediaBox pw ph pages index) = (3 * List.length pages)%nat.
Proof.
  induction pages as [|page rest IH]; intros index; [reflexivity|].
  cbn [pagesObjects]. rewrite length_app, IH, pageObjects_length. cbn [List.length]. lia.
Qed.

Lemma pagesObjects_nth (mediaBox : string) (pw ph : Q) (pages : list PdfPageImage) :
  forall index i page k, nth_error pages i = Some page -> (k < 3)%nat ->
    nth_error (pagesObjects mediaBox pw ph pages index) (3 * i + k)
    = nth_error (pageObjects mediaBox pw ph page (index + i)) k.
Proof.
  induction pages as [|p rest IH]; intros index i page k Hi Hk.
  - destruct i; discriminate Hi.
  - cbn [pagesObjects]. destruct i as [|i].
    + cbn in Hi. injection Hi as ->. rewrite Nat.add_0_r, Nat.mul_0_r, Nat.add_0_l.
      rewrite nth_error_app1 by (rewrite pageObjects_length; lia). reflexivity.
    + cbn [nth_error] in Hi.
      rewrite nth_error_app2 by (rewrite pageObjects_length; lia).
      replace (3 * S i + k - List.length (pageObjects mediaBox pw ph p index))%nat
        with (3 * i + k)%nat by (rewrite pageObjects_length; lia).
      rewrite (IH (S index) i page k Hi Hk).
      replace (S index + i)%nat with (index + S i)%nat by lia. reflexivity.
Qed.

Lemma nth_object_starts_at (pre : list byte) (objs : list (list byte)) (i : nat)
      (o more : list byte) :
  nth_error objs i = Some o ->
  starts_at (pre ++ List.concat objs ++ more)
            (List.length (pre ++ List.concat (firstn i objs))) o.
Proof.
  intros Hi.
  exists (pre ++ List.concat (firstn i objs)),
         (List.concat (skipn (S i) objs) ++ more).
  split; [|reflexivity].
  rewrite <- (firstn_skipn i objs) at 1.
  assert (Hskip : skipn i objs = o :: skipn (S i) objs).
  { revert objs Hi. induction i as [|i IH]; intros objs Hi.
    - destruct objs; [discriminate Hi|]. injection Hi as ->. reflexivity.
    - destruct objs; [discriminate Hi|]. cbn [skipn]. exact (IH _ Hi). }
  rewrite Hskip, concat_app. cbn [List.concat].
  rewrite <- !List.app_assoc. reflexivity.
Qed.

Lemma documentObjects_length (pages : list PdfPageImage) (pw ph : Q) :
  List.length (documentObjects pages pw ph) = (2 + 3 * List.length pages)%nat.
Proof.
  unfold documentObjects. cbv zeta. rewrite length_app, pagesObjects_length.
  reflexivity.
Qed.

(** X17: the document is the serialisation of its objects, and every image
    is embedded whole.  The bytes are the signature line, the catalog, the
    page tree and three objects per page in the order of their numbers, the
    table with, for object N, the padded count of the bytes before it, and
    the trailer.  For the page at index i the image object, number
    3 + 3 i + 1, is its header, a dictionary that states the pixel width
    and height of the page and, as /Length, the exact number of its image
    bytes, the keyword [stream], the image bytes unchanged, and the closing
    keywords; it stands in the document at the offset its table entry
    gives. *)
Theorem pdf_embeds_every_image (pages : list PdfPageImage) (pageWidthMm pageHeightMm : Q) :
  let blob := buildMultiPagePdf pages pageWidthMm pageHeightMm in
  let signature := encode ("%PDF-1.4" ++ LF)%string in
  let objects := documentObjects pages pageWidthMm pageHeightMm in
  let offset := fun N => List.length (signature ++ List.concat (firstn (N - 1) objects)) in
  let totalObjects := (2 + 3 * List.length pages)%nat in
  blob
  = signature ++ List.concat objects
    ++ encode ("xref" ++ LF ++ "0 " ++ nat_to_string (totalObjects + 1) ++ LF)%string
    ++ encode ("0000000000 65535 f " ++ LF)%string
    ++ List.concat
         (map (fun N => encode (padPdfOffset (offset N) ++ " 00000 n " ++ LF)%string)
              (seq 1 totalObjects))
    ++ encode ("trailer" ++ LF ++ "<< /Size " ++ nat_to_string (totalObjects + 1)
               ++ " /Root 1 0 R >>" ++ LF ++ "startxref" ++ LF
               ++ nat_to_string (List.length (signature ++ List.concat objects))
               ++ LF ++ "%%EOF")%string
  /\ List.length objects = totalObjects
  /\ forall i page, nth_error pages i = Some page ->
       let imageObjectNumber := (basePageObject + i * 3 + 1)%nat in
       let imageObject :=
         encode (objectHeader imageObjectNumber)
         ++ encode ("<< /Type /XObject /Subtype /Image /Width "
                    ++ nat_to_string (widthPx page) ++ " /Height "
                    ++ nat_to_string (heightPx page)
                    ++ " /ColorSpace /DeviceRGB /BitsPerComponent 8 /Filter /DCTDecode /Length "
                    ++ nat_to_string (List.length (jpegBytes page))
                    ++ " >>" ++ LF ++ "stream" ++ LF)%string
         ++ jpegBytes page
         ++ encode (LF ++ "endstream" ++ LF ++ "endobj" ++ LF)%string in
       (imageObjectNumber <= totalObjects)%nat
       /\ nth_error objects (imageObjectNumber - 1) = Some imageObject
       /\ starts_at blob (offset imageObjectNumber) imageObject.
Proof.
  cbv zeta.
  pose proof (writeObjects_objects pages pageWidthMm pageHeightMm)
    as (Hoff & Hbody & Hlen & Hobj).
  pose proof (documentObjects_length pages pageWidthMm pageHeightMm) as Hcount.
  set (w0 := writeObjects pages pageWidthMm pageHeightMm) in *.
  set (signature := encode ("%PDF-1.4" ++ LF)%string) in *.
  set (objs := documentObjects pages pageWidthMm pageHeightMm) in *.
  assert (Hentries : forall N, In N (seq 1 (2 + 3 * List.length pages)) ->
            encode (padPdfOffset (array_get_or0 (offsets w0) N) ++ " 00000 n " ++ LF)%string
            = encode (padPdfOffset
                        (List.length (signature ++ List.concat (firstn (N - 1) objs)))
                      ++ " 00000 n " ++ LF)%string).
  { intros N HN. apply in_seq in HN.
    destruct (nth_error objs (N - 1)) as [o|] eqn:Ho.
    2:{ apply nth_error_None in Ho. lia. }
    destruct (Hobj (N - 1)%nat o Ho) as [_ Hpos].
    replace (S (N - 1)) with N in Hpos by lia. rewrite Hpos. reflexivity. }
  assert (Hblob :
    buildMultiPagePdf pages pageWidthMm pageHeightMm
    = signature ++ List.concat objs
      ++ encode ("xref" ++ LF ++ "0 "
                 ++ nat_to_string (2 + 3 * List.length pages + 1) ++ LF)%string
      ++ encode ("0000000000 65535 f " ++ LF)%string
      ++ List.concat
           (map (fun N => encode (padPdfOffset
                                    (List.length (signature
                                                  ++ List.concat (firstn (N - 1) objs)))
                                  ++ " 00000 n " ++ LF)%string)
                (seq 1 (2 + 3 * List.length pages)))
      ++ encode ("trailer" ++ LF ++ "<< /Size "
                 ++ nat_to_string (2 + 3 * List.length pages + 1)
                 ++ " /Root 1 0 R >>" ++ LF ++ "startxref" ++ LF
                 ++ nat_to_string (List.length (signature ++ List.concat objs))
                 ++ LF ++ "%%EOF")%string).
  { unfold buildMultiPagePdf. cbv zeta. fold w0.
    replace (2 + List.length pages * 3)%nat with (2 + 3 * List.length pages)%nat by lia.
    match goal with |- List.concat (chunks ?w) = _ =>
      change (List.concat (chunks w)) with (blobOf w) end.
    rewrite blobOf_write.
    match goal with |- context [fold_left writeXrefEntry ?l ?w] =>
      destruct (writeXrefEntries_blob l w) as [-> _] end.
    rewrite !blobOf_write. cbn [write offsets]. rewrite Hoff, Hbody.
    rewrite <- !List.app_assoc.
    rewrite (map_ext_in _ _ _ Hentries). reflexivity. }
  split; [exact Hblob|]. split; [exact Hcount|].
  intros i page Hpage.
  assert (Hi : (i < List.length pages)%nat) by (apply nth_error_Some; rewrite Hpage; discriminate).
  assert (Hnth : nth_error objs (basePageObject + i * 3 + 1 - 1)
                 = nth_error (pageObjects
                                ("[0 0 " ++ toFixed2 (mmToPoints pageWidthMm) ++ " "
                                         ++ toFixed2 (mmToPoints pageHeightMm) ++ "]")%string
                                pageWidthMm pageHeightMm page i) 1).
  { unfold objs, documentObjects. cbv zeta.
    rewrite nth_error_app2 by (unfold basePageObject; cbn [List.length]; lia).
    replace (basePageObject + i * 3 + 1 - 1 - List.length _)%nat with (3 * i + 1)%nat
      by (unfold basePageObject; cbn [List.length]; lia).
    rewrite (pagesObjects_nth _ pageWidthMm pageHeightMm pages 0 i page 1 Hpage) by lia.
    reflexivity. }
  cbn [pageObjects nth_error] in Hnth.
  split; [unfold basePageObject; lia|]. split; [exact Hnth|].
  rewrite Hblob. apply nth_object_starts_at. exact Hnth.
Qed.

(** *** Width of the offset field *)

Lemma of_uint_upper (d : Decimal.uint) :
  (Nat.of_uint d < 10 ^ Decimal.nb_digits d)%nat.
Proof.
  induction d as [|d IH|d IH|d IH|d IH|d IH|d IH|d IH|d IH|d IH|d IH];
    [cbn; lia | ..].
  all: unfold Nat.of_uint in *; cbn [Nat.of_uint_acc Decimal.nb_digits].
  all: rewrite DecimalNat.Unsigned.of_uint_acc_spec, usize_nb_digits.
  all: rewrite DecimalNat.Unsigned.of_uint_acc_spec, usize_nb_digits in IH.
  all: rewrite Nat.pow_succ_r'.
  all: cbn [Nat.tail_mul Nat.tail_addmul Nat.tail_add].
  all: set (p := (10 ^ Decimal.nb_digits d)%nat) in *.
  all: lia.
Qed.

Lemma more_than_ten_digits (n : nat) :
  (10 ^ 10 <= n)%nat -> (10 < Decimal.nb_digits (Nat.to_uint n))%nat.
Proof.
  intros Hn.
  pose proof (of_uint_upper (Nat.to_uint n)) as Hup.
  rewrite DecimalNat.Unsigned.of_to in Hup.
  apply (Nat.pow_lt_mono_r_iff 10); [lia|].
  eapply Nat.le_lt_trans; [exact Hn | exact Hup].
Qed.

(** X18: the offset field.  [padPdfOffset] writes its argument in decimal,
    so different offsets give different fields; the field is exactly 10
    characters wide for an offset below 10^10, and for a larger offset it is
    the unpadded number, more than 10 characters wide. *)
Theorem padPdfOffset_width (n m : nat) :
  decimal_value (padPdfOffset n) = Some n
  /\ ((n < 10 ^ 10)%nat -> String.length (padPdfOffset n) = 10%nat)
  /\ ((10 ^ 10 <= n)%nat ->
      padPdfOffset n = nat_to_string n
      /\ (10 < String.length (padPdfOffset n))%nat)
  /\ (padPdfOffset n = padPdfOffset m -> n = m).
Proof.
  split; [apply padPdfOffset_value|]. split; [apply padPdfOffset_length|]. split.
  - intros Hn. pose proof (more_than_ten_digits n Hn) as Hd.
    assert (Hsame : padPdfOffset n = nat_to_string n).
    { unfold padPdfOffset, padStart0.
      replace (10 - String.length (nat_to_string n))%nat with 0%nat; [reflexivity|].
      unfold nat_to_string. rewrite string_of_uint_length. lia. }
    split; [exact Hsame|]. rewrite Hsame.
    unfold nat_to_string. rewrite string_of_uint_length. exact Hd.
  - intros Heq. pose proof (padPdfOffset_value n) as Hn.
    rewrite Heq, padPdfOffset_value in Hn. congruence.
Qed.

(** ** The settled designer state *)

Lemma reclampZoom_lower (artworkBounds : ArtworkBounds) (hasManualZoom : bool)
      (current : Q) :
  minZoom artworkBounds <= reclampZoom artworkBounds hasManualZoom current.
Proof.
  unfold reclampZoom. cbv zeta.
  destruct (hasManualZoom && Qle_bool (minZoom artworkBounds) current) eqn:Hkeep.
  - apply andb_true_iff in Hkeep. destruct Hkeep as [_ Hle].
    apply Qle_bool_iff in Hle. rewrite Qeq_bool_refl_true. exact Hle.
  - destruct (Qeq_bool current (minZoom artworkBounds)) eqn:He.
    + apply Qeq_bool_iff in He. rewrite He. apply Qle_refl.
    + apply Qle_refl.
Qed.

Lemma reclampOffset_in_limits (lim : OffsetLimits) (hasManualOffset : bool)
      (current : ArtOffset.t) :
  minX lim <= maxX lim -> minY lim <= maxY lim ->
  let next := reclampOffset lim hasManualOffset current in
  minX lim <= ArtOffset.x next <= maxX lim /\ minY lim <= ArtOffset.y next <= maxY lim.
Proof.
  intros Hx Hy. cbv zeta. unfold reclampOffset. cbv zeta.
  pose proof (clamp_in_range (ArtOffset.x current) _ _ Hx).
  pose proof (clamp_in_range (ArtOffset.y current) _ _ Hy).
  pose proof (clamp_in_range 0 _ _ Hx).
  pose proof (clamp_in_range 0 _ _ Hy).
  destruct hasManualOffset; cbn [ArtOffset.x ArtOffset.y]; [split; assumption|].
  destruct (Qeq_bool _ _ && Qeq_bool _ _); cbn [ArtOffset.x ArtOffset.y]; split; assumption.
Qed.

(** X19: once the effects have run, every page is covered.  Take any books
    and artwork with non-negative dimensions, and any zoom and offset, set by
    hand or not.  After the zoom effect, and then the offset effect on the
    limits computed for the new zoom, the artwork rectangle contains the
    clip rectangle on the page of every book, and both effects leave the
    state they reached as it is. *)
Theorem settled_state_covers_every_page (l : list BookFormState)
        (a : ArtworkDimensionsMm.t) (artZoom : Q) (artOffsetMm : ArtOffset.t)
        (hasManualZoom hasManualOffset : bool) (r : BookRect.t) :
  let layout := computeStackLayout l in
  let artworkBounds := computeArtworkBounds (metrics layout) a in
  let zoom := reclampZoom artworkBounds hasManualZoom artZoom in
  let offsetLimits := computeOffsetLimits artworkBounds a zoom in
  let offset := reclampOffset offsetLimits hasManualOffset artOffsetMm in
  let g := pageGeometry layout offset zoom a r in
  Forall nonnegative_dimensions l ->
  0 <= ArtworkDimensionsMm.widthMm a -> 0 <= ArtworkDimensionsMm.heightMm a ->
  In r (rects layout) ->
  (artDrawXmm g <= clipLeftMm g
   /\ clipRightMm g <= artDrawXmm g + artDrawWidthMm g
   /\ artDrawYmm g <= clipTopMm g
   /\ clipBottomMm g <= artDrawYmm g + artDrawHeightMm g)
  /\ reclampZoom artworkBounds hasManualZoom zoom == zoom
  /\ ArtOffset.x (reclampOffset offsetLimits hasManualOffset offset) == ArtOffset.x offset
  /\ ArtOffset.y (reclampOffset offsetLimits hasManualOffset offset) == ArtOffset.y offset.
Proof.
  cbv zeta. intros Hnn Haw Hah Hin.
  set (layout := computeStackLayout l).
  set (bounds := computeArtworkBounds (metrics layout) a).
  pose proof (reclampZoom_lower bounds hasManualZoom artZoom) as Hzoom.
  set (zoom := reclampZoom bounds hasManualZoom artZoom) in *.
  destruct (offset_limits_shape bounds a zoom) as (Hsx & Hsy & Hx0 & Hy0).
  set (lim := computeOffsetLimits bounds a zoom) in *.
  assert (Hxr : minX lim <= maxX lim) by lra.
  assert (Hyr : minY lim <= maxY lim) by lra.
  destruct (reclampOffset_in_limits lim hasManualOffset artOffsetMm Hxr Hyr) as [Hox Hoy].
  set (offset := reclampOffset lim hasManualOffset artOffsetMm) in *.
  split; [|split; [|split]].
  - apply (page_covered l a zoom offset r); assumption.
  - unfold reclampZoom. cbv zeta.
    destruct (hasManualZoom && Qle_bool (minZoom bounds) zoom) eqn:Hkeep.
    + rewrite Qeq_bool_refl_true. reflexivity.
    + destruct (Qeq_bool zoom (minZoom bounds)) eqn:He; [reflexivity|].
      destruct hasManualZoom; cbn [andb] in Hkeep.
      * apply Qle_bool_iff in Hzoom. fold zoom in Hzoom. congruence.
      * symmetry. unfold zoom, reclampZoom. cbv zeta. cbn [andb].
        destruct (Qeq_bool artZoom (minZoom bounds)) eqn:He'; [|reflexivity].
        apply Qeq_bool_iff. exact He'.
  - unfold reclampOffset at 1. cbv zeta. cbn [ArtOffset.x ArtOffset.y].
    pose proof (clamp_fixed (ArtOffset.x offset) _ _ Hox) as Hcx.
    destruct hasManualOffset; cbn [ArtOffset.x]; [exact Hcx|].
    destruct (Qeq_bool (clamp (ArtOffset.x offset) (minX lim) (maxX lim))
                       (clamp 0 (minX lim) (maxX lim))
              && Qeq_bool (clamp (ArtOffset.y offset) (minY lim) (maxY lim))
                          (clamp 0 (minY lim) (maxY lim))) eqn:Hsame;
      cbn [ArtOffset.x]; [exact Hcx|].
    unfold offset, reclampOffset. cbv zeta.
    destruct (Qeq_bool (ArtOffset.x _) (ArtOffset.x _) && Qeq_bool (ArtOffset.y _) (ArtOffset.y _))
      eqn:Hfirst; cbn [ArtOffset.x ArtOffset.y] in *; [|reflexivity].
    apply andb_true_iff in Hfirst. destruct Hfirst as [E _].
    apply Qeq_bool_iff in E. symmetry. exact E.
  - unfold reclampOffset at 1. cbv zeta. cbn [ArtOffset.x ArtOffset.y].
    pose proof (clamp_fixed (ArtOffset.y offset) _ _ Hoy) as Hcy.
    destruct hasManualOffset; cbn [ArtOffset.y]; [exact Hcy|].
    destruct (Qeq_bool (clamp (ArtOffset.x offset) (minX lim) (maxX lim))
                       (clamp 0 (minX lim) (maxX lim))
              && Qeq_bool (clamp (ArtOffset.y offset) (minY lim) (maxY lim))
                          (clamp 0 (minY lim) (maxY lim))) eqn:Hsame;
      cbn [ArtOffset.y]; [exact Hcy|].
    unfold offset, reclampOffset. cbv zeta.
    destruct (Qeq_bool (ArtOffset.x _) (ArtOffset.x _) && Qeq_bool (ArtOffset.y _) (ArtOffset.y _))
      eqn:Hfirst; cbn [ArtOffset.x ArtOffset.y] in *; [|reflexivity].
    apply andb_true_iff in Hfirst. destruct Hfirst as [_ E].
    apply Qeq_bool_iff in E. symmetry. exact E.
Qed.

Lemma settled_state_covers_every_page_witness :
  let layout := computeStackLayout DEFAULT_BOOKS in
  let a := ArtworkDimensionsMm.mk 100 100 in
  let artworkBounds := computeArtworkBounds (metrics layout) a in
  let zoom := reclampZoom artworkBounds true (1 # 2) in
  let offsetLimits := computeOffsetLimits artworkBounds a zoom in
  let offset := reclampOffset offsetLimits true (ArtOffset.mk 500 (-500)) in
  let g := pageGeometry layout offset zoom a
                        (nth 3 (rects layout) (BookRect.mk 0 "" 0 0 0 0 "")) in
  artDrawXmm g <= clipLeftMm g
  /\ clipRightMm g <= artDrawXmm g + artDrawWidthMm g
  /\ artDrawYmm g <= clipTopMm g
  /\ clipBottomMm g <= artDrawYmm g + artDrawHeightMm g.
Proof.
  cbv zeta.
  apply (settled_state_covers_every_page DEFAULT_BOOKS (ArtworkDimensionsMm.mk 100 100)
           (1 # 2) (ArtOffset.mk 500 (-500)) true true
           (nth 3 (rects (computeStackLayout DEFAULT_BOOKS))
                (BookRect.mk 0 "" 0 0 0 0 ""))).
  - repeat constructor; cbn; lra.
  - cbn. lra.
  - cbn. lra.
  - vm_compute. right. right. right. left. reflexivity.
Defined.

(** ** Artwork loading and the preview *)

(** X20: an artwork that has loaded has positive dimensions.  For every
    natural size in pixels the size in millimetres is positive; it is the
    natural size at 2 pixels per millimetre, so the preview shows the image
    at its natural pixel size, and where a natural length is zero it is the
    required length of the default layout.  So neither the bounds, the
    offset limits nor the renderer fall back to a layout length for a loaded
    artwork. *)
Theorem loaded_artwork_has_positive_size (naturalWidth naturalHeight : nat) (other : Q) :
  let a := artworkDimensionsOnLoad naturalWidth naturalHeight in
  (0 < ArtworkDimensionsMm.widthMm a /\ 0 < ArtworkDimensionsMm.heightMm a)
  /\ (naturalWidth <> 0%nat ->
      fst (artImageStyle a) == inject_Z (Z.of_nat naturalWidth))
  /\ (naturalHeight <> 0%nat ->
      snd (artImageStyle a) == inject_Z (Z.of_nat naturalHeight))
  /\ (naturalWidth = 0%nat ->
      ArtworkDimensionsMm.widthMm a == requiredWidthMm (metrics DEFAULT_LAYOUT))
  /\ (naturalHeight = 0%nat ->
      ArtworkDimensionsMm.heightMm a == requiredHeightMm (metrics DEFAULT_LAYOUT))
  /\ js_or (ArtworkDimensionsMm.widthMm a) other = ArtworkDimensionsMm.widthMm a
  /\ js_or (ArtworkDimensionsMm.heightMm a) other = ArtworkDimensionsMm.heightMm a.
Proof.
  cbv zeta.
  assert (Hdw : 0 < requiredWidthMm (metrics DEFAULT_LAYOUT)) by (vm_compute; reflexivity).
  assert (Hdh : 0 < requiredHeightMm (metrics DEFAULT_LAYOUT)) by (vm_compute; reflexivity).
  set (dw := requiredWidthMm (metrics DEFAULT_LAYOUT)) in *.
  set (dh := requiredHeightMm (metrics DEFAULT_LAYOUT)) in *.
  assert (Hnat : forall n : nat, n <> 0%nat -> 0 < inject_Z (Z.of_nat n)).
  { intros n Hn. change 0 with (inject_Z 0). rewrite <- Zlt_Qlt. lia. }
  assert (Hw : forall (n : nat) (d : Q), 0 < d ->
             0 < js_or (inject_Z (Z.of_nat n)) (d * PREVIEW_SCALE) / PREVIEW_SCALE
             /\ (n <> 0%nat ->
                 js_or (inject_Z (Z.of_nat n)) (d * PREVIEW_SCALE) / PREVIEW_SCALE
                 * PREVIEW_SCALE == inject_Z (Z.of_nat n))
             /\ (n = 0%nat ->
                 js_or (inject_Z (Z.of_nat n)) (d * PREVIEW_SCALE) / PREVIEW_SCALE == d)).
  { intros n d Hd. unfold PREVIEW_SCALE.
    destruct (Nat.eq_dec n 0) as [->|Hn].
    - rewrite js_or_zero by reflexivity. halves.
      split; [lra|]. split; [intros H; contradiction H; reflexivity | intros _; lra].
    - specialize (Hnat n Hn). rewrite js_or_nonzero by lra. halves.
      split; [lra|]. split; [intros _; lra | intros H; contradiction]. }
  destruct (Hw naturalWidth dw Hdw) as (Pw & Ew & Zw).
  destruct (Hw naturalHeight dh Hdh) as (Ph & Eh & Zh).
  unfold artworkDimensionsOnLoad, artImageStyle. cbv zeta.
  cbn [ArtworkDimensionsMm.widthMm ArtworkDimensionsMm.heightMm fst snd].
  fold dw dh.
  split; [split; assumption|]. split; [exact Ew|]. split; [exact Eh|].
  split; [exact Zw|]. split; [exact Zh|].
  split; apply js_or_nonzero; lra.
Qed.

(** X21: the preview and the document agree on the large text.  For any
    layout, the centre of the text box of the preview, at 2 pixels per
    millimetre from the corner of the required area, is the centre the
    renderer uses on the page of any book; the width the renderer wraps at
    is 92% of the width of that box at 5 pixels per millimetre; the font
    has the same size in millimetres in both; and when the shortest height
    is positive the largest font size is 80% of the height of the box, or
    24 if that is less. *)
Theorem preview_and_document_agree_on_text (layout : StackLayout)
        (a : ArtworkDimensionsMm.t) (zoom largeTextSizePx : Q) (offset : ArtOffset.t)
        (r : BookRect.t) :
  let box := largeTextWrapperStyle layout in
  let g := pageGeometry layout offset zoom a r in
  (BoxPx.left box + BoxPx.width box / 2) / PREVIEW_SCALE
  == largeTextAreaCenterX g - (bookLeftMm g - BookRect.xMm r)
  /\ (BoxPx.top box + BoxPx.height box / 2) / PREVIEW_SCALE
     == largeTextAreaCenterY g - (bookTopMm g - BookRect.yMm r)
  /\ maxTextWidthPx layout == 0.92 * (BoxPx.width box / PREVIEW_SCALE * PDF_RENDER_SCALE)
  /\ fontSizePx largeTextSizePx / PDF_RENDER_SCALE == largeTextSizePx / PREVIEW_SCALE
  /\ (0 < minHeightMm (metrics layout) ->
      maxLargeTextSizePx layout == Qmax 24 (0.8 * BoxPx.height box)).
Proof.
  cbv zeta. unfold largeTextWrapperStyle, pageGeometry, maxTextWidthPx, mmToPdfPixels,
    fontSizePx, previewToPdfScale. cbv zeta.
  cbn [BoxPx.left BoxPx.top BoxPx.width BoxPx.height largeTextAreaCenterX
       largeTextAreaCenterY bookLeftMm bookTopMm].
  unfold PREVIEW_SCALE, PDF_RENDER_SCALE, CLEARANCE_SIDE_MM, CLEARANCE_TOP_MM.
  split; [field|]. split; [field|]. split; [field|]. split; [field|].
  intros Hpos. unfold maxLargeTextSizePx, PREVIEW_SCALE. cbv zeta.
  destruct (Qlt_bool 0 (minHeightMm (metrics layout) * 2)) eqn:Hb.
  - minmax_atoms. lra.
  - exfalso. assert (Hlt : 0 < minHeightMm (metrics layout) * 2) by lra.
    apply Qlt_bool_iff in Hlt. congruence.
Qed.

(** ** The metrics and the order of the books *)

Lemma Math_min_attained (x : Q) (xs : list Q) :
  exists y, In y (x :: xs) /\ Math_min x xs == y.
Proof.
  unfold Math_min. revert x.
  induction xs as [|z t IH]; intros x.
  - exists x. split; [left; reflexivity | reflexivity].
  - simpl. destruct (IH (Qmin x z)) as [y [Hin Hy]].
    destruct Hin as [Heq|Hin].
    + destruct (Q.min_dec x z) as [Hm|Hm].
      * exists x. split; [left; reflexivity|]. rewrite Hy, <- Heq. exact Hm.
      * exists z. split; [right; left; reflexivity|]. rewrite Hy, <- Heq. exact Hm.
    + exists y. split; [right; right; assumption | assumption].
Qed.

Lemma Qsum_Permutation (l l' : list Q) : Permutation l l' -> Qsum l == Qsum l'.
Proof.
  unfold Qsum. induction 1 as [|x l l' _ IH|x y l|l l' l'' _ IH1 _ IH2];
    cbn [fold_right]; [reflexivity | rewrite IH; reflexivity | ring |].
  rewrite IH1. exact IH2.
Qed.

Lemma tallest_Permutation (hs hs' : list Q) :
  Permutation hs hs' ->
  match hs with [] => 0 | h :: t => Math_max h t end
  == match hs' with [] => 0 | h :: t => Math_max h t end.
Proof.
  intros Hperm. destruct hs as [|h t], hs' as [|h' t'].
  - reflexivity.
  - apply Permutation_nil in Hperm. discriminate Hperm.
  - apply Permutation_sym, Permutation_nil in Hperm. discriminate Hperm.
  - destruct (Math_max_attained h t) as (y & Hy & Ey).
    destruct (Math_max_attained h' t') as (y' & Hy' & Ey').
    apply Qle_antisym.
    + rewrite Ey. apply Math_max_upper. exact (Permutation_in _ Hperm Hy).
    + rewrite Ey'. apply Math_max_upper.
      exact (Permutation_in _ (Permutation_sym Hperm) Hy').
Qed.

Lemma shortest_Permutation (hs hs' : list Q) :
  Permutation hs hs' ->
  match hs with [] => 0 | h :: t => Math_min h t end
  == match hs' with [] => 0 | h :: t => Math_min h t end.
Proof.
  intros Hperm. destruct hs as [|h t], hs' as [|h' t'].
  - reflexivity.
  - apply Permutation_nil in Hperm. discriminate Hperm.
  - apply Permutation_sym, Permutation_nil in Hperm. discriminate Hperm.
  - destruct (Math_min_attained h t) as (y & Hy & Ey).
    destruct (Math_min_attained h' t') as (y' & Hy' & Ey').
    apply Qle_antisym.
    + rewrite Ey'. apply Math_min_lower.
      exact (Permutation_in _ (Permutation_sym Hperm) Hy').
    + rewrite Ey. apply Math_min_lower. exact (Permutation_in _ Hperm Hy).
Qed.

Lemma totalWidth_Permutation (l l' : list BookFormState) :
  Permutation l l' ->
  reduce addWidth (map (fun book => cmToMm (spineWidthCm book)) l) 0
  == reduce addWidth (map (fun book => cmToMm (spineWidthCm book)) l') 0.
Proof.
  intros Hperm.
  pose proof (Permutation_length Hperm) as Hlen.
  pose proof (Qsum_Permutation _ _
                (Permutation_map (fun book => cmToMm (spineWidthCm book)) Hperm)) as Hsum.
  destruct l as [|b t], l' as [|b' t']; try discriminate Hlen; [reflexivity|].
  rewrite !totalWidth_closed_form.
  cbn [map Qsum fold_right] in Hsum.
  fold (Qsum (map (fun book => cmToMm (spineWidthCm book)) t)) in Hsum.
  fold (Qsum (map (fun book => cmToMm (spineWidthCm book)) t')) in Hsum.
  cbn [List.length] in Hlen. injection Hlen as Hlen. rewrite Hlen.
  set (n := inject_Z (Z.of_nat (List.length t'))).
  set (s := Qsum (map (fun book => cmToMm (spineWidthCm book)) t)) in *.
  set (s' := Qsum (map (fun book => cmToMm (spineWidthCm book)) t')) in *.
  lra.
Qed.

Lemma Qle_bool_compat (x x' y : Q) : x == x' -> Qle_bool x y = Qle_bool x' y.
Proof.
  intros E. destruct (Qle_bool x y) eqn:H, (Qle_bool x' y) eqn:H'; try reflexivity.
  - apply Qle_bool_iff in H. rewrite E in H. apply Qle_bool_iff in H. congruence.
  - apply Qle_bool_iff in H'. rewrite <- E in H'. apply Qle_bool_iff in H'. congruence.
Qed.

(** X22: the metrics do not depend on the order of the books.  Two
    sequences of the same books in different orders have the same total
    width, tallest and shortest height, required width and height and
    collection width, and fit or do not fit alike. *)
Theorem layout_metrics_ignore_order (l l' : list BookFormState)
        (Hperm : Permutation l l') :
  let m := metrics (computeStackLayout l) in
  let m' := metrics (computeStackLayout l') in
  totalWidthMm m == totalWidthMm m'
  /\ maxHeightMm m == maxHeightMm m'
  /\ minHeightMm m == minHeightMm m'
  /\ requiredWidthMm m == requiredWidthMm m'
  /\ requiredHeightMm m == requiredHeightMm m'
  /\ collectionWidthCm m == collectionWidthCm m'
  /\ fitsOnTabloid m = fitsOnTabloid m'.
Proof.
  cbv zeta. rewrite !metrics_of_layout. cbv zeta.
  cbn [totalWidthMm maxHeightMm minHeightMm requiredWidthMm requiredHeightMm
       collectionWidthCm fitsOnTabloid].
  pose proof (totalWidth_Permutation l l' Hperm) as Htot.
  pose proof (tallest_Permutation _ _
                (Permutation_map (fun book => cmToMm (heightCm book)) Hperm)) as Hmax.
  pose proof (shortest_Permutation _ _
                (Permutation_map (fun book => cmToMm (heightCm book)) Hperm)) as Hmin.
  set (tot := reduce addWidth (map (fun book => cmToMm (spineWidthCm book)) l) 0) in *.
  set (tot' := reduce addWidth (map (fun book => cmToMm (spineWidthCm book)) l') 0) in *.
  set (mh := match map (fun book => cmToMm (heightCm book)) l with
             | [] => 0 | h :: t => Math_max h t end) in *.
  set (mh' := match map (fun book => cmToMm (heightCm book)) l' with
              | [] => 0 | h :: t => Math_max h t end) in *.
  clearbody tot tot' mh mh'.
  split; [exact Htot|]. split; [exact Hmax|]. split; [exact Hmin|].
  assert (Ew : tot + CLEARANCE_SIDE_MM * 2 == tot' + CLEARANCE_SIDE_MM * 2) by lra.
  assert (Eh : mh + CLEARANCE_TOP_MM + CLEARANCE_BOTTOM_MM
               == mh' + CLEARANCE_TOP_MM + CLEARANCE_BOTTOM_MM) by lra.
  split; [exact Ew|]. split; [exact Eh|].
  split; [unfold CM_TO_MM; rewrite Htot; reflexivity|].
  rewrite (Qle_bool_compat _ _ _ Ew), (Qle_bool_compat _ _ _ Eh). reflexivity.
Qed.

Lemma layout_metrics_ignore_order_witness :
  let m := metrics (computeStackLayout DEFAULT_BOOKS) in
  let m' := metrics (computeStackLayout
                       [ mkBook 2 "Book 2" 23.5 4 "#10b981";
                         mkBook 1 "Book 1" 23.5 4.25 "#2563eb";
                         mkBook 3 "Book 3" 23.5 4.75 "#f97316";
                         mkBook 4 "Book 4" 23.5 2.25 "#6366f1" ]) in
  totalWidthMm m == totalWidthMm m'.
Proof.
  cbv zeta.
  apply (layout_metrics_ignore_order DEFAULT_BOOKS
           [ mkBook 2 "Book 2" 23.5 4 "#10b981";
             mkBook 1 "Book 1" 23.5 4.25 "#2563eb";
             mkBook 3 "Book 3" 23.5 4.75 "#f97316";
             mkBook 4 "Book 4" 23.5 2.25 "#6366f1" ]).
  apply perm_swap.
Defined.

(** ** Updates and the layout *)

Lemma rects_from_same_dimensions (f : BookFormState -> BookFormState)
      (l : list BookFormState) :
  (forall book, heightCm (f book) = heightCm book
                /\ spineWidthCm (f book) = spineWidthCm book) ->
  forall maxHeight x,
    map geometryOf (rects_from maxHeight x (map f l))
    = map geometryOf (rects_from maxHeight x l).
Proof.
  intros Hf. induction l as [|b t IH]; intros maxHeight x; [reflexivity|].
  cbn [map rects_from]. destruct (Hf b) as [Hh Hw]. rewrite Hh, Hw, IH. reflexivity.
Qed.

Lemma rects_from_same_widths (f : BookFormState -> BookFormState)
      (l : list BookFormState) :
  (forall book, spineWidthCm (f book) = spineWidthCm book) ->
  forall maxHeight maxHeight' x,
    map (fun r => (BookRect.xMm r, BookRect.widthMm r))
        (rects_from maxHeight x (map f l))
    = map (fun r => (BookRect.xMm r, BookRect.widthMm r)) (rects_from maxHeight' x l).
Proof.
  intros Hf. induction l as [|b t IH]; intros maxHeight maxHeight' x; [reflexivity|].
  cbn [map rects_from BookRect.xMm BookRect.widthMm].
  rewrite Hf, (IH maxHeight maxHeight'). reflexivity.
Qed.

Lemma layout_same_dimensions (f : BookFormState -> BookFormState)
      (l : list BookFormState) :
  (forall book, heightCm (f book) = heightCm book
                /\ spineWidthCm (f book) = spineWidthCm book) ->
  metrics (computeStackLayout (map f l)) = metrics (computeStackLayout l)
  /\ map geometryOf (rects (computeStackLayout (map f l)))
     = map geometryOf (rects (computeStackLayout l)).
Proof.
  intros Hf.
  assert (Hm : metrics (computeStackLayout (map f l)) = metrics (computeStackLayout l)).
  { rewrite !metrics_of_layout. cbv zeta. rewrite !map_map.
    rewrite (map_ext (fun book => cmToMm (heightCm (f book)))
                     (fun book => cmToMm (heightCm book)))
      by (intros b; destruct (Hf b) as [-> _]; reflexivity).
    rewrite (map_ext (fun book => cmToMm (spineWidthCm (f book)))
                     (fun book => cmToMm (spineWidthCm book)))
      by (intros b; destruct (Hf b) as [_ ->]; reflexivity).
    reflexivity. }
  split; [exact Hm|].
  rewrite !rects_of_layout, Hm. apply rects_from_same_dimensions. exact Hf.
Qed.

(** X23: what an update can move.  Setting the label, the colour or the id
    of a book changes neither the metrics nor the place or size of any
    rectangle; setting a height changes neither the total width nor the
    left edge or width of any rectangle. *)
Theorem updates_and_geometry (bookId : Z) (st : DesignerState)
        (newId : Z) (newText : string) (newHeight : Q) :
  (forall u, u = SetLabel newText \/ u = SetColor newText \/ u = SetId newId ->
     metrics (computeStackLayout (books (handleUpdateBook bookId u st)))
     = metrics (computeStackLayout (books st))
     /\ map geometryOf (rects (computeStackLayout (books (handleUpdateBook bookId u st))))
        = map geometryOf (rects (computeStackLayout (books st))))
  /\ (let st' := handleUpdateBook bookId (SetHeightCm newHeight) st in
      totalWidthMm (metrics (computeStackLayout (books st')))
      = totalWidthMm (metrics (computeStackLayout (books st)))
      /\ map (fun r => (BookRect.xMm r, BookRect.widthMm r))
             (rects (computeStackLayout (books st')))
         = map (fun r => (BookRect.xMm r, BookRect.widthMm r))
               (rects (computeStackLayout (books st)))).
Proof.
  split.
  - intros u Hu. unfold handleUpdateBook. cbn [books].
    apply layout_same_dimensions. intros b.
    destruct (Z.eqb (id b) bookId); [|split; reflexivity].
    destruct Hu as [-> | [-> | ->]]; split; reflexivity.
  - cbv zeta. unfold handleUpdateBook. cbn [books].
    set (f := fun book => if Z.eqb (id book) bookId
                          then setField (SetHeightCm newHeight) book else book).
    assert (Hf : forall book, spineWidthCm (f book) = spineWidthCm book).
    { intros b. unfold f. destruct (Z.eqb (id b) bookId); reflexivity. }
    split.
    + rewrite !metrics_of_layout. cbv zeta. cbn [totalWidthMm]. rewrite map_map.
      rewrite (map_ext (fun book => cmToMm (spineWidthCm (f book)))
                       (fun book => cmToMm (spineWidthCm book)))
        by (intros b; rewrite Hf; reflexivity).
      reflexivity.
    + rewrite !rects_of_layout. apply rects_from_same_widths. exact Hf.
Qed.

(** ** Fitting on the sheet *)

Lemma totalWidth_nonneg (l : list BookFormState) :
  Forall nonnegative_dimensions l ->
  0 <= reduce addWidth (map (fun book => cmToMm (spineWidthCm book)) l) 0.
Proof.
  intros Hnn. destruct l as [|b t]; [cbn; lra|].
  rewrite totalWidth_closed_form.
  pose proof (Qsum_widths_nonneg t (Forall_inv_tail Hnn)) as Hs.
  pose proof (length_nonneg t) as Hn.
  destruct (Forall_inv Hnn) as [_ Hw].
  set (s := Qsum _) in *. set (n := inject_Z _) in *.
  unfold cmToMm, CM_TO_MM, GAP_MM. lra.
Qed.

Lemma Qsum_filter_le (f : BookFormState -> bool) (l : list BookFormState) :
  Forall nonnegative_dimensions l ->
  Qsum (map (fun book => cmToMm (spineWidthCm book)) (filter f l))
  <= Qsum (map (fun book => cmToMm (spineWidthCm book)) l).
Proof.
  induction 1 as [|b t [_ Hw] _ IH]; [apply Qle_refl|].
  cbn [filter]. destruct (f b); cbn [map Qsum fold_right];
    fold (Qsum (map (fun book => cmToMm (spineWidthCm book)) t));
    fold (Qsum (map (fun book => cmToMm (spineWidthCm book)) (filter f t)));
    set (s := Qsum (map (fun book => cmToMm (spineWidthCm book)) t)) in *;
    set (s' := Qsum (map (fun book => cmToMm (spineWidthCm book)) (filter f t))) in *;
    unfold cmToMm, CM_TO_MM; lra.
Qed.

Lemma totalWidth_filter_le (f : BookFormState -> bool) (l : list BookFormState) :
  Forall nonnegative_dimensions l ->
  reduce addWidth (map (fun book => cmToMm (spineWidthCm book)) (filter f l)) 0
  <= reduce addWidth (map (fun book => cmToMm (spineWidthCm book)) l) 0.
Proof.
  intros Hnn.
  pose proof (Qsum_filter_le f l Hnn) as Hsum.
  pose proof (filter_length_le f l) as Hlen.
  destruct (filter f l) as [|b' t'] eqn:Hf.
  - change (reduce addWidth (map _ []) 0) with 0. apply totalWidth_nonneg. exact Hnn.
  - destruct l as [|b t]; [discriminate Hf|].
    rewrite !totalWidth_closed_form.
    cbn [map Qsum fold_right List.length] in Hsum, Hlen.
    fold (Qsum (map (fun book => cmToMm (spineWidthCm book)) t)) in Hsum.
    fold (Qsum (map (fun book => cmToMm (spineWidthCm book)) t')) in Hsum.
    assert (Hn : inject_Z (Z.of_nat (List.length t')) <= inject_Z (Z.of_nat (List.length t))).
    { rewrite <- Zle_Qle. lia. }
    set (n := inject_Z (Z.of_nat (List.length t))) in *.
    set (n' := inject_Z (Z.of_nat (List.length t'))) in *.
    set (s := Qsum (map (fun book => cmToMm (spineWidthCm book)) t)) in *.
    set (s' := Qsum (map (fun book => cmToMm (spineWidthCm book)) t')) in *.
    unfold GAP_MM. lra.
Qed.

Lemma tallest_filter_le (f : BookFormState -> bool) (l : list BookFormState) :
  Forall nonnegative_dimensions l ->
  match map (fun book => cmToMm (heightCm book)) (filter f l) with
  | [] => 0 | h :: t => Math_max h t end
  <= match map (fun book => cmToMm (heightCm book)) l with
     | [] => 0 | h :: t => Math_max h t end.
Proof.
  intros Hnn.
  destruct (map (fun book => cmToMm (heightCm book)) (filter f l)) as [|h' t'] eqn:Hf.
  - destruct l as [|b t]; [apply Qle_refl|]. cbn [map].
    apply Qle_trans with (cmToMm (heightCm b)).
    + destruct (Forall_inv Hnn) as [Hh _]. unfold cmToMm, CM_TO_MM. lra.
    + apply Math_max_upper. left. reflexivity.
  - destruct (Math_max_attained h' t') as (y & Hy & ->).
    rewrite <- Hf in Hy. apply in_map_iff in Hy. destruct Hy as (book & <- & Hbook).
    apply filter_In in Hbook. destruct Hbook as [Hbook _].
    destruct l as [|b t]; [destruct Hbook|].
    apply Math_max_upper.
    exact (in_map (fun book => cmToMm (heightCm book)) (b :: t) book Hbook).
Qed.

(** X24: fitting on the sheet and the number of books.  A book added to a
    list that is not empty never makes a layout fit that did not fit
    before; and removing books with non-negative dimensions, as
    [handleRemoveBook] or any other filter does, never makes a layout that
    fitted stop fitting. *)
Theorem fit_follows_the_books (st : DesignerState) (bookId : Z)
        (keep : BookFormState -> bool) :
  (books st <> [] ->
   fitsOnTabloid (metrics (computeStackLayout (books (handleAddBook st)))) = true ->
   fitsOnTabloid (metrics (computeStackLayout (books st))) = true)
  /\ (Forall nonnegative_dimensions (books st) ->
      fitsOnTabloid (metrics (computeStackLayout (books st))) = true ->
      fitsOnTabloid (metrics (computeStackLayout (filter keep (books st)))) = true
      /\ fitsOnTabloid (metrics (computeStackLayout (books (handleRemoveBook bookId st))))
         = true).
Proof.
  split.
  - intros Hne. destruct st as [bs n]. cbn [books nextId handleAddBook] in *.
    destruct bs as [|b t]; [contradiction Hne; reflexivity|].
    set (new := mkBook n ("Book " ++ Z_to_string n)%string
                       (last (map heightCm (b :: t)) 22) 3.5 "#0ea5e9").
    destruct (appended_book_metrics b t new (last_height_in b t 22)) as (Hmax & _ & Htot).
    change ((b :: t) ++ [new]) with (b :: (t ++ [new])).
    rewrite !metrics_of_layout. cbv zeta. cbn [fitsOnTabloid map] in *.
    rewrite !andb_true_iff, !Qle_bool_iff. rewrite Hmax, Htot.
    unfold new. cbn [spineWidthCm]. unfold cmToMm at 3. unfold CM_TO_MM, GAP_MM.
    set (tot := reduce addWidth _ 0). intros [Hw Hh]. split; [lra | exact Hh].
  - intros Hnn Hfit.
    assert (Hany : forall f,
               fitsOnTabloid (metrics (computeStackLayout (filter f (books st)))) = true).
    { intros f. revert Hfit. rewrite !metrics_of_layout. cbv zeta. cbn [fitsOnTabloid].
      rewrite !andb_true_iff, !Qle_bool_iff.
      pose proof (totalWidth_filter_le f _ Hnn) as Hw.
      pose proof (tallest_filter_le f _ Hnn) as Hh.
      intros [Hfw Hfh]. split; lra. }
    split; [apply Hany|].
    unfold handleRemoveBook. cbv zeta. cbn [books].
    destruct (Nat.ltb 1 (List.length (books st))); [apply Hany | exact Hfit].
Qed.
